(** * Gemini-3D voxel engine: simulation, greedy rebuild matcher, JSON import/export

    A shallow embedding of [src/services/VoxelEngine.ts] (class [VoxelEngine])
    and of [handleJsonImport] in [src/App.tsx].

    JavaScript numbers are kept behind a small interface, [JSNumber], so that
    every function of the engine is written once, with the operators the
    source uses.  Two instances are given:

    - [Float64]: IEEE 754 binary64, the numbers JavaScript computes with;
      used to run the engine on concrete scenes;
    - [Real]: the real numbers, the exact arithmetic in which the
      numeric laws (floor bound, convergence, rounding error) are stated.
      Rounding error, infinities and NaN of binary64 are outside these laws.

    [Date.now()] and [Math.random()] are inputs of the functions that read
    them.  Of three.js the file models what the engine computes with:
    [new Color(hex)], [getHex] and [getHexString], with the conversion
    between sRGB and the linear working space; [offsetHSL] is an input.  The rendering side ([THREE.InstancedMesh], camera, callbacks to
    React) carries no simulation state and is left out. *)

From Stdlib Require Import String Ascii.
From Stdlib Require Import ZArith List Bool Lia.
From Stdlib Require Import Floats Reals Lra.
Import ListNotations.

Set Implicit Arguments.
Set Warnings "-register-all".

(** ** The number interface *)

Class JSNumber (num : Type) := {
  nofZ : Z -> num;                 (* an integer literal *)
  nadd : num -> num -> num;        (* a + b *)
  nsub : num -> num -> num;        (* a - b *)
  nmul : num -> num -> num;        (* a * b *)
  ndiv : num -> num -> num;        (* a / b *)
  nsqrt : num -> num;              (* Math.sqrt *)
  nmax : num -> num -> num;        (* Math.max *)
  nmin : num -> num -> num;        (* Math.min *)
  nltb : num -> num -> bool;       (* a < b *)
  neqb : num -> num -> bool;       (* a === b *)
  nfloor : num -> Z;               (* Math.floor as an integer; 0 when not finite *)
  npow : num -> num -> num;        (* Math.pow, for a positive base *)
  nroundScaled : Z -> num -> Z;    (* the integer floor(k * x + 1/2), of the exact
                                      product and sum; 0 when x is not finite *)
  nquot : Z -> Z -> num            (* the number nearest to the fraction n / d *)
}.

Declare Scope js_scope.
Delimit Scope js_scope with js.
Notation "a + b" := (nadd a b) : js_scope.
Notation "a - b" := (nsub a b) : js_scope.
Notation "a * b" := (nmul a b) : js_scope.
Notation "a / b" := (ndiv a b) : js_scope.
Notation "a <? b" := (nltb a b) : js_scope.
Notation "a >? b" := (nltb b a) : js_scope.
Notation "a =? b" := (neqb a b) : js_scope.

(** A decimal literal [n/d] with [d] a power of ten: [dec 25 1000] is 0.025.
    In binary64 the quotient of two small integers is correctly rounded, so
    this is the double the literal denotes. *)
Definition dec {num} `{JSNumber num} (n d : Z) : num := (nofZ n / nofZ d)%js.

(** *** binary64 *)

Definition float_ofZ (z : Z) : float :=
  SF2Prim (binary_normalize prec emax z 0 false).

Definition float_max (a b : float) : float :=
  if (PrimFloat.is_nan a || PrimFloat.is_nan b)%bool then PrimFloat.nan
  else if PrimFloat.ltb a b then b else a.

Definition float_min (a b : float) : float :=
  if (PrimFloat.is_nan a || PrimFloat.is_nan b)%bool then PrimFloat.nan
  else if PrimFloat.ltb b a then b else a.

Definition float_floor (f : float) : Z :=
  match Prim2SF f with
  | S754_finite s m e =>
      let v := if s then Zneg m else Zpos m in
      if (0 <=? e)%Z then Z.shiftl v e else Z.shiftr v (- e)
  | _ => 0%Z
  end.

(** [Math.pow] is left to the implementation by the language ("an
    implementation-approximated value").  Here the power is computed as
    [exp (y * ln x)] on integers scaled by [2^160] and rounded once to the
    nearest double; a base of 1 gives exactly 1.  A negative base, and an
    infinite or NaN argument other than a base of plus infinity, give NaN:
    the engine raises colour channels only, with a base of at least
    0.0031308. *)
Definition fxp : Z := 160.
Definition fx_one : Z := (2 ^ fxp)%Z.
Definition fx_mul (a b0 : Z) : Z := Z.shiftr (a * b0) fxp.
Definition fx_div (a b0 : Z) : Z := (Z.shiftl a fxp / b0)%Z.

(** [atanh z = z + z^3/3 + z^5/5 + ...], for [0 <= z <= 1/3]. *)
Fixpoint fx_atanh_terms (n : nat) (k zk z2 : Z) : Z :=
  match n with
  | O => 0%Z
  | S n' => (zk / k + fx_atanh_terms n' (k + 2) (fx_mul zk z2) z2)%Z
  end.

Definition fx_atanh (z : Z) : Z := fx_atanh_terms 60 1 z (fx_mul z z).

Definition fx_ln2 : Z := (2 * fx_atanh (fx_one / 3))%Z.

(** [ln (m * 2^e)] for [m > 0]: with [m = t * 2^d] and [1 <= t < 2],
    [ln t = 2 atanh ((t - 1) / (t + 1))]. *)
Definition fx_ln (m e : Z) : Z :=
  let d := Z.log2 m in
  let t := Z.shiftl m (fxp - d) in
  (2 * fx_atanh (fx_div (t - fx_one) (t + fx_one)) + (e + d) * fx_ln2)%Z.

Fixpoint fx_exp_terms (n : nat) (k term r : Z) : Z :=
  match n with
  | O => 0%Z
  | S n' => (term + fx_exp_terms n' (k + 1) (fx_mul term r / k) r)%Z
  end.

(** [exp w] as a mantissa and a binary exponent: [w = k ln 2 + r] with
    [|r| <= ln 2 / 2], and [exp r] by its series. *)
Definition fx_exp (w : Z) : Z * Z :=
  let k := ((2 * w + fx_ln2) / (2 * fx_ln2))%Z in
  (fx_exp_terms 60 1 fx_one (w - k * fx_ln2), (k - fxp)%Z).

Definition float_pow (x y : float) : float :=
  match Prim2SF x, Prim2SF y with
  | _, S754_zero _ => PrimFloat.one
  | S754_finite false mx ex, S754_finite sy my ey =>
      let yv := if sy then Zneg my else Zpos my in
      let w := Z.shiftl (fx_ln (Zpos mx) ex * yv) ey in
      let '(m, e) := fx_exp w in
      SF2Prim (binary_normalize prec emax m e false)
  | S754_zero _, S754_finite false _ _ => PrimFloat.zero
  | S754_infinity false, S754_finite false _ _ => PrimFloat.infinity
  | _, _ => PrimFloat.nan
  end.

(** [floor(k * x + 1/2)] of the exact value of the double [x]. *)
Definition float_roundScaled (k : Z) (f : float) : Z :=
  match Prim2SF f with
  | S754_finite s m e =>
      let v := ((if s then Zneg m else Zpos m) * k)%Z in
      if (0 <=? e)%Z then (v * 2 ^ e)%Z
      else ((2 * v + 2 ^ (- e)) / 2 ^ (1 - e))%Z
  | _ => 0%Z
  end.

Definition Z2SF (z : Z) : spec_float :=
  match z with
  | Z0 => S754_zero false
  | Zpos p => S754_finite false p 0
  | Zneg p => S754_finite true p 0
  end.

(** The double nearest to [n / d], as reading a decimal numeral gives it. *)
Definition float_quot (n d : Z) : float :=
  SF2Prim (SFdiv prec emax (Z2SF n) (Z2SF d)).

#[export] Instance Float64 : JSNumber float := {
  nofZ := float_ofZ;
  nadd := PrimFloat.add;
  nsub := PrimFloat.sub;
  nmul := PrimFloat.mul;
  ndiv := PrimFloat.div;
  nsqrt := PrimFloat.sqrt;
  nmax := float_max;
  nmin := float_min;
  nltb := PrimFloat.ltb;
  neqb := PrimFloat.eqb;
  nfloor := float_floor;
  npow := float_pow;
  nroundScaled := float_roundScaled;
  nquot := float_quot
}.

(** *** exact reals *)

Definition Rltb (a b : R) : bool := if Rlt_dec a b then true else false.
Definition Reqb (a b : R) : bool := if Req_dec_T a b then true else false.

#[export] Instance Real : JSNumber R := {
  nofZ := IZR;
  nadd := Rplus;
  nsub := Rminus;
  nmul := Rmult;
  ndiv := Rdiv;
  nsqrt := R_sqrt.sqrt;
  nmax := Rmax;
  nmin := Rmin;
  nltb := Rltb;
  neqb := Reqb;
  nfloor := Int_part;
  npow := Rpower;
  nroundScaled := fun k v => Int_part (IZR k * v + 1 / 2)%R;
  nquot := fun n d => (IZR n / IZR d)%R
}.

(** ** Data model ([types.ts]) *)

Inductive AppState := STABLE | DISMANTLING | REBUILDING.

Definition AppState_eqb (a b : AppState) : bool :=
  match a, b with
  | STABLE, STABLE | DISMANTLING, DISMANTLING | REBUILDING, REBUILDING => true
  | _, _ => false
  end.

Section Engine.

Context {num : Type} {N : JSNumber num}.
Local Open Scope js_scope.

(** [THREE.Color]: three channels, each in [0,1] when built from a hex value. *)
Record Color := mkColor { r : num; g : num; b : num }.

(** The transfer functions of three.js ([ColorManagement]): a [Color]
    stores linear channels, while hex values and strings are sRGB. *)
Definition SRGBToLinear (c : num) : num :=
  if c <? dec 4045 100000 then c * dec 773993808 10000000000
  else npow (c * dec 9478672986 10000000000 + dec 521327014 10000000000)
            (dec 24 10).

Definition LinearToSRGB (c : num) : num :=
  if c <? dec 31308 10000000 then c * dec 1292 100
  else dec 1055 1000 * npow c (dec 41666 100000) - dec 55 1000.

(** [new THREE.Color(hex)] for a number: [setHex], which floors the value,
    reads one byte per channel, [(hex >> 16 & 255) / 255] and so on, and
    converts the channels from sRGB to the linear working space. *)
Definition THREE_Color (hex : num) : Color :=
  let h := nfloor hex in
  {| r := SRGBToLinear (nofZ (Z.land (Z.shiftr h 16) 255) / nofZ 255);
     g := SRGBToLinear (nofZ (Z.land (Z.shiftr h 8) 255) / nofZ 255);
     b := SRGBToLinear (nofZ (Z.land h 255) / nofZ 255) |}.

(** [VoxelData]: position and a packed colour such as 0xFF0000. *)
Record VoxelData := mkVoxelData {
  vd_x : num; vd_y : num; vd_z : num; vd_color : num
}.

(** [SimulationVoxel] *)
Record SimulationVoxel := mkVoxel {
  id : nat;
  x : num; y : num; z : num;
  color : Color;
  vx : num; vy : num; vz : num;
  rx : num; ry : num; rz : num;
  rvx : num; rvy : num; rvz : num
}.

(** [RebuildTarget]; the optional [isRubble] is [false] when absent. *)
Record RebuildTarget := mkTarget {
  rt_x : num; rt_y : num; rt_z : num;
  delay : num;
  isRubble : bool
}.

(** The constants of [utils/voxelConstants.ts] that the engine reads.  That
    file is not among the sources, so they are parameters of the engine. *)
Record Constants := mkConstants {
  FLOOR_Y : num;       (* CONFIG.FLOOR_Y *)
  GREEN : num;         (* COLORS.GREEN *)
  WOOD : num           (* COLORS.WOOD *)
}.

(** The fields of [VoxelEngine] that the simulation reads and writes. *)
Record VoxelEngine := mkEngine {
  voxels : list SimulationVoxel;
  rebuildTargets : list RebuildTarget;
  rebuildStartTime : num;
  state : AppState
}.

Variable K : Constants.

(** ** [getColorDist] *)

Definition getColorDist (c1 : Color) (hex2 : num) : num :=
  let c2 := THREE_Color hex2 in
  let dr := (r c1 - r c2) * dec 3 10 in
  let dg := (g c1 - g c2) * dec 59 100 in
  let db := (b c1 - b c2) * dec 11 100 in
  nsqrt (dr * dr + dg * dg + db * db).

(** ** [rebuild]: the greedy matcher *)

(** An entry of the local array [available]. *)
Record Available := mkAvailable {
  index : nat;
  a_color : Color;
  taken : bool
}.

Definition isLeafOrWood (c : Color) : bool :=
  (g c >? dec 4 10) || ((r c <? dec 25 100) && (b c <? dec 25 100)).

Definition targetIsGreen (target : VoxelData) : bool :=
  (vd_color target =? GREEN K) || (vd_color target =? WOOD K).

Definition penalty (a : Available) (target : VoxelData) : num :=
  if isLeafOrWood (a_color a) && negb (targetIsGreen target)
  then nofZ 100 else nofZ 0.

(** The inner [for] loop from position [i] on, [avail] being
    [available[i..]].  [bestIdx = -1] is [None].  The [break] is the branch
    that returns without visiting the rest. *)
Fixpoint scan (avail : list Available) (i : nat) (target : VoxelData)
    (bestDist : num) (bestIdx : option nat) : num * option nat :=
  match avail with
  | [] => (bestDist, bestIdx)
  | a :: rest =>
      if taken a then scan rest (S i) target bestDist bestIdx
      else
        let d := getColorDist (a_color a) (vd_color target) in
        if (d + penalty a target) <? bestDist then
          if d <? dec 1 100 then (d + penalty a target, Some i)
          else scan rest (S i) target (d + penalty a target) (Some i)
        else scan rest (S i) target bestDist bestIdx
  end.

(** [l[i] = v] for [i] inside the array (the only case the engine meets;
    outside, JavaScript would extend the array, here nothing is written). *)
Fixpoint update {A} (l : list A) (i : nat) (v : A) : list A :=
  match l, i with
  | [], _ => []
  | _ :: t, O => v :: t
  | h :: t, S j => h :: update t j v
  end.

Definition markTaken (a : Available) : Available :=
  {| index := index a; a_color := a_color a; taken := true |}.

(** The index [bestIdx] chosen for one target. *)
Definition bestIdx_of (available : list Available) (target : VoxelData)
    : option nat :=
  snd (scan available 0 target (nofZ 9999) None).

(** The object stored in [mappings] for a target that found a voxel. *)
Definition targetAssignment (target : VoxelData) : RebuildTarget :=
  let h := nmax (nofZ 0) ((vd_y target - FLOOR_Y K) / nofZ 15) in
  {| rt_x := vd_x target; rt_y := vd_y target; rt_z := vd_z target;
     delay := h * nofZ 800; isRubble := false |}.

(** One iteration of [targetModel.forEach]. *)
Definition assignTarget
    (st : list Available * list (option RebuildTarget)) (target : VoxelData)
    : list Available * list (option RebuildTarget) :=
  let '(available, mappings) := st in
  match bestIdx_of available target with
  | None => st
  | Some bestIdx =>
      match nth_error available bestIdx with
      | None => st
      | Some a =>
          (update available bestIdx (markTaken a),
           update mappings (index a) (Some (targetAssignment target)))
      end
  end.

Fixpoint mapi_from {A B} (f : A -> nat -> B) (i : nat) (l : list A) : list B :=
  match l with
  | [] => []
  | a :: t => f a i :: mapi_from f (S i) t
  end.

(** [array.map((v, i) => ...)] *)
Definition mapi {A B} (f : A -> nat -> B) (l : list A) : list B :=
  mapi_from f 0 l.

Definition rubbleOf (v : SimulationVoxel) : RebuildTarget :=
  {| rt_x := x v; rt_y := y v; rt_z := z v;
     delay := nofZ 0; isRubble := true |}.

(** Step 4 of [rebuild]: every slot still [null] becomes rubble. *)
Fixpoint fillRubble (vs : list SimulationVoxel)
    (mappings : list (option RebuildTarget)) : list RebuildTarget :=
  match vs with
  | [] => []
  | v :: vs' =>
      match mappings with
      | Some t :: ms => t :: fillRubble vs' ms
      | None :: ms => rubbleOf v :: fillRubble vs' ms
      | [] => rubbleOf v :: fillRubble vs' []
      end
  end.

Definition initialAvailable (vs : list SimulationVoxel) : list Available :=
  mapi (fun v i => {| index := i; a_color := color v; taken := false |}) vs.

(** Steps 1 to 3: the pool and the mappings after all targets. *)
Definition matchTargets (vs : list SimulationVoxel) (targetModel : list VoxelData)
    : list Available * list (option RebuildTarget) :=
  fold_left assignTarget targetModel
    (initialAvailable vs, repeat None (length vs)).

(** [rebuild(targetModel)], [now] being the value of [Date.now()]. *)
Definition rebuild (e : VoxelEngine) (targetModel : list VoxelData) (now : num)
    : VoxelEngine :=
  match state e with
  | REBUILDING => e
  | _ =>
      let mappings := snd (matchTargets (voxels e) targetModel) in
      {| voxels := voxels e;
         rebuildTargets := fillRubble (voxels e) mappings;
         rebuildStartTime := now;
         state := REBUILDING |}
  end.

(** ** [updatePhysics]: one frame *)

(** Scene A, the body of [voxels.forEach] while dismantling. *)
Definition physicsStep (v : SimulationVoxel) : SimulationVoxel :=
  let vy1 := vy v - dec 25 1000 in
  let x1 := x v + vx v in
  let y1 := y v + vy1 in
  let z1 := z v + vz v in
  let rx1 := rx v + rvx v in
  let ry1 := ry v + rvy v in
  let rz1 := rz v + rvz v in
  if y1 <? FLOOR_Y K + dec 5 10 then
    {| id := id v; x := x1; y := FLOOR_Y K + dec 5 10; z := z1;
       color := color v;
       vx := vx v * dec 9 10; vy := vy1 * dec (-5) 10; vz := vz v * dec 9 10;
       rx := rx1; ry := ry1; rz := rz1;
       rvx := rvx v * dec 8 10; rvy := rvy v * dec 8 10;
       rvz := rvz v * dec 8 10 |}
  else
    {| id := id v; x := x1; y := y1; z := z1;
       color := color v;
       vx := vx v; vy := vy1; vz := vz v;
       rx := rx1; ry := ry1; rz := rz1;
       rvx := rvx v; rvy := rvy v; rvz := rvz v |}.

(** Squared distance from the voxel to its target. *)
Definition distSq (t : RebuildTarget) (v : SimulationVoxel) : num :=
  (rt_x t - x v) * (rt_x t - x v) + (rt_y t - y v) * (rt_y t - y v)
  + (rt_z t - z v) * (rt_z t - z v).

(** The voxel after the six interpolation assignments ([speed = 0.12]). *)
Definition lerp (t : RebuildTarget) (v : SimulationVoxel) : SimulationVoxel :=
  let speed := dec 12 100 in
  {| id := id v;
     x := x v + (rt_x t - x v) * speed;
     y := y v + (rt_y t - y v) * speed;
     z := z v + (rt_z t - z v) * speed;
     color := color v;
     vx := vx v; vy := vy v; vz := vz v;
     rx := rx v + (nofZ 0 - rx v) * speed;
     ry := ry v + (nofZ 0 - ry v) * speed;
     rz := rz v + (nofZ 0 - rz v) * speed;
     rvx := rvx v; rvy := rvy v; rvz := rvz v |}.

Definition snap (t : RebuildTarget) (v : SimulationVoxel) : SimulationVoxel :=
  {| id := id v; x := rt_x t; y := rt_y t; z := rt_z t;
     color := color v;
     vx := vx v; vy := vy v; vz := vz v;
     rx := nofZ 0; ry := nofZ 0; rz := nofZ 0;
     rvx := rvx v; rvy := rvy v; rvz := rvz v |}.

(** Scene B, the body of [voxels.forEach((v, i) => ...)] with
    [t = rebuildTargets[i]]: the voxel it leaves, and [false] when it
    executes [allDone = false]. *)
Definition rebuildStep (elapsed : num) (t : RebuildTarget) (v : SimulationVoxel)
    : SimulationVoxel * bool :=
  if isRubble t then (v, true)
  else if elapsed <? delay t then (v, false)
  else
    let v1 := lerp t v in
    if distSq t v1 >? dec 1 100 then (v1, false)
    else (snap t v1, true).

(** The whole [forEach] of scene B: the voxels after it and [allDone].
    [ts] is [rebuildTargets] from the current index on; a voxel without an
    entry makes [t.isRubble] throw a [TypeError], which is [None]. *)
Fixpoint rebuildAll (elapsed : num) (vs : list SimulationVoxel)
    (ts : list RebuildTarget) : option (list SimulationVoxel * bool) :=
  match vs with
  | [] => Some ([], true)
  | v :: vs' =>
      match ts with
      | [] => None
      | t :: ts' =>
          match rebuildAll elapsed vs' ts' with
          | None => None
          | Some (out, allDone) =>
              let '(v', done) := rebuildStep elapsed t v in
              Some (v' :: out, done && allDone)
          end
      end
  end.

(** [updatePhysics()], [now] being the value of [Date.now()]. *)
Definition updatePhysics (e : VoxelEngine) (now : num) : option VoxelEngine :=
  match state e with
  | DISMANTLING =>
      Some {| voxels := map physicsStep (voxels e);
              rebuildTargets := rebuildTargets e;
              rebuildStartTime := rebuildStartTime e;
              state := DISMANTLING |}
  | REBUILDING =>
      let elapsed := now - rebuildStartTime e in
      match rebuildAll elapsed (voxels e) (rebuildTargets e) with
      | None => None
      | Some (vs, allDone) =>
          Some {| voxels := vs;
                  rebuildTargets := rebuildTargets e;
                  rebuildStartTime := rebuildStartTime e;
                  state := if allDone then STABLE else REBUILDING |}
      end
  | STABLE => Some e
  end.

(** Successive frames, one [Date.now()] reading per frame. *)
Fixpoint run (e : VoxelEngine) (nows : list num) : option VoxelEngine :=
  match nows with
  | [] => Some e
  | now :: rest =>
      match updatePhysics e now with
      | None => None
      | Some e' => run e' rest
      end
  end.

(** ** [dismantle] *)

(** [random k] is the [k]-th value [Math.random()] returns during the call. *)
Definition dismantle (e : VoxelEngine) (random : nat -> num) : VoxelEngine :=
  match state e with
  | STABLE =>
      {| voxels :=
           mapi (fun v i =>
             {| id := id v; x := x v; y := y v; z := z v; color := color v;
                vx := (random (6 * i)%nat - dec 5 10) * dec 8 10;
                vy := random (6 * i + 1)%nat * dec 5 10;
                vz := (random (6 * i + 2)%nat - dec 5 10) * dec 8 10;
                rx := rx v; ry := ry v; rz := rz v;
                rvx := (random (6 * i + 3)%nat - dec 5 10) * dec 2 10;
                rvy := (random (6 * i + 4)%nat - dec 5 10) * dec 2 10;
                rvz := (random (6 * i + 5)%nat - dec 5 10) * dec 2 10 |})
             (voxels e);
         rebuildTargets := rebuildTargets e;
         rebuildStartTime := rebuildStartTime e;
         state := DISMANTLING |}
  | _ => e
  end.

(** ** [loadInitialModel] and [createVoxels] *)

(** [offsetHSL c h s l] is [c.offsetHSL(h, s, l)] of three.js and [random i]
    the value of [Math.random()] drawn for the [i]-th point. *)
Definition createVoxels
    (offsetHSL : Color -> num -> num -> num -> Color) (random : nat -> num)
    (data : list VoxelData) : list SimulationVoxel :=
  mapi (fun v i =>
    let c := offsetHSL (THREE_Color (vd_color v)) (nofZ 0) (nofZ 0)
               (random i * dec 1 10 - dec 5 100) in
    {| id := i; x := vd_x v; y := vd_y v; z := vd_z v; color := c;
       vx := nofZ 0; vy := nofZ 0; vz := nofZ 0;
       rx := nofZ 0; ry := nofZ 0; rz := nofZ 0;
       rvx := nofZ 0; rvy := nofZ 0; rvz := nofZ 0 |}) data.

Definition loadInitialModel
    (offsetHSL : Color -> num -> num -> num -> Color) (random : nat -> num)
    (e : VoxelEngine) (data : list VoxelData) : VoxelEngine :=
  {| voxels := createVoxels offsetHSL random data;
     rebuildTargets := rebuildTargets e;
     rebuildStartTime := rebuildStartTime e;
     state := STABLE |}.

End Engine.

(** ** JSON values *)

Section Json.

Context {num : Type} {N : JSNumber num}.
Local Open Scope string_scope.
Local Open Scope js_scope.

(** A JavaScript value as [JSON.parse] builds it, and [undefined] for a
    property that is absent.  A string is a sequence of code units below
    256. *)
Inductive value :=
  | Undefined
  | Null
  | Bool (b : bool)
  | Num (x : num)
  | Str (s : string)
  | Arr (l : list value)
  | Obj (fields : list (string * value)).

(** The result of a conversion to a number: NaN, or a number. *)
Inductive jsnumber := NaN | Number (x : num).

(** [o[k]] for an object literal of JSON: the last entry for the key. *)
Definition lookupField (k : string) (fields : list (string * value)) : value :=
  fold_left (fun acc kv => if String.eqb (fst kv) k then snd kv else acc)
    fields Undefined.

(** [v.k] for one of the keys the import reads ([c], [color], [x], [y],
    [z]); [None] is the [TypeError] of reading a property of [null] or
    [undefined]. *)
Definition getProp (v : value) (k : string) : option value :=
  match v with
  | Undefined | Null => None
  | Obj fields => Some (lookupField k fields)
  | Bool _ | Num _ | Str _ | Arr _ => Some Undefined
  end.

(** ToBoolean *)
Definition truthy (v : value) : bool :=
  match v with
  | Undefined | Null => false
  | Bool b => b
  | Num x => negb (x =? nofZ 0) && (x =? x)
  | Str s => negb (String.eqb s "")
  | Arr _ | Obj _ => true
  end.

(** ** Export: [getJsonData] *)

Definition hexDigit (d : Z) : ascii :=
  match d with
  | 0 => "0" | 1 => "1" | 2 => "2" | 3 => "3" | 4 => "4" | 5 => "5"
  | 6 => "6" | 7 => "7" | 8 => "8" | 9 => "9" | 10 => "a" | 11 => "b"
  | 12 => "c" | 13 => "d" | 14 => "e" | _ => "f"
  end%Z%char.

Fixpoint toString16_fuel (fuel : nat) (n : Z) : string :=
  match fuel with
  | O => ""
  | S f =>
      if (n <? 16)%Z then String (hexDigit n) ""
      else toString16_fuel f (n / 16) ++ String (hexDigit (n mod 16)) ""
  end.

(** [n.toString(16)] for an integer [n]. *)
Definition toString16 (n : Z) : string :=
  if (n <? 0)%Z then "-" ++ toString16_fuel (S (Z.to_nat (Z.log2 (- n)))) (- n)
  else toString16_fuel (S (Z.to_nat (Z.log2 n))) n.

(** [Math.round(x)], as an integer: [floor(x + 1/2)] of the exact sum. *)
Definition round (x : num) : Z := nroundScaled 1 x.

(** [clamp(v, lo, hi)] of three.js: [Math.max(lo, Math.min(hi, v))]. *)
Definition clamp (v lo hi : num) : num := nmax lo (nmin hi v).

(** [Color.getHex()]: the channels are converted from the linear working
    space to sRGB, scaled, clamped and rounded. *)
Definition channelByte (v : num) : Z :=
  round (clamp (LinearToSRGB v * nofZ 255) (nofZ 0) (nofZ 255)).

Definition getHex (c : Color) : Z :=
  (channelByte (r c) * 65536 + channelByte (g c) * 256 + channelByte (b c))%Z.

(** [s.slice(-6)] *)
Definition slice_last6 (s : string) : string :=
  substring (String.length s - 6) 6 s.

(** [Color.getHexString()] *)
Definition getHexString (c : Color) : string :=
  slice_last6 ("000000" ++ toString16 (getHex c)).

(** [+x.toFixed(2)]: the sign is set aside, a magnitude of 1e21 or more is
    printed in full, and below it the integer [n] nearest to [100 x] is
    taken, the larger one on a tie, and the numeral [n / 100] is read back
    as a number.  A value that is not finite is left as it is. *)
Definition toFixed2 (v : num) : num :=
  let neg := v <? nofZ 0 in
  let a := if neg then nofZ 0 - v else v in
  let m :=
    if a <? nofZ (10 ^ 21) then nquot (nroundScaled 100 a) 100
    else a in
  if neg then nofZ (-1) * m else m.

(** A number after [JSON.stringify] and [JSON.parse]: a value that is not
    finite is written as [null], and minus zero as [0]. *)
Definition jsonNumber (v : num) : value :=
  if (v - v) =? nofZ 0 then Num (if v =? nofZ 0 then nofZ 0 else v)
  else Null.

(** The array [data] of [getJsonData] as [JSON.parse] reads it back from
    the text that [JSON.stringify] writes.  The text itself is not
    modelled. *)
Definition getJsonData (e : VoxelEngine) : value :=
  Arr (mapi (fun v i =>
    Obj [("id", jsonNumber (nofZ (Z.of_nat i)));
         ("x", jsonNumber (toFixed2 (x v)));
         ("y", jsonNumber (toFixed2 (y v)));
         ("z", jsonNumber (toFixed2 (z v)));
         ("c", Str ("#" ++ getHexString (color v)))]) (voxels e)).

(** ** Import: [handleJsonImport] *)

(** White space and line terminators among the code units below 256: tab,
    line feed, vertical tab, form feed, carriage return, space and the
    no-break space. *)
Definition isWhiteSpace (c : ascii) : bool :=
  let n := nat_of_ascii c in
  (Nat.eqb n 32 || (Nat.leb 9 n && Nat.leb n 13) || Nat.eqb n 160)%bool.

Fixpoint trimStart (s : string) : string :=
  match s with
  | String c rest => if isWhiteSpace c then trimStart rest else s
  | EmptyString => s
  end.

Definition hexVal (c : ascii) : option Z :=
  let n := Z.of_nat (nat_of_ascii c) in
  if ((48 <=? n) && (n <=? 57))%Z%bool then Some (n - 48)%Z
  else if ((97 <=? n) && (n <=? 102))%Z%bool then Some (n - 87)%Z
  else if ((65 <=? n) && (n <=? 70))%Z%bool then Some (n - 55)%Z
  else None.

(** The value of the longest prefix of hexadecimal digits. *)
Fixpoint parseDigits16 (s : string) (acc : Z) : Z :=
  match s with
  | String c rest =>
      match hexVal c with
      | Some d => parseDigits16 rest (acc * 16 + d)
      | None => acc
      end
  | EmptyString => acc
  end.

(** [parseInt(s, 16)]: leading white space, a sign and a [0x] prefix are
    skipped, then digits are read until the first character that is not
    one; no digit at all gives NaN. *)
Definition parseInt16 (s : string) : jsnumber :=
  let s1 := trimStart s in
  let '(sign, s2) :=
    match s1 with
    | String c rest =>
        if Ascii.eqb c "-" then ((-1)%Z, rest)
        else if Ascii.eqb c "+" then (1%Z, rest)
        else (1%Z, s1)
    | EmptyString => (1%Z, s1)
    end in
  let s3 :=
    match s2 with
    | String c0 (String c1 rest) =>
        if (Ascii.eqb c0 "0" && (Ascii.eqb c1 "x" || Ascii.eqb c1 "X"))%bool
        then rest else s2
    | _ => s2
    end in
  match s3 with
  | String c _ =>
      match hexVal c with
      | Some _ => Number (nofZ (sign * parseDigits16 s3 0))
      | None => NaN
      end
  | EmptyString => NaN
  end.

(** Two conversions of the language that the import relies on and that are
    not written in the repository: [Number(s)] for a string, and
    [String(x)] for a number. *)
Variable StringToNumber : string -> jsnumber.
Variable NumberToString : num -> string.

(** [String(v)]; an array joins its elements with commas, [null] and
    [undefined] elements printing as nothing. *)
Fixpoint ToString (v : value) : string :=
  match v with
  | Undefined => "undefined"
  | Null => "null"
  | Bool true => "true"
  | Bool false => "false"
  | Num x => NumberToString x
  | Str s => s
  | Arr l =>
      (fix join (l : list value) : string :=
         match l with
         | [] => ""
         | e :: rest =>
             let se := match e with
                       | Undefined | Null => ""
                       | _ => ToString e
                       end in
             match rest with
             | [] => se
             | _ => se ++ "," ++ join rest
             end
         end) l
  | Obj _ => "[object Object]"
  end.

(** A number as a conversion result: NaN is the one number that differs
    from itself. *)
Definition ofNum (x : num) : jsnumber := if x =? x then Number x else NaN.

(** [Number(v)] *)
Definition ToNumber (v : value) : jsnumber :=
  match v with
  | Undefined => NaN
  | Null => Number (nofZ 0)
  | Bool true => Number (nofZ 1)
  | Bool false => Number (nofZ 0)
  | Num x => ofNum x
  | Str s => StringToNumber s
  | Arr _ | Obj _ => StringToNumber (ToString v)
  end.

(** [Number(v) || 0]: NaN and both zeros give 0. *)
Definition numberOrZero (v : value) : num :=
  match ToNumber v with
  | NaN => nofZ 0
  | Number x => if (x =? nofZ 0) || negb (x =? x) then nofZ 0 else x
  end.

(** The colour of one point: [colorVal], [colorInt] and the final
    [isNaN(colorInt) ? 0xCCCCCC : colorInt]. *)
Definition importColor (c color : value) : num :=
  let colorVal := if truthy c then c else color in
  let colorInt :=
    match colorVal with
    | Str s =>
        let s' := match s with
                  | String c rest => if Ascii.eqb c "#" then rest else s
                  | EmptyString => s
                  end in
        parseInt16 s'
    | Num x => ofNum x
    | _ => Number (nofZ 0xCCCCCC)
    end in
  match colorInt with
  | NaN => nofZ 0xCCCCCC
  | Number x => x
  end.

(** The arrow function given to [rawData.map]; [None] when reading a field
    of the element throws. *)
Definition importPoint (v : value) : option VoxelData :=
  match getProp v "c", getProp v "color",
        getProp v "x", getProp v "y", getProp v "z" with
  | Some c, Some color, Some vx, Some vy, Some vz =>
      Some {| vd_x := numberOrZero vx;
              vd_y := numberOrZero vy;
              vd_z := numberOrZero vz;
              vd_color := importColor c color |}
  | _, _, _, _, _ => None
  end.

Fixpoint importPoints (l : list value) : option (list VoxelData) :=
  match l with
  | [] => Some []
  | v :: rest =>
      match importPoint v, importPoints rest with
      | Some d, Some ds => Some (d :: ds)
      | _, _ => None
      end
  end.

(** The [voxelData] that [handleJsonImport] builds from the parsed text;
    [None] when the [try] block throws and the batch is refused. *)
Definition importVoxelData (rawData : value) : option (list VoxelData) :=
  match rawData with
  | Arr l => importPoints l
  | _ => None
  end.

(** [handleJsonImport] on the parsed text, for an engine that exists. *)
Definition handleJsonImport
    (offsetHSL : Color -> num -> num -> num -> Color) (random : nat -> num)
    (e : VoxelEngine) (rawData : value) : VoxelEngine :=
  match importVoxelData rawData with
  | Some voxelData => loadInitialModel offsetHSL random e voxelData
  | None => e
  end.

End Json.

(** ** [getUniqueColors] *)

Section UniqueColors.

Context {num : Type} {N : JSNumber num}.
Local Open Scope string_scope.

(** [colors.add(s)] on a [Set<string>], kept in insertion order: a string
    already present is not added again. *)
Definition set_add (s : string) (colors : list string) : list string :=
  if existsb (String.eqb s) colors then colors else colors ++ [s].

(** [getUniqueColors()]: the set filled voxel by voxel, then
    [Array.from(colors)]. *)
Definition getUniqueColors (e : VoxelEngine) : list string :=
  fold_left (fun colors v => set_add ("#" ++ getHexString (color v)) colors)
    (voxels e) [].

End UniqueColors.

(** ** Procedural generators ([utils/voxelGenerators.ts]) *)

Section Generators.

Context {num : Type} {N : JSNumber num}.
Local Open Scope js_scope.

(** [a <= b] *)
Definition nleb (a b : num) : bool := (a <? b) || (a =? b).

(** [Math.ceil(v)], as an integer. *)
Definition ceil (v : num) : Z := Z.opp (nfloor (nofZ 0 - v)).

(** The key of a block: the template string of [setBlock] joins three
    rounded coordinates with commas, so a key is the triple of integers. *)
Definition BlockKey : Type := (Z * Z * Z)%type.

Definition key_eqb (k k' : BlockKey) : bool :=
  let '(a, b0, c) := k in
  let '(a', b', c') := k' in
  ((a =? a')%Z && (b0 =? b')%Z && (c =? c')%Z)%bool.

(** [Map<string, VoxelData>], in insertion order. *)
Definition BlockMap : Type := list (BlockKey * VoxelData (num := num)).

(** [map.set(key, value)]: a key already present keeps its place and takes
    the new value, a new key goes to the end. *)
Fixpoint map_set (k : BlockKey) (v : VoxelData) (m : BlockMap) : BlockMap :=
  match m with
  | [] => [(k, v)]
  | (k', v') :: rest =>
      if key_eqb k k' then (k, v) :: rest else (k', v') :: map_set k v rest
  end.

(** [map.get(key)] *)
Fixpoint map_get (k : BlockKey) (m : BlockMap) : option VoxelData :=
  match m with
  | [] => None
  | (k', v') :: rest => if key_eqb k k' then Some v' else map_get k rest
  end.

(** [setBlock(map, x, y, z, color)] *)
Definition setBlock (m : BlockMap) (x y z color : num) : BlockMap :=
  let rx := round x in
  let ry := round y in
  let rz := round z in
  map_set (rx, ry, rz)
    {| vd_x := nofZ rx; vd_y := nofZ ry; vd_z := nofZ rz; vd_color := color |} m.

(** The values [lo, lo + 1, ..., hi] a counting [for] loop visits. *)
Definition zrange (lo hi : Z) : list Z :=
  map (fun i => (lo + Z.of_nat i)%Z) (seq 0 (Z.to_nat (hi - lo + 1))).

(** [generateSphere(map, cx, cy, cz, r, col, sy)] *)
Definition generateSphere (m : BlockMap) (cx cy cz r col sy : num) : BlockMap :=
  let r2 := r * r in
  let xMin := nfloor (cx - r) in
  let xMax := ceil (cx + r) in
  let yMin := nfloor (cy - r * sy) in
  let yMax := ceil (cy + r * sy) in
  let zMin := nfloor (cz - r) in
  let zMax := ceil (cz + r) in
  fold_left (fun m x =>
    fold_left (fun m y =>
      fold_left (fun m z =>
        let dx := nofZ x - cx in
        let dy := (nofZ y - cy) / sy in
        let dz := nofZ z - cz in
        if nleb (dx * dx + dy * dy + dz * dz) r2
        then setBlock m (nofZ x) (nofZ y) (nofZ z) col
        else m)
        (zrange zMin zMax) m)
      (zrange yMin yMax) m)
    (zrange xMin xMax) m.

(** [Array.from(map.values())] *)
Definition map_values (m : BlockMap) : list VoxelData := map snd m.

End Generators.

(** ** Reference scan and concrete scenes *)

Section Reference.

Context {num : Type} {N : JSNumber num}.
Local Open Scope js_scope.
Variable K : Constants (num := num).

(** What the matcher compares: colour distance plus penalty. *)
Definition score (a : Available) (target : VoxelData) : num :=
  getColorDist (a_color a) (vd_color target) + penalty K a target.

(** The scan as the specification words it: every untaken entry is
    examined and the first minimum of [d + penalty] is kept, with no early
    exit. *)
Fixpoint fullScan (avail : list Available) (i : nat) (target : VoxelData)
    (bestDist : num) (bestIdx : option nat) : num * option nat :=
  match avail with
  | [] => (bestDist, bestIdx)
  | a :: rest =>
      if taken a then fullScan rest (S i) target bestDist bestIdx
      else if score a target <? bestDist
           then fullScan rest (S i) target (score a target) (Some i)
           else fullScan rest (S i) target bestDist bestIdx
  end.

(** The choices of [bestIdx], target by target, along [targetModel.forEach]. *)
Fixpoint matchTrace (st : list Available * list (option RebuildTarget))
    (targetModel : list VoxelData) : list (option nat) :=
  match targetModel with
  | [] => []
  | target :: rest =>
      bestIdx_of K (fst st) target :: matchTrace (assignTarget K st target) rest
  end.

(** A voxel at rest at the origin with the given colour. *)
Definition voxelAt (i : nat) (px py pz : num) (c : Color) : SimulationVoxel :=
  {| id := i; x := px; y := py; z := pz; color := c;
     vx := nofZ 0; vy := nofZ 0; vz := nofZ 0;
     rx := nofZ 0; ry := nofZ 0; rz := nofZ 0;
     rvx := nofZ 0; rvy := nofZ 0; rvz := nofZ 0 |}.

Definition pointAt (px py pz : Z) (hex : Z) : VoxelData :=
  {| vd_x := nofZ px; vd_y := nofZ py; vd_z := nofZ pz; vd_color := nofZ hex |}.

(** Values for the constants of [voxelConstants.ts], to run the engine: a
    floor at -12, a forest green and a dark wood brown.  The theorems that
    are stated for every [Constants] do not depend on them. *)
Definition samplePalette : Constants (num := num) :=
  {| FLOOR_Y := nofZ (-12); GREEN := nofZ 0x228B22; WOOD := nofZ 0x3B2F2F |}.

(** A dismantling scene: one voxel well above the floor, one about to
    cross it. *)
Definition fallingScene : VoxelEngine (num := num) :=
  {| voxels :=
       [ {| id := 0; x := nofZ 0; y := nofZ 3; z := nofZ 0;
            color := THREE_Color (nofZ 0xFF0000);
            vx := dec 2 10; vy := dec 1 10; vz := dec (-3) 10;
            rx := nofZ 0; ry := nofZ 0; rz := nofZ 0;
            rvx := dec 1 10; rvy := dec 5 100; rvz := dec (-1) 10 |};
         {| id := 1; x := nofZ 1; y := dec (-114) 10; z := nofZ 2;
            color := THREE_Color (nofZ 0x00FF00);
            vx := dec 2 10; vy := dec (-4) 10; vz := dec 1 10;
            rx := nofZ 0; ry := nofZ 0; rz := nofZ 0;
            rvx := dec 1 10; rvy := dec 1 10; rvz := dec 1 10 |} ];
     rebuildTargets := [];
     rebuildStartTime := nofZ 0;
     state := DISMANTLING |}.

(** The interpolation scenario: a voxel at the origin whose target is
    (10, 0, 0) with no delay, the rebuild having started at time 0. *)
Definition flyingScene : VoxelEngine (num := num) :=
  {| voxels := [ voxelAt 0 (nofZ 0) (nofZ 0) (nofZ 0) (THREE_Color (nofZ 0xFF0000)) ];
     rebuildTargets :=
       [ {| rt_x := nofZ 10; rt_y := nofZ 0; rt_z := nofZ 0;
            delay := nofZ 0; isRubble := false |} ];
     rebuildStartTime := nofZ 0;
     state := REBUILDING |}.

(** A rebuild under way with staggered delays: the first voxel flies to
    (10, 0, 0) at once, the second to (0, 5, 0) after 900 milliseconds, and
    the third is rubble. *)
Definition staggeredScene : VoxelEngine (num := num) :=
  {| voxels :=
       [ voxelAt 0 (nofZ 0) (nofZ 0) (nofZ 0) (THREE_Color (nofZ 0xFF0000));
         voxelAt 1 (nofZ 1) (nofZ 0) (nofZ 0) (THREE_Color (nofZ 0x00FF00));
         voxelAt 2 (nofZ 2) (nofZ 0) (nofZ 0) (THREE_Color (nofZ 0x0000FF)) ];
     rebuildTargets :=
       [ {| rt_x := nofZ 10; rt_y := nofZ 0; rt_z := nofZ 0;
            delay := nofZ 0; isRubble := false |};
         {| rt_x := nofZ 0; rt_y := nofZ 5; rt_z := nofZ 0;
            delay := nofZ 900; isRubble := false |};
         {| rt_x := nofZ 2; rt_y := nofZ 0; rt_z := nofZ 0;
            delay := nofZ 0; isRubble := true |} ];
     rebuildStartTime := nofZ 0;
     state := REBUILDING |}.

(** Three voxels at rest, in the Stable state. *)
Definition threeVoxels : VoxelEngine (num := num) :=
  {| voxels :=
       [ voxelAt 0 (nofZ 0) (nofZ 0) (nofZ 0) (THREE_Color (nofZ 0xFF0000));
         voxelAt 1 (nofZ 1) (nofZ 0) (nofZ 0) (THREE_Color (nofZ 0x00FF00));
         voxelAt 2 (nofZ 2) (nofZ 0) (nofZ 0) (THREE_Color (nofZ 0x0000FF)) ];
     rebuildTargets := [];
     rebuildStartTime := nofZ 0;
     state := STABLE |}.

End Reference.

Definition palette : Constants (num := float) := samplePalette.

Definition red : Z := 0xFF0000.
Definition green : Z := 0x00FF00.

(** The scene of the exact-colour scenario: a red and a green voxel, then a
    green and a red target. *)
Definition scene_red_green : VoxelEngine (num := float) :=
  {| voxels := [voxelAt 0 (nofZ 0) (nofZ 0) (nofZ 0) (THREE_Color (nofZ red));
                voxelAt 1 (nofZ 5) (nofZ 0) (nofZ 0) (THREE_Color (nofZ green))];
     rebuildTargets := [];
     rebuildStartTime := nofZ 0;
     state := STABLE |}.

Definition target_green : VoxelData (num := float) := pointAt 1 0 0 green.
Definition target_red : VoxelData (num := float) := pointAt 2 3 0 red.

(** A pure green pool entry, as [rebuild] builds it for voxel 1 of the scene. *)
Definition green_candidate : Available (num := float) :=
  {| index := 1; a_color := THREE_Color (nofZ green); taken := false |}.

(** Two untaken red entries: the first a shade darker than pure red (the
    lightness jitter of [createVoxels] produces such shades), the second
    pure red. *)
Definition two_reds : list (Available (num := float)) :=
  [ {| index := 0;
       a_color := {| r := dec 98 100; g := nofZ 0; b := nofZ 0 |};
       taken := false |};
    {| index := 1; a_color := THREE_Color (nofZ red); taken := false |} ].


Definition scene_falling : VoxelEngine (num := float) := fallingScene.



(** Three voxels just after a rebuild towards one high target, started at
    time 0: one voxel is assigned and waits for its delay, two are rubble. *)
Definition waiting_scene : VoxelEngine (num := float) :=
  rebuild palette threeVoxels [pointAt 0 5 0 green] (nofZ 0).

Definition target_blue : VoxelData (num := float) := pointAt 0 0 0 0x0000FF.

(** The interpolation scenario with a far target: a voxel at the origin
    whose target is (10^15, 0, 0), without delay. *)
Definition far_scene : VoxelEngine (num := float) :=
  {| voxels := [ voxelAt 0 (nofZ 0) (nofZ 0) (nofZ 0) (THREE_Color (nofZ red)) ];
     rebuildTargets :=
       [ {| rt_x := nofZ (10 ^ 15); rt_y := nofZ 0; rt_z := nofZ 0;
            delay := nofZ 0; isRubble := false |} ];
     rebuildStartTime := nofZ 0;
     state := REBUILDING |}.

(** The same scene with the voxel at 999999999999999.5, half a unit short
    of the target. *)
Definition stuck_scene : VoxelEngine (num := float) :=
  {| voxels := [ voxelAt 0 (dec 1999999999999999 2) (nofZ 0) (nofZ 0)
                   (THREE_Color (nofZ red)) ];
     rebuildTargets := rebuildTargets far_scene;
     rebuildStartTime := nofZ 0;
     state := REBUILDING |}.

(** Frame times, sixteen milliseconds apart: frames [a] to [a + n - 1]. *)
Definition frameTimes (a n : nat) : list float :=
  map (fun k => nofZ (16 * Z.of_nat k)) (seq a n).

(** A block map with two blocks, at the cells (0, 0, 0) and (2, -1, 2). *)
Definition two_blocks : BlockMap (num := float) :=
  setBlock (setBlock [] (nofZ 0) (nofZ 0) (nofZ 0) (nofZ 0x3B2F2F))
    (dec 15 10) (dec (-15) 10) (dec 24 10) (nofZ 0x228B22).

(** Two blocks at neighbouring cells, in exact arithmetic. *)
Definition neighbours : BlockMap (num := R) :=
  setBlock (setBlock [] 0%R 0%R 0%R 7%R) 1%R 0%R 0%R 8%R.

(** * Properties *)

Unset Implicit Arguments.

(** ** Lists, [update] and [mapi] *)

Lemma update_length {A} (l : list A) (i : nat) (v : A) :
  length (update l i v) = length l.
Proof.
  revert i; induction l as [|h t IH]; intros [|j]; simpl; auto.
Qed.

Lemma nth_error_update_eq {A} (l : list A) (i : nat) (v : A) :
  (i < length l)%nat -> nth_error (update l i v) i = Some v.
Proof.
  revert i; induction l as [|h t IH]; intros [|j] Hi; simpl in *; try lia; auto.
  apply IH; lia.
Qed.

Lemma nth_error_update_neq {A} (l : list A) (i j : nat) (v : A) :
  i <> j -> nth_error (update l i v) j = nth_error l j.
Proof.
  revert i j; induction l as [|h t IH]; intros [|i] [|j] Hij; simpl;
    try congruence; auto.
Qed.

Lemma mapi_from_length {A B} (f : A -> nat -> B) (i : nat) (l : list A) :
  length (mapi_from f i l) = length l.
Proof.
  revert i; induction l as [|a t IH]; intros i; simpl; auto.
Qed.

Lemma nth_error_mapi_from {A B} (f : A -> nat -> B) (i k : nat) (l : list A) :
  nth_error (mapi_from f i l) k =
  match nth_error l k with
  | Some a => Some (f a (i + k)%nat)
  | None => None
  end.
Proof.
  revert i k; induction l as [|a t IH]; intros i [|k]; simpl; auto.
  - rewrite Nat.add_0_r; reflexivity.
  - rewrite IH. replace (S i + k)%nat with (i + S k)%nat by lia. reflexivity.
Qed.

Lemma mapi_length {A B} (f : A -> nat -> B) (l : list A) :
  length (mapi f l) = length l.
Proof. apply mapi_from_length. Qed.

Lemma nth_error_mapi {A B} (f : A -> nat -> B) (k : nat) (l : list A) :
  nth_error (mapi f l) k =
  match nth_error l k with
  | Some a => Some (f a k)
  | None => None
  end.
Proof. unfold mapi. rewrite nth_error_mapi_from. reflexivity. Qed.

(** ** Facts that hold in every number model *)

Section GenericFacts.

Context {num : Type} {N : JSNumber num}.
Local Open Scope js_scope.
Variable K : Constants (num := num).

Lemma fillRubble_length (vs : list SimulationVoxel) ms :
  length (fillRubble vs ms) = length vs.
Proof.
  revert ms; induction vs as [|v vs IH]; intros ms; simpl; auto.
  destruct ms as [|[t|] ms]; simpl; rewrite IH; reflexivity.
Qed.

Lemma nth_error_fillRubble (vs : list SimulationVoxel) ms i v :
  length ms = length vs ->
  nth_error vs i = Some v ->
  nth_error (fillRubble vs ms) i =
  Some match nth_error ms i with
       | Some (Some t) => t
       | _ => rubbleOf v
       end.
Proof.
  revert ms i; induction vs as [|w vs IH]; intros ms i Hl Hv.
  - destruct i; discriminate.
  - destruct ms as [|m ms]; [discriminate|]. simpl in Hl.
    destruct i as [|i]; simpl in *.
    + inversion Hv; subst. destruct m; reflexivity.
    + destruct m; simpl; apply IH; auto; lia.
Qed.

(** The dismantling frame maps [physicsStep] over the voxels. *)
Lemma updatePhysics_dismantling (e : VoxelEngine) (now : num) :
  state e = DISMANTLING ->
  updatePhysics K e now =
  Some {| voxels := map (physicsStep K) (voxels e);
          rebuildTargets := rebuildTargets e;
          rebuildStartTime := rebuildStartTime e;
          state := DISMANTLING |}.
Proof. intros H. unfold updatePhysics. rewrite H. reflexivity. Qed.

(** A frame of scene B over rubble only moves nothing and reports that
    all is done. *)
Lemma rebuildAll_rubble (elapsed : num) (vs : list SimulationVoxel) ts :
  length ts = length vs ->
  forallb isRubble ts = true ->
  rebuildAll elapsed vs ts = Some (vs, true).
Proof.
  revert ts; induction vs as [|v vs IH]; intros ts Hl Hr.
  - reflexivity.
  - destruct ts as [|t ts]; [discriminate|].
    simpl in *. apply andb_true_iff in Hr. destruct Hr as [Ht Hr].
    rewrite (IH ts) by (auto; lia).
    unfold rebuildStep. rewrite Ht. reflexivity.
Qed.

Lemma fillRubble_all_None (vs : list SimulationVoxel) n :
  forallb isRubble (fillRubble vs (repeat None n)) = true.
Proof.
  revert n; induction vs as [|v vs IH]; intros n; simpl; auto.
  destruct n as [|n]; simpl.
  - apply (IH 0%nat).
  - apply IH.
Qed.

Lemma rebuild_accepted (e : VoxelEngine) targetModel now :
  state e <> REBUILDING ->
  rebuild K e targetModel now =
  {| voxels := voxels e;
     rebuildTargets :=
       fillRubble (voxels e) (snd (matchTargets K (voxels e) targetModel));
     rebuildStartTime := now;
     state := REBUILDING |}.
Proof.
  intros H. unfold rebuild. destruct (state e); try reflexivity. congruence.
Qed.

End GenericFacts.

(** ** The greedy matcher, in every number model *)

Section MatcherFacts.

Context {num : Type} {N : JSNumber num}.
Local Open Scope js_scope.
Variable K : Constants (num := num).

(** The indices picked along a trace of [bestIdx] values. *)
Definition picksOf (tr : list (option nat)) : list nat :=
  flat_map (fun o => match o with Some i => [i] | None => [] end) tr.

(** What [rebuild] keeps true of [available] and [mappings] between two
    targets: both arrays have one slot per voxel, entry [i] of the pool
    carries index [i], and a slot of [mappings] is filled exactly when the
    pool entry is taken. *)
Definition poolInv (n : nat)
    (st : list (@Available num) * list (option (@RebuildTarget num))) : Prop :=
  length (fst st) = n /\ length (snd st) = n /\
  forall i a, nth_error (fst st) i = Some a ->
    index a = i /\
    (taken a = false -> nth_error (snd st) i = Some None) /\
    (taken a = true -> exists t, nth_error (snd st) i = Some (Some t)).

Lemma scan_picks_untaken target :
  forall avail off bd bi j,
    snd (scan K avail off target bd bi) = Some j ->
    bi = Some j \/
    exists k a, j = (off + k)%nat /\ nth_error avail k = Some a /\
                taken a = false.
Proof.
  induction avail as [|a rest IH]; intros off bd bi j H; simpl in H.
  - left; exact H.
  - destruct (taken a) eqn:Ta.
    + destruct (IH _ _ _ _ H) as [E | (k & a' & Ej & Hk & Hta)]; auto.
      right. exists (S k), a'. repeat split; auto. lia.
    + assert (Hhere : exists k a', (off + 0)%nat = (off + k)%nat /\
                nth_error (a :: rest) k = Some a' /\ taken a' = false)
        by (exists 0%nat, a; auto).
      destruct (nltb _ bd).
      * destruct (nltb _ (dec 1 100)).
        -- simpl in H. inversion H; subst. right.
           exists 0%nat, a. repeat split; auto.
        -- destruct (IH _ _ _ _ H) as [E | (k & a' & Ej & Hk & Hta)].
           ++ inversion E; subst. right. exists 0%nat, a. repeat split; auto.
           ++ right. exists (S k), a'. repeat split; auto. lia.
      * destruct (IH _ _ _ _ H) as [E | (k & a' & Ej & Hk & Hta)]; auto.
        right. exists (S k), a'. repeat split; auto. lia.
Qed.

Lemma bestIdx_of_untaken available target j :
  bestIdx_of K available target = Some j ->
  exists a, nth_error available j = Some a /\ taken a = false.
Proof.
  unfold bestIdx_of. intros H.
  destruct (scan_picks_untaken _ _ _ _ _ _ H) as [E | (k & a & Ej & Hk & Ht)].
  - discriminate.
  - subst. exists a; auto.
Qed.

(** With every entry taken the loop body is skipped throughout. *)
Lemma scan_all_taken target :
  forall avail off bd bi,
    (forall a, In a avail -> taken a = true) ->
    scan K avail off target bd bi = (bd, bi).
Proof.
  induction avail as [|a rest IH]; intros off bd bi H; simpl; auto.
  rewrite (H a) by (left; reflexivity). apply IH.
  intros a' Ha'. apply H. right; exact Ha'.
Qed.

Lemma poolInv_initial (vs : list SimulationVoxel) :
  poolInv (length vs) (initialAvailable vs, repeat None (length vs)).
Proof.
  unfold poolInv, initialAvailable; simpl.
  rewrite mapi_length, repeat_length. repeat split; auto.
  - rewrite nth_error_mapi in H. destruct (nth_error vs i); inversion H; auto.
  - intros _. apply nth_error_repeat.
    assert (Hi : nth_error (mapi (fun v i => {| index := i; a_color := color v; taken := false |}) vs) i <> None)
      by congruence.
    apply nth_error_Some in Hi. rewrite mapi_length in Hi. exact Hi.
  - rewrite nth_error_mapi in H. destruct (nth_error vs i); inversion H; subst.
    simpl. discriminate.
Qed.

Lemma poolInv_assignTarget n st target :
  poolInv n st -> poolInv n (assignTarget K st target).
Proof.
  destruct st as [available mappings]. intros (Ha & Hm & Hi).
  unfold assignTarget. simpl in *.
  destruct (bestIdx_of K available target) as [j|] eqn:Hb;
    [|repeat split; auto; apply Hi; auto].
  destruct (bestIdx_of_untaken _ _ _ Hb) as (a & Hj & Hta).
  rewrite Hj. destruct (Hi _ _ Hj) as (Hidx & _ & _). rewrite Hidx.
  assert (Hjn : (j < n)%nat).
  { rewrite <- Ha. apply nth_error_Some. congruence. }
  unfold poolInv; simpl. rewrite !update_length.
  split; [exact Ha|]. split; [exact Hm|].
  intros i a0 H.
  destruct (Nat.eq_dec j i) as [->|Hne].
  - rewrite nth_error_update_eq in H by lia. injection H as <-.
    rewrite nth_error_update_eq by lia.
    split; [exact Hidx|]. split; [discriminate|eauto].
  - rewrite nth_error_update_neq in H by auto.
    rewrite nth_error_update_neq by auto. apply (Hi _ _ H).
Qed.

Lemma poolInv_fold n targetModel :
  forall st, poolInv n st -> poolInv n (fold_left (assignTarget K) targetModel st).
Proof.
  induction targetModel as [|t ts IH]; intros st H; simpl; auto.
  apply IH. apply poolInv_assignTarget. exact H.
Qed.

(** Entries of the pool are only ever marked, never released. *)
Lemma assignTarget_taken_mono n st target i a :
  poolInv n st ->
  nth_error (fst st) i = Some a -> taken a = true ->
  exists a', nth_error (fst (assignTarget K st target)) i = Some a' /\
             taken a' = true /\
             nth_error (snd (assignTarget K st target)) i = nth_error (snd st) i.
Proof.
  destruct st as [available mappings]. intros (Ha & Hm & Hi) Hn Ht.
  unfold assignTarget. simpl in *.
  destruct (bestIdx_of K available target) as [j|] eqn:Hb; [|eauto].
  destruct (bestIdx_of_untaken _ _ _ Hb) as (b & Hj & Htb).
  rewrite Hj. destruct (Hi _ _ Hj) as (Hidx & _ & _). rewrite Hidx. simpl.
  assert (Hne : j <> i) by (intros ->; congruence).
  rewrite !nth_error_update_neq by auto. eauto.
Qed.

(** The main statement about the [forEach] over the targets, from any
    state of the pool. *)
Lemma matchTargets_trace n targetModel :
  forall st, poolInv n st ->
    let st' := fold_left (assignTarget K) targetModel st in
    let tr := matchTrace K st targetModel in
    length tr = length targetModel /\
    (forall k target i,
        nth_error targetModel k = Some target ->
        nth_error tr k = Some (Some i) ->
        (exists a, nth_error (fst st) i = Some a /\ taken a = false) /\
        nth_error (snd st') i = Some (Some (targetAssignment K target))) /\
    (forall i, ~ In i (picksOf tr) ->
        nth_error (snd st') i = nth_error (snd st) i) /\
    NoDup (picksOf tr).
Proof.
  induction targetModel as [|t ts IH]; intros st Hinv; simpl.
  - split; [reflexivity|]. split; [|split].
    + intros k target i Hk; destruct k; discriminate.
    + reflexivity.
    + constructor.
  - pose proof (poolInv_assignTarget _ _ t Hinv) as Hinv1.
    destruct (IH _ Hinv1) as (Hlen & Hpick & Hrest & Hnd).
    split; [simpl; congruence|].
    assert (Hstep : forall j, bestIdx_of K (fst st) t = Some j ->
              exists a, nth_error (fst st) j = Some a /\ taken a = false /\
                nth_error (fst (assignTarget K st t)) j = Some (markTaken a) /\
                nth_error (snd (assignTarget K st t)) j =
                  Some (Some (targetAssignment K t))).
    { intros j Hb. destruct (bestIdx_of_untaken _ _ _ Hb) as (a & Hj & Hta).
      exists a. split; auto. split; auto.
      destruct st as [available mappings]. destruct Hinv as (Ha & Hm & Hi).
      unfold assignTarget. simpl in *. rewrite Hb, Hj.
      destruct (Hi _ _ Hj) as (Hidx & _ & _). rewrite Hidx. simpl.
      assert (Hjn : (j < n)%nat).
      { rewrite <- Ha. apply nth_error_Some. congruence. }
      rewrite !nth_error_update_eq by lia. auto. }
    assert (Hlater : forall i, In i (picksOf (matchTrace K (assignTarget K st t) ts)) ->
              exists a, nth_error (fst (assignTarget K st t)) i = Some a /\
                        taken a = false).
    { intros i Hin. unfold picksOf in Hin. apply in_flat_map in Hin.
      destruct Hin as (o & Ho & Hio). destruct o as [i'|]; [|contradiction].
      destruct Hio as [->|[]].
      apply In_nth_error in Ho. destruct Ho as (k & Hk).
      assert (Hkl : (k < length ts)%nat).
      { rewrite <- Hlen. apply nth_error_Some. congruence. }
      destruct (nth_error ts k) as [target|] eqn:Et.
      - destruct (Hpick _ _ _ Et Hk) as (Hex & _). exact Hex.
      - apply nth_error_None in Et. lia. }
    split; [|split].
    + intros k target i Hk Htr. destruct k as [|k]; simpl in *.
      * inversion Hk; subst target. inversion Htr as [Hb].
        destruct (Hstep _ Hb) as (a & Hj & Hta & Hav & Hmp).
        split; [eauto|].
        destruct (in_dec Nat.eq_dec i (picksOf (matchTrace K (assignTarget K st t) ts)))
          as [Hin|Hnin].
        -- destruct (Hlater _ Hin) as (a' & Ha' & Hta').
           rewrite Hav in Ha'. inversion Ha'; subst a'. discriminate.
        -- rewrite (Hrest _ Hnin). exact Hmp.
      * destruct (Hpick _ _ _ Hk Htr) as ((a & Ha & Hta) & Hmp).
        split; auto.
        destruct (nth_error (fst st) i) as [a0|] eqn:E0.
        -- destruct (taken a0) eqn:T0; [|eauto].
           destruct (assignTarget_taken_mono _ _ t i _ Hinv E0 T0) as (a' & Ha' & Hta' & _).
           rewrite Ha in Ha'. inversion Ha'; subst. congruence.
        -- apply nth_error_None in E0.
           assert (nth_error (fst (assignTarget K st t)) i <> None) by congruence.
           apply nth_error_Some in H.
           destruct Hinv as (L0 & _), Hinv1 as (L1 & _). lia.
    + intros i Hnin.
      destruct (bestIdx_of K (fst st) t) as [j|] eqn:Hb; simpl in Hnin.
      * assert (Hij : j <> i) by tauto.
        rewrite Hrest by tauto.
        destruct (Hstep _ eq_refl) as (a & Hj & Hta & _).
        destruct st as [available mappings]. destruct Hinv as (Ha & Hm & Hi).
        unfold assignTarget. simpl in *. rewrite Hb, Hj.
        destruct (Hi _ _ Hj) as (Hidx & _ & _). rewrite Hidx. simpl.
        apply nth_error_update_neq; auto.
      * rewrite Hrest by auto.
        destruct st as [available mappings].
        unfold assignTarget. simpl in *. rewrite Hb. reflexivity.
    + destruct (bestIdx_of K (fst st) t) as [j|] eqn:Hb; simpl; auto.
      constructor; auto. intros Hin.
      destruct (Hlater _ Hin) as (a' & Ha' & Hta').
      destruct (Hstep _ eq_refl) as (a & Hj & Hta & Hav & _).
      rewrite Hav in Ha'. inversion Ha'; subst a'. discriminate.
Qed.

End MatcherFacts.

Section RebuildFacts.

Context {num : Type} {N : JSNumber num}.
Local Open Scope js_scope.
Variable K : Constants (num := num).

Lemma picksOf_app (l1 l2 : list (option nat)) :
  picksOf (l1 ++ l2) = picksOf l1 ++ picksOf l2.
Proof. unfold picksOf. apply flat_map_app. Qed.

Lemma picksOf_bounded n targetModel st i :
  poolInv n st ->
  In i (picksOf (matchTrace K st targetModel)) -> (i < n)%nat.
Proof.
  intros Hinv Hin.
  destruct (matchTargets_trace K _ targetModel _ Hinv) as (Hlen & Hpick & _ & _).
  unfold picksOf in Hin. apply in_flat_map in Hin.
  destruct Hin as (o & Ho & Hio). destruct o as [i'|]; [|contradiction].
  destruct Hio as [->|[]].
  apply In_nth_error in Ho. destruct Ho as (k & Hk).
  destruct (nth_error targetModel k) as [target|] eqn:Et.
  - destruct (Hpick _ _ _ Et Hk) as ((a & Ha & _) & _).
    destruct Hinv as (L & _). rewrite <- L. apply nth_error_Some. congruence.
  - apply nth_error_None in Et.
    assert (nth_error (matchTrace K st targetModel) k <> None) by congruence.
    apply nth_error_Some in H. lia.
Qed.

(** What [rebuild] installs, read against the trace of [bestIdx] values. *)
Lemma rebuild_assignments (e : VoxelEngine) targetModel now :
  state e <> REBUILDING ->
  let e' := rebuild K e targetModel now in
  let tr := matchTrace K (initialAvailable (voxels e),
                          repeat None (length (voxels e))) targetModel in
  state e' = REBUILDING /\ voxels e' = voxels e /\
  length (rebuildTargets e') = length (voxels e) /\
  (forall k target i,
      nth_error targetModel k = Some target ->
      nth_error tr k = Some (Some i) ->
      nth_error (rebuildTargets e') i = Some (targetAssignment K target)) /\
  (forall i v,
      nth_error (voxels e) i = Some v -> ~ In i (picksOf tr) ->
      nth_error (rebuildTargets e') i = Some (rubbleOf v)) /\
  NoDup (picksOf tr) /\
  (forall k, (length (voxels e) <= length (picksOf (firstn k tr)))%nat ->
             (k < length targetModel)%nat -> nth_error tr k = Some None).
Proof.
  intros Hst e' tr. subst e'. rewrite (rebuild_accepted K e targetModel now Hst).
  cbn [state voxels rebuildTargets].
  pose proof (poolInv_initial (voxels e)) as Hinv.
  pose proof (poolInv_fold K _ targetModel _ Hinv) as Hinv'.
  destruct (matchTargets_trace K _ targetModel _ Hinv) as (Hlen & Hpick & Hrest & Hnd).
  fold tr in Hlen, Hpick, Hrest, Hnd.
  destruct Hinv' as (_ & Hm' & _).
  split; [reflexivity|]. split; [reflexivity|].
  split; [apply fillRubble_length|].
  split; [|split; [|split]].
  - intros k target i Hk Htr.
    destruct (Hpick _ _ _ Hk Htr) as ((a & Ha & _) & Hmp).
    assert (Hi : (i < length (voxels e))%nat).
    { destruct Hinv as (L & _). rewrite <- L. apply nth_error_Some. congruence. }
    destruct (nth_error (voxels e) i) as [v|] eqn:Ev.
    + rewrite (nth_error_fillRubble _ _ _ _ Hm' Ev).
      unfold matchTargets. rewrite Hmp. reflexivity.
    + apply nth_error_None in Ev. lia.
  - intros i v Hv Hnin.
    rewrite (nth_error_fillRubble _ _ _ _ Hm' Hv).
    unfold matchTargets. rewrite (Hrest _ Hnin). simpl.
    rewrite nth_error_repeat; [reflexivity|].
    apply nth_error_Some. congruence.
  - exact Hnd.
  - intros k Hfull Hk.
    destruct (nth_error tr k) as [[i|]|] eqn:Ek; auto.
    + exfalso.
      assert (Hsplit : tr = firstn k tr ++ Some i :: skipn (S k) tr).
      { rewrite <- (firstn_skipn k tr) at 1. f_equal.
        clear - Ek. revert k Ek.
        induction tr as [|o tr' IH]; intros [|k] Ek; simpl in *;
          try discriminate.
        - inversion Ek; reflexivity.
        - apply IH; exact Ek. }
      assert (Hincl : incl (picksOf tr) (seq 0 (length (voxels e)))).
      { intros j Hj. apply in_seq. split; [lia|]. simpl.
        apply (picksOf_bounded _ targetModel _ _ Hinv Hj). }
      pose proof (NoDup_incl_length Hnd Hincl) as Hle.
      rewrite length_seq in Hle.
      rewrite Hsplit, picksOf_app in Hle. rewrite length_app in Hle.
      simpl in Hle. lia.
    + apply nth_error_None in Ek. lia.
Qed.

(** C2 (as the code has it).  The +100 penalty is added for a candidate
    exactly when the candidate's colour passes the channel test (green above
    0.4, or red and blue both below 0.25) while the target's colour value is
    neither [COLORS.GREEN] nor [COLORS.WOOD]; otherwise nothing is added.
    The target is classified by comparing its packed colour with those two
    constants, not by the channel test.  The scan compares the colour
    distance plus this penalty for every entry that is not taken. *)
Theorem penalty_exactly_when (a : Available) (target : VoxelData)
    (rest : list Available) (i : nat) (bestDist : num) (bestIdx : option nat) :
  isLeafOrWood (a_color a) =
    ((g (a_color a) >? dec 4 10)
     || ((r (a_color a) <? dec 25 100) && (b (a_color a) <? dec 25 100))) /\
  ((penalty K a target = nofZ 100 /\ isLeafOrWood (a_color a) = true /\
    (vd_color target =? GREEN K) = false /\ (vd_color target =? WOOD K) = false)
   \/
   (penalty K a target = nofZ 0 /\
    (isLeafOrWood (a_color a) = false \/ (vd_color target =? GREEN K) = true \/
     (vd_color target =? WOOD K) = true))) /\
  scan K (a :: rest) i target bestDist bestIdx =
    if taken a then scan K rest (S i) target bestDist bestIdx
    else if score K a target <? bestDist then
           if getColorDist (a_color a) (vd_color target) <? dec 1 100
           then (score K a target, Some i)
           else scan K rest (S i) target (score K a target) (Some i)
         else scan K rest (S i) target bestDist bestIdx.
Proof.
  split; [reflexivity|]. split; [|reflexivity].
  unfold penalty, targetIsGreen.
  destruct (isLeafOrWood (a_color a)); simpl.
  - destruct (vd_color target =? GREEN K); simpl; [right; auto|].
    destruct (vd_color target =? WOOD K); simpl; [right; auto|].
    left; auto.
  - right; auto.
Qed.

(** C4.  While the state is Dismantling a frame succeeds, keeps the state
    and the number of voxels, and changes every voxel thus: [vy] drops by
    0.025; position and rotation advance by velocity and rotational
    velocity; if the new [y] is below [FLOOR_Y + 0.5] it becomes
    [FLOOR_Y + 0.5], [vy] is multiplied by -0.5, [vx] and [vz] by 0.9 and the
    rotational velocities by 0.8; otherwise the velocities are left as
    integration gave them. *)
Theorem dismantling_tick (e : VoxelEngine) (now : num) :
  state e = DISMANTLING ->
  exists e',
    updatePhysics K e now = Some e' /\ state e' = DISMANTLING /\
    length (voxels e') = length (voxels e) /\
    forall i v, nth_error (voxels e) i = Some v ->
      exists v', nth_error (voxels e') i = Some v' /\
        let vy1 := vy v - dec 25 1000 in
        let y1 := y v + vy1 in
        id v' = id v /\ color v' = color v /\
        x v' = x v + vx v /\ z v' = z v + vz v /\
        rx v' = rx v + rvx v /\ ry v' = ry v + rvy v /\ rz v' = rz v + rvz v /\
        if y1 <? FLOOR_Y K + dec 5 10 then
          y v' = FLOOR_Y K + dec 5 10 /\ vy v' = vy1 * dec (-5) 10 /\
          vx v' = vx v * dec 9 10 /\ vz v' = vz v * dec 9 10 /\
          rvx v' = rvx v * dec 8 10 /\ rvy v' = rvy v * dec 8 10 /\
          rvz v' = rvz v * dec 8 10
        else
          y v' = y1 /\ vy v' = vy1 /\ vx v' = vx v /\ vz v' = vz v /\
          rvx v' = rvx v /\ rvy v' = rvy v /\ rvz v' = rvz v.
Proof.
  intros Hst. rewrite (updatePhysics_dismantling K e now Hst).
  eexists. split; [reflexivity|]. cbn [state voxels].
  split; [reflexivity|]. split; [apply length_map|].
  intros i v Hv. exists (physicsStep K v).
  split; [apply map_nth_error; exact Hv|].
  unfold physicsStep. cbv zeta.
  destruct (y v + (vy v - dec 25 1000) <? FLOOR_Y K + dec 5 10);
    cbn; repeat split; reflexivity.
Qed.

(** C10.  When an accepted [rebuild] leaves rubble only, the first frame in
    the Rebuilding state succeeds, moves no voxel and sets the state to
    Stable; an empty target list and an empty voxel array are two such
    cases. *)
Theorem rubble_only_rebuild_settles (e : VoxelEngine)
    (targetModel : list VoxelData) (now0 now1 : num) :
  state e <> REBUILDING ->
  let e1 := rebuild K e targetModel now0 in
  state e1 = REBUILDING /\
  (forallb isRubble (rebuildTargets e1) = true ->
   exists e2, updatePhysics K e1 now1 = Some e2 /\ state e2 = STABLE /\
              voxels e2 = voxels e) /\
  (targetModel = [] -> forallb isRubble (rebuildTargets e1) = true) /\
  (voxels e = [] -> forallb isRubble (rebuildTargets e1) = true).
Proof.
  intros Hst e1. subst e1. rewrite (rebuild_accepted K e targetModel now0 Hst).
  cbn [state rebuildTargets]. split; [reflexivity|]. split; [|split].
  - intros Hr. unfold updatePhysics. cbn [state voxels rebuildTargets rebuildStartTime].
    rewrite rebuildAll_rubble; auto.
    + eexists; split; [reflexivity|]. split; reflexivity.
    + apply fillRubble_length.
  - intros ->. unfold matchTargets. simpl. apply fillRubble_all_None.
  - intros ->. reflexivity.
Qed.

End RebuildFacts.

(** ** The palette enters the matcher through [targetIsGreen] only *)

Section PaletteFacts.

Context {num : Type} {N : JSNumber num}.
Local Open Scope js_scope.
Variables K K' : Constants (num := num).

Lemma scan_ext target :
  targetIsGreen K target = targetIsGreen K' target ->
  forall avail i bd bi,
    scan K avail i target bd bi = scan K' avail i target bd bi.
Proof.
  intros Hg. induction avail as [|a rest IH]; intros i bd bi; simpl; auto.
  unfold penalty. rewrite Hg.
  destruct (taken a); auto.
  destruct (nltb _ bd); auto.
  destruct (nltb _ (dec 1 100)); auto.
Qed.

Lemma assignTarget_ext st target :
  FLOOR_Y K = FLOOR_Y K' ->
  targetIsGreen K target = targetIsGreen K' target ->
  assignTarget K st target = assignTarget K' st target.
Proof.
  intros Hf Hg. destruct st as [available mappings].
  unfold assignTarget, bestIdx_of, targetAssignment.
  rewrite (scan_ext target Hg), Hf. reflexivity.
Qed.

Lemma matchTargets_ext targetModel :
  FLOOR_Y K = FLOOR_Y K' ->
  (forall target, In target targetModel ->
     targetIsGreen K target = targetIsGreen K' target) ->
  forall st, fold_left (assignTarget K) targetModel st =
             fold_left (assignTarget K') targetModel st.
Proof.
  intros Hf. induction targetModel as [|t ts IH]; intros Hg st; simpl; auto.
  rewrite (assignTarget_ext st t Hf) by (apply Hg; left; reflexivity).
  apply IH. intros t' Ht'. apply Hg. right; exact Ht'.
Qed.

Lemma rebuild_ext (e : VoxelEngine) targetModel now :
  FLOOR_Y K = FLOOR_Y K' ->
  (forall target, In target targetModel ->
     targetIsGreen K target = targetIsGreen K' target) ->
  rebuild K e targetModel now = rebuild K' e targetModel now.
Proof.
  intros Hf Hg. unfold rebuild, matchTargets.
  rewrite (matchTargets_ext targetModel Hf Hg). reflexivity.
Qed.

End PaletteFacts.

(** ** The exact-colour scenario, on binary64 *)

(** C1 (as the code has it).  With a red then a green voxel and a green
    then a red target, the green target goes to the green voxel and the red
    target to the red voxel when 0x00FF00 is [COLORS.GREEN] or
    [COLORS.WOOD]; for every other palette the green voxel carries the +100
    penalty against the green target, so the green target takes the red
    voxel and the red target is left with the green one. *)
Theorem exact_colour_scenario (K : Constants (num := float))
    (e : VoxelEngine) (v0 v1 : SimulationVoxel) (tg tr : VoxelData)
    (now : float) :
  state e <> REBUILDING ->
  voxels e = [v0; v1] ->
  color v0 = THREE_Color (nofZ red) -> color v1 = THREE_Color (nofZ green) ->
  vd_color tg = nofZ green -> vd_color tr = nofZ red ->
  rebuildTargets (rebuild K e [tg; tr] now) =
  if targetIsGreen K tg
  then [targetAssignment K tr; targetAssignment K tg]
  else [targetAssignment K tg; targetAssignment K tr].
Proof.
  intros Hst Hv H0 H1 Hg Hr.
  pose (K' := {| FLOOR_Y := FLOOR_Y K;
                 GREEN := if targetIsGreen K tg then nofZ green else nofZ 1;
                 WOOD := if targetIsGreen K tr then nofZ red else nofZ 1 |}
              : Constants (num := float)).
  assert (Eg : targetIsGreen K tg = targetIsGreen K' tg).
  { unfold targetIsGreen at 2. subst K'. cbn [GREEN WOOD]. rewrite Hg.
    destruct (targetIsGreen K tg), (targetIsGreen K tr); vm_compute; reflexivity. }
  assert (Er : targetIsGreen K tr = targetIsGreen K' tr).
  { unfold targetIsGreen at 2. subst K'. cbn [GREEN WOOD]. rewrite Hr.
    destruct (targetIsGreen K tg), (targetIsGreen K tr); vm_compute; reflexivity. }
  rewrite (rebuild_ext K K' e [tg; tr] now eq_refl)
    by (intros t [<-|[<-|[]]]; assumption).
  change (targetAssignment K tr) with (targetAssignment K' tr).
  change (targetAssignment K tg) with (targetAssignment K' tg).
  rewrite (rebuild_accepted K' e [tg; tr] now Hst). cbn [rebuildTargets].
  rewrite Hv. subst K'.
  destruct v0 as [i0 x0 y0 z0 c0 vx0 vy0 vz0 rx0 ry0 rz0 rvx0 rvy0 rvz0].
  destruct v1 as [i1 x1 y1 z1 c1 vx1 vy1 vz1 rx1 ry1 rz1 rvx1 rvy1 rvz1].
  destruct tg as [tgx tgy tgz tgc]. destruct tr as [trx try_ trz trc].
  cbn [color vd_color] in H0, H1, Hg, Hr. subst c0 c1 tgc trc.
  generalize (FLOOR_Y K). intros fl.
  destruct (targetIsGreen K _), (targetIsGreen K _); vm_compute; reflexivity.
Qed.

Lemma exact_colour_scenario_witness :
  rebuildTargets (rebuild palette scene_red_green [target_green; target_red] (nofZ 0)) =
  if targetIsGreen palette target_green
  then [targetAssignment palette target_red; targetAssignment palette target_green]
  else [targetAssignment palette target_green; targetAssignment palette target_red].
Proof.
  apply (exact_colour_scenario palette scene_red_green
           (voxelAt 0 (nofZ 0) (nofZ 0) (nofZ 0) (THREE_Color (nofZ red)))
           (voxelAt 1 (nofZ 5) (nofZ 0) (nofZ 0) (THREE_Color (nofZ green)))
           target_green target_red (nofZ 0));
    [discriminate | reflexivity | reflexivity | reflexivity | reflexivity
    | reflexivity].
Defined.

(** C1, the scenario as the specification states it, on a palette whose
    green and wood are not 0x00FF00: the red voxel (index 0) receives the
    green target and the green voxel (index 1) the red target, and the two
    targets are at different places. *)
Lemma exact_colour_scenario_swapped :
  nth_error (rebuildTargets
     (rebuild palette scene_red_green [target_green; target_red] (nofZ 0))) 0
    = Some (targetAssignment palette target_green) /\
  nth_error (rebuildTargets
     (rebuild palette scene_red_green [target_green; target_red] (nofZ 0))) 1
    = Some (targetAssignment palette target_red) /\
  PrimFloat.eqb (rt_x (targetAssignment palette target_green))
                (rt_x (targetAssignment palette target_red)) = false.
Proof. vm_compute. repeat split; reflexivity. Qed.

(** C2, as the specification states it: a pure green candidate against a
    pure green target.  Both colours pass the channel test, so no penalty
    should apply; the code adds 100, because 0x00FF00 is neither
    [COLORS.GREEN] nor [COLORS.WOOD] of the palette. *)
Lemma penalty_ignores_target_channels :
  isLeafOrWood (a_color green_candidate) = true /\
  isLeafOrWood (THREE_Color (vd_color target_green)) = true /\
  penalty palette green_candidate target_green = nofZ 100.
Proof. vm_compute. repeat split; reflexivity. Qed.

(** C3, as the specification states it: for a red target the loop stops at
    the first red entry, whose distance 0.006 is below 0.01, although the
    second entry is at distance 0; a scan of all entries picks the second. *)
Lemma short_circuit_changes_choice :
  bestIdx_of palette two_reds target_red = Some 0%nat /\
  snd (fullScan palette two_reds 0 target_red (nofZ 9999) None) = Some 1%nat /\
  map (fun a => penalty palette a target_red) two_reds = [nofZ 0; nofZ 0] /\
  map (fun a => nltb (getColorDist (a_color a) (vd_color target_red)) (dec 1 100))
      two_reds = [true; true] /\
  match two_reds with
  | [a0; a1] => nltb (score palette a1 target_red) (score palette a0 target_red)
  | _ => false
  end = true.
Proof. vm_compute. repeat split; reflexivity. Qed.

Lemma dismantling_tick_witness :
  state scene_falling = DISMANTLING /\
  exists e', updatePhysics palette scene_falling (nofZ 0) = Some e' /\
             state e' = DISMANTLING /\
             length (voxels e') = length (voxels scene_falling).
Proof.
  split; [reflexivity|].
  destruct (dismantling_tick palette scene_falling (nofZ 0) eq_refl)
    as (e' & H1 & H2 & H3 & _).
  exists e'. auto.
Defined.

Lemma rubble_only_rebuild_settles_witness :
  state scene_red_green <> REBUILDING /\
  exists e2,
    updatePhysics palette (rebuild palette scene_red_green [] (nofZ 0)) (nofZ 16)
      = Some e2 /\
    state e2 = STABLE /\ voxels e2 = voxels scene_red_green.
Proof.
  assert (Hst : state scene_red_green <> REBUILDING) by discriminate.
  split; [exact Hst|].
  destruct (rubble_only_rebuild_settles palette scene_red_green [] (nofZ 0)
              (nofZ 16) Hst) as (_ & Hrun & Hempty & _).
  apply Hrun. apply Hempty. reflexivity.
Defined.

(** ** Laws of exact arithmetic *)

Section RealFacts.

Local Open Scope R_scope.
Variable K : Constants (num := R).

Lemma Rltb_true (a b : R) : Rltb a b = true <-> a < b.
Proof. unfold Rltb. destruct (Rlt_dec a b); split; intros; auto; discriminate. Qed.

Lemma Rltb_false (a b : R) : Rltb a b = false <-> b <= a.
Proof.
  unfold Rltb. destruct (Rlt_dec a b); split; intros; auto; try discriminate; lra.
Qed.

Lemma Reqb_true (a b : R) : Reqb a b = true <-> a = b.
Proof. unfold Reqb. destruct (Req_dec_T a b); split; intros; auto; discriminate. Qed.

(** *** The scan keeps a running strict minimum *)

Lemma scan_real_spec (target : VoxelData) :
  forall avail off bd bi,
    let res := scan K avail off target bd bi in
    (snd res = bi /\ fst res = bd /\
     forall k a, nth_error avail k = Some a -> taken a = false ->
                 bd <= score K a target)
    \/
    (exists k a,
        snd res = Some (off + k)%nat /\ fst res = score K a target /\
        nth_error avail k = Some a /\ taken a = false /\
        score K a target < bd /\
        (forall j c, (j < k)%nat -> nth_error avail j = Some c ->
                     taken c = false -> score K a target < score K c target) /\
        (getColorDist (a_color a) (vd_color target) < dec 1 100 \/
         forall j c, (k < j)%nat -> nth_error avail j = Some c ->
                     taken c = false -> score K a target <= score K c target)).
Proof.
  induction avail as [|a rest IH]; intros off bd bi res; subst res.
  - left. simpl. repeat split; auto. intros [|k] c Hk; discriminate.
  - cbn [scan]. destruct (taken a) eqn:Ta.
    + destruct (IH (S off) bd bi) as [(Hs & Hf & Hall) | (k & c & Hs & Hf & Hk & Htc & Hlt & Hbefore & Hafter)].
      * left. repeat split; auto. intros [|k] c Hk Htc; simpl in Hk.
        -- inversion Hk; subst; congruence.
        -- apply (Hall k c); auto.
      * right. exists (S k), c. rewrite Hs, Hf.
        split; [f_equal; lia|]. split; [reflexivity|]. split; [exact Hk|].
        split; [exact Htc|]. split; [exact Hlt|]. split.
        -- intros [|j] c' Hj Hc' Htc'; simpl in Hc'.
           ++ inversion Hc'; subst; congruence.
           ++ apply (Hbefore j c'); auto; lia.
        -- destruct Hafter as [Hd | Hafter]; [left; exact Hd|right].
           intros [|j] c' Hj Hc' Htc'; [lia|]. simpl in Hc'.
           apply (Hafter j c'); auto; lia.
    + change (getColorDist (a_color a) (vd_color target) + penalty K a target)%js
        with (score K a target).
      change (@nltb R Real) with Rltb.
      destruct (Rltb (score K a target) bd) eqn:Hb.
      * apply Rltb_true in Hb.
        destruct (Rltb (getColorDist (a_color a) (vd_color target)) (dec 1 100)) eqn:Hd.
        -- apply Rltb_true in Hd. right. exists 0%nat, a. cbn [fst snd nth_error].
           split; [f_equal; lia|]. repeat split; auto.
           intros j c Hj; lia.
        -- destruct (IH (S off) (score K a target) (Some off))
             as [(Hs & Hf & Hall) | (k & c & Hs & Hf & Hk & Htc & Hlt & Hbefore & Hafter)].
           ++ right. exists 0%nat, a. rewrite Hs, Hf. cbn [nth_error].
              split; [f_equal; lia|]. repeat split; auto.
              ** intros j c Hj; lia.
              ** right. intros [|j] c Hj Hc Htc; [lia|]. simpl in Hc.
                 apply (Hall j c); auto.
           ++ right. exists (S k), c. rewrite Hs, Hf.
              split; [f_equal; lia|]. split; [reflexivity|]. split; [exact Hk|].
              split; [exact Htc|]. split; [lra|]. split.
              ** intros [|j] c' Hj Hc' Htc'; simpl in Hc'.
                 --- inversion Hc'; subst. exact Hlt.
                 --- apply (Hbefore j c'); auto; lia.
              ** destruct Hafter as [Hd' | Hafter]; [left; exact Hd'|right].
                 intros [|j] c' Hj Hc' Htc'; [lia|]. simpl in Hc'.
                 apply (Hafter j c'); auto; lia.
      * apply Rltb_false in Hb.
        destruct (IH (S off) bd bi)
          as [(Hs & Hf & Hall) | (k & c & Hs & Hf & Hk & Htc & Hlt & Hbefore & Hafter)].
        -- left. repeat split; auto. intros [|k] c Hk Htc; simpl in Hk.
           ++ inversion Hk; subst. exact Hb.
           ++ apply (Hall k c); auto.
        -- right. exists (S k), c. rewrite Hs, Hf.
           split; [f_equal; lia|]. split; [reflexivity|]. split; [exact Hk|].
           split; [exact Htc|]. split; [exact Hlt|]. split.
           ++ intros [|j] c' Hj Hc' Htc'; simpl in Hc'.
              ** inversion Hc'; subst. lra.
              ** apply (Hbefore j c'); auto; lia.
           ++ destruct Hafter as [Hd' | Hafter]; [left; exact Hd'|right].
              intros [|j] c' Hj Hc' Htc'; [lia|]. simpl in Hc'.
              apply (Hafter j c'); auto; lia.
Qed.

(** C3 (as the code has it).  The entry the loop selects is untaken, scores
    below 9999 and strictly below every untaken entry before it; it is a
    minimum of [d + penalty] over the untaken entries after it as well
    unless its own colour distance is below 0.01, in which case the entries
    after it are not examined.  When no entry is selected, every untaken
    entry scores 9999 or more. *)
Theorem scan_selects_prefix_minimum (avail : list Available) (target : VoxelData) :
  match bestIdx_of K avail target with
  | Some i =>
      exists a, nth_error avail i = Some a /\ taken a = false /\
        score K a target < 9999 /\
        (forall j c, (j < i)%nat -> nth_error avail j = Some c ->
                     taken c = false -> score K a target < score K c target) /\
        (getColorDist (a_color a) (vd_color target) < dec 1 100 \/
         forall j c, (i < j)%nat -> nth_error avail j = Some c ->
                     taken c = false -> score K a target <= score K c target)
  | None =>
      forall j c, nth_error avail j = Some c -> taken c = false ->
                  9999 <= score K c target
  end.
Proof.
  unfold bestIdx_of.
  destruct (scan_real_spec target avail 0 (nofZ 9999) None)
    as [(Hs & _ & Hall) | (k & a & Hs & _ & Hk & Hta & Hlt & Hbefore & Hafter)].
  - rewrite Hs. exact Hall.
  - rewrite Hs. simpl. exists a. repeat split; auto.
Qed.

End RealFacts.

Section RealEngine.

Local Open Scope R_scope.
Variable K : Constants (num := R).

(** *** The floor *)

Lemma physicsStep_floor (v : SimulationVoxel) :
  FLOOR_Y K + 1/2 <= y (physicsStep K v).
Proof.
  unfold physicsStep. cbv zeta.
  change (@nltb R Real) with Rltb.
  destruct (Rltb _ _) eqn:H; cbn [y].
  - unfold dec; simpl. lra.
  - apply Rltb_false in H. unfold dec in *; simpl in *. lra.
Qed.

(** C5.  A frame executed in the Dismantling state succeeds, keeps the
    state, and leaves every voxel with [y] at or above [FLOOR_Y + 0.5],
    whatever its position and velocity were before. *)
Theorem dismantling_keeps_above_floor (e : VoxelEngine) (now : R) :
  state e = DISMANTLING ->
  exists e', updatePhysics K e now = Some e' /\ state e' = DISMANTLING /\
    forall v', In v' (voxels e') -> FLOOR_Y K + 1/2 <= y v'.
Proof.
  intros Hst. rewrite (updatePhysics_dismantling K e now Hst).
  eexists. split; [reflexivity|]. split; [reflexivity|].
  cbn [voxels]. intros v' Hin. apply in_map_iff in Hin.
  destruct Hin as (v & <- & _). apply physicsStep_floor.
Qed.

(** *** Colours of three.js are within bounds, and so are scores *)

Definition validColor (c : Color (num := R)) : Prop :=
  0 <= r c <= 1 /\ 0 <= g c <= 1 /\ 0 <= b c <= 1.

Lemma byte_channel (n : Z) : 0 <= IZR (Z.land n 255) / 255 <= 1.
Proof.
  assert (H : (0 <= Z.land n 255 <= 255)%Z).
  { assert (E : Z.land n 255 = (n mod 256)%Z).
    { change 255%Z with (Z.ones 8). rewrite Z.land_ones by lia. reflexivity. }
    pose proof (Z.mod_pos_bound n 256 eq_refl). lia. }
  destruct H as [H0 H1]. apply IZR_le in H0, H1. lra.
Qed.

Lemma Rpower_1_l (y : R) : Rpower 1 y = 1.
Proof. unfold Rpower. rewrite ln_1, Rmult_0_r. apply exp_0. Qed.

(** The conversion to linear keeps a channel within [0, 1]. *)
Lemma SRGBToLinear_range (c : R) : 0 <= c <= 1 -> 0 <= SRGBToLinear c <= 1.
Proof.
  intros Hc. unfold SRGBToLinear, dec.
  cbn [nadd nmul ndiv nofZ nltb npow Real].
  destruct (Rltb c (4045 / 100000)) eqn:E.
  - apply Rltb_true in E. lra.
  - apply Rltb_false in E. split.
    + left. apply exp_pos.
    + rewrite <- (Rpower_1_l (24 / 10)). apply Rle_Rpower_l; lra.
Qed.

Lemma THREE_Color_valid (hex : R) : validColor (THREE_Color hex).
Proof.
  unfold validColor, THREE_Color. cbn [r g b].
  repeat split; apply SRGBToLinear_range; apply byte_channel.
Qed.

Lemma sq_diff_bound (u v : R) :
  0 <= u <= 1 -> 0 <= v <= 1 -> 0 <= (u - v) * (u - v) <= 1.
Proof.
  intros Hu Hv. split; [apply (Rle_0_sqr (u - v))|].
  assert (0 <= (1 - (u - v)) * (1 + (u - v))) by (apply Rmult_le_pos; lra).
  lra.
Qed.

Lemma getColorDist_bound (c : Color) (hex : R) :
  validColor c -> 0 <= getColorDist c hex < 1.
Proof.
  intros (Hr & Hg & Hb).
  destruct (THREE_Color_valid hex) as (Hr' & Hg' & Hb').
  unfold getColorDist. cbv zeta.
  generalize dependent (THREE_Color hex). intros c2 Hr' Hg' Hb'.
  change (@nsqrt R Real) with sqrt.
  split; [apply sqrt_pos|].
  rewrite <- sqrt_1 at 1. apply sqrt_lt_1_alt.
  pose proof (sq_diff_bound _ _ Hr Hr') as Hdr.
  pose proof (sq_diff_bound _ _ Hg Hg') as Hdg.
  pose proof (sq_diff_bound _ _ Hb Hb') as Hdb.
  unfold dec. cbn [nadd nsub nmul ndiv nofZ Real].
  replace ((r c - r c2) * (3 / 10) * ((r c - r c2) * (3 / 10)))
    with ((r c - r c2) * (r c - r c2) * (9 / 100)) by field.
  replace ((g c - g c2) * (59 / 100) * ((g c - g c2) * (59 / 100)))
    with ((g c - g c2) * (g c - g c2) * (3481 / 10000)) by field.
  replace ((b c - b c2) * (11 / 100) * ((b c - b c2) * (11 / 100)))
    with ((b c - b c2) * (b c - b c2) * (121 / 10000)) by field.
  lra.
Qed.

Lemma score_bound (a : Available) (target : VoxelData) :
  validColor (a_color a) -> 0 <= score K a target < 9999.
Proof.
  intros Hv. pose proof (getColorDist_bound (a_color a) (vd_color target) Hv) as Hd.
  unfold score, penalty.
  destruct (isLeafOrWood (a_color a) && negb (targetIsGreen K target))%bool;
    cbn [nadd nofZ Real]; lra.
Qed.

(** With colours in range the loop finds a voxel as long as one is left. *)
Lemma bestIdx_of_finds (avail : list Available) (target : VoxelData) k a :
  nth_error avail k = Some a -> taken a = false -> validColor (a_color a) ->
  bestIdx_of K avail target <> None.
Proof.
  intros Hk Hta Hv Hnone. unfold bestIdx_of in Hnone.
  pose proof (score_bound a target Hv) as Hb.
  destruct (scan_real_spec K target avail 0 (nofZ 9999) None)
    as [(_ & _ & Hall) | (k' & a' & Hs & _)].
  - specialize (Hall k a Hk Hta). cbn [nofZ Real] in Hall. lra.
  - rewrite Hs in Hnone. discriminate.
Qed.

(** C6.  An accepted [rebuild] installs one assignment per voxel.  Read
    against the successive values of [bestIdx]: the voxel a target selects
    gets that target's position, the delay
    [max(0, (target.y - FLOOR_Y) / 15) * 800] and no rubble flag; a voxel no
    target selects gets the rubble assignment, its own position with delay
    0; no voxel is selected twice, and once as many voxels are selected as
    there are, every further target selects none.  With one target and a
    non-empty array of voxels whose colours are in range, in particular
    three voxels, exactly one voxel is assigned and all others are rubble. *)
Theorem rebuild_one_assignment_per_voxel (e : VoxelEngine)
    (targetModel : list VoxelData) (now : R) :
  state e <> REBUILDING ->
  let e' := rebuild K e targetModel now in
  let tr := matchTrace K (initialAvailable (voxels e),
                          repeat None (length (voxels e))) targetModel in
  length (rebuildTargets e') = length (voxels e) /\
  (forall k target i,
      nth_error targetModel k = Some target ->
      nth_error tr k = Some (Some i) ->
      nth_error (rebuildTargets e') i =
        Some {| rt_x := vd_x target; rt_y := vd_y target; rt_z := vd_z target;
                delay := Rmax 0 ((vd_y target - FLOOR_Y K) / 15) * 800;
                isRubble := false |}) /\
  (forall i v,
      nth_error (voxels e) i = Some v -> ~ In i (picksOf tr) ->
      nth_error (rebuildTargets e') i =
        Some {| rt_x := x v; rt_y := y v; rt_z := z v;
                delay := 0; isRubble := true |}) /\
  NoDup (picksOf tr) /\
  (forall k, (length (voxels e) <= length (picksOf (firstn k tr)))%nat ->
             (k < length targetModel)%nat -> nth_error tr k = Some None) /\
  (forall target,
      targetModel = [target] -> voxels e <> [] ->
      (forall v, In v (voxels e) -> validColor (color v)) ->
      exists i,
        nth_error (rebuildTargets e') i = Some (targetAssignment K target) /\
        isRubble (targetAssignment K target) = false /\
        forall j v, j <> i -> nth_error (voxels e) j = Some v ->
          nth_error (rebuildTargets e') j = Some (rubbleOf v) /\
          isRubble (rubbleOf v) = true).
Proof.
  intros Hst e' tr.
  destruct (rebuild_assignments K e targetModel now Hst)
    as (_ & _ & Hlen & Hpick & Hrub & Hnd & Hfull).
  fold e' in Hlen, Hpick, Hrub. fold tr in Hpick, Hrub, Hnd, Hfull.
  split; [exact Hlen|]. split; [exact Hpick|]. split; [exact Hrub|].
  split; [exact Hnd|]. split; [exact Hfull|].
  intros target Htm Hne Hval.
  assert (Htr : exists i, tr = [Some i]).
  { subst tr. rewrite Htm. cbn [matchTrace fst].
    destruct (voxels e) as [|v0 vs] eqn:Ev; [congruence|].
    destruct (bestIdx_of K (initialAvailable (v0 :: vs)) target) as [i|] eqn:Hb;
      [eauto|].
    exfalso.
    refine (bestIdx_of_finds (initialAvailable (v0 :: vs)) target 0
              {| index := 0; a_color := color v0; taken := false |}
              eq_refl eq_refl _ Hb).
    cbn [a_color]. apply Hval. left; reflexivity. }
  destruct Htr as (i & Htr). exists i.
  split; [apply (Hpick 0%nat target i); [rewrite Htm; reflexivity|rewrite Htr; reflexivity]|].
  split; [reflexivity|].
  intros j v Hj Hv. split; [|reflexivity].
  apply Hrub; auto. rewrite Htr. simpl. intros [E|[]]. congruence.
Qed.

End RealEngine.

Lemma dismantling_keeps_above_floor_witness :
  state (fallingScene (num := R)) = DISMANTLING /\
  exists e', updatePhysics samplePalette fallingScene 0%R = Some e' /\
    state e' = DISMANTLING /\
    forall v', In v' (voxels e') -> (FLOOR_Y samplePalette + 1/2 <= y v')%R.
Proof.
  split; [reflexivity|].
  apply (dismantling_keeps_above_floor samplePalette fallingScene 0%R eq_refl).
Defined.

Lemma rebuild_one_assignment_per_voxel_witness :
  state (threeVoxels (num := R)) <> REBUILDING /\
  length (rebuildTargets
            (rebuild samplePalette threeVoxels [pointAt 0 5 0 0x00FF00] 0%R))
  = length (voxels (threeVoxels (num := R))).
Proof.
  assert (Hst : state (threeVoxels (num := R)) <> REBUILDING) by discriminate.
  split; [exact Hst|].
  destruct (rebuild_one_assignment_per_voxel samplePalette threeVoxels
              [pointAt 0 5 0 0x00FF00] 0%R Hst) as (Hlen & _).
  exact Hlen.
Defined.

(** ** The interpolation converges (exact arithmetic) *)

Section RealRebuild.

Local Open Scope R_scope.
Variable K : Constants (num := R).

(** Every voxel that has a target has been released at time [now]. *)
Definition released (e : VoxelEngine (num := R)) (now : R) : Prop :=
  forall t, In t (rebuildTargets e) -> isRubble t = false ->
            delay t <= now - rebuildStartTime e.

(** The voxel sits on its target with zero rotation. *)
Definition atTarget (t : RebuildTarget (num := R)) (v : SimulationVoxel) : Prop :=
  x v = rt_x t /\ y v = rt_y t /\ z v = rt_z t /\
  rx v = 0 /\ ry v = 0 /\ rz v = 0.

Definition settled (vs : list (SimulationVoxel (num := R))) ts : Prop :=
  forall i v t, nth_error vs i = Some v -> nth_error ts i = Some t ->
                isRubble t = false -> atTarget t v.

Definition within (B : R) (vs : list (SimulationVoxel (num := R))) ts : Prop :=
  forall i v t, nth_error vs i = Some v -> nth_error ts i = Some t ->
                isRubble t = false -> distSq t v <= B.

Lemma distSq_nonneg t (v : SimulationVoxel (num := R)) : 0 <= distSq t v.
Proof.
  unfold distSq. cbn [nadd nsub nmul Real].
  pose proof (Rle_0_sqr (rt_x t - x v)). pose proof (Rle_0_sqr (rt_y t - y v)).
  pose proof (Rle_0_sqr (rt_z t - z v)). unfold Rsqr in *. lra.
Qed.

(** One interpolation step multiplies the squared distance by 0.88 squared. *)
Lemma distSq_lerp t (v : SimulationVoxel (num := R)) :
  distSq t (lerp t v) = 7744 / 10000 * distSq t v.
Proof.
  unfold distSq, lerp, dec. cbn [x y z nadd nsub nmul ndiv nofZ Real]. field.
Qed.

Lemma distSq_snap t (v : SimulationVoxel (num := R)) : distSq t (snap t v) = 0.
Proof. unfold distSq, snap. cbn [x y z nadd nsub nmul Real]. ring. Qed.

Lemma atTarget_snap t (v : SimulationVoxel (num := R)) : atTarget t (snap t v).
Proof. unfold atTarget, snap. cbn. repeat split; reflexivity. Qed.

Lemma atTarget_distSq t (v : SimulationVoxel (num := R)) :
  atTarget t v -> distSq t v = 0.
Proof.
  intros (Hx & Hy & Hz & _). unfold distSq. cbn [nadd nsub nmul Real].
  rewrite Hx, Hy, Hz. ring.
Qed.

(** The body of the loop for a voxel that has a target and is released. *)
Lemma rebuildStep_released elapsed t (v : SimulationVoxel (num := R)) :
  isRubble t = false -> delay t <= elapsed ->
  (1 / 100 < distSq t (lerp t v) /\
   rebuildStep elapsed t v = (lerp t v, false))
  \/
  (distSq t (lerp t v) <= 1 / 100 /\
   rebuildStep elapsed t v = (snap t (lerp t v), true)).
Proof.
  intros Hr Hd. unfold rebuildStep. rewrite Hr.
  change (@nltb R Real) with Rltb.
  assert (E : Rltb elapsed (delay t) = false) by (apply Rltb_false; exact Hd).
  rewrite E. change (dec 1 100) with (1 / 100).
  destruct (Rltb (1 / 100) (distSq t (lerp t v))) eqn:H.
  - left. apply Rltb_true in H. auto.
  - right. apply Rltb_false in H. auto.
Qed.

Lemma rebuildAll_real elapsed B :
  0 <= B ->
  forall (vs : list (SimulationVoxel (num := R))) ts,
    length ts = length vs ->
    (forall t, In t ts -> isRubble t = false -> delay t <= elapsed) ->
    within B vs ts ->
    exists vs' allDone,
      rebuildAll elapsed vs ts = Some (vs', allDone) /\
      length vs' = length vs /\
      (forall i v t, nth_error vs i = Some v -> nth_error ts i = Some t ->
         nth_error vs' i = Some (fst (rebuildStep elapsed t v))) /\
      within (7744 / 10000 * B) vs' ts /\
      (allDone = true <-> settled vs' ts) /\
      (7744 / 10000 * B <= 1 / 100 -> allDone = true).
Proof.
  intros HB. induction vs as [|v vs IH]; intros ts Hl Hrel Hw.
  - destruct ts; [|discriminate]. exists [], true. simpl.
    split; [reflexivity|]. split; [reflexivity|].
    split; [intros [|i] ? ? H; discriminate|].
    split; [intros [|i] ? ? H; discriminate|].
    split; [|reflexivity].
    split; [intros _ [|i] ? ? H; discriminate|reflexivity].
  - destruct ts as [|t ts]; [discriminate|]. simpl in Hl.
    destruct (IH ts) as (vs' & allDone & Hrun & Hlen & Hnth & Hw' & Hset & Hfin).
    + lia.
    + intros t' Ht'. apply Hrel. right; exact Ht'.
    + intros i v' t' Hv Ht. apply (Hw (S i)); auto.
    + cbn [rebuildAll]. rewrite Hrun.
      destruct (rebuildStep elapsed t v) as [v1 done] eqn:Hstep.
      exists (v1 :: vs'), (done && allDone)%bool.
      split; [reflexivity|]. split; [simpl; lia|].
      assert (Hhead : isRubble t = false ->
                distSq t v1 <= 7744 / 10000 * B /\
                (done = true <-> atTarget t v1) /\
                (7744 / 10000 * B <= 1 / 100 -> done = true)).
      { intros Hr.
        assert (Hd : delay t <= elapsed) by (apply Hrel; [left; reflexivity|exact Hr]).
        assert (HwB : distSq t v <= B) by (apply (Hw 0%nat); auto).
        pose proof (distSq_lerp t v) as Hl1.
        pose proof (distSq_nonneg t v) as Hnn.
        destruct (rebuildStep_released elapsed t v Hr Hd) as [(Hgt & E) | (Hle & E)];
          rewrite Hstep in E; inversion E; subst v1 done.
        - split; [lra|]. split.
          + split; [discriminate|]. intros Hat. apply atTarget_distSq in Hat. lra.
          + intros Hs. lra.
        - rewrite distSq_snap. split; [lra|]. split; [|auto].
          split; auto. intros _. apply atTarget_snap. }
      assert (Hrub : isRubble t = true -> done = true /\ v1 = v).
      { intros Hr. unfold rebuildStep in Hstep. rewrite Hr in Hstep.
        inversion Hstep; auto. }
      split; [|split; [|split]].
      * intros [|i] v' t' Hv Ht; simpl in *.
        -- injection Hv as <-; injection Ht as <-. rewrite Hstep. reflexivity.
        -- apply Hnth; auto.
      * intros [|i] v' t' Hv Ht Hr; simpl in *.
        -- injection Hv as <-; injection Ht as <-.
           destruct (Hhead Hr) as (Hb1 & _ & _). exact Hb1.
        -- apply (Hw' i); auto.
      * split.
        -- intros Hdone. apply andb_true_iff in Hdone. destruct Hdone as [Hd1 Hd2].
           intros [|i] v' t' Hv Ht Hr; simpl in *.
           ++ injection Hv as <-; injection Ht as <-.
              destruct (Hhead Hr) as (_ & Hiff & _). apply Hiff. exact Hd1.
           ++ apply Hset in Hd2. apply (Hd2 i); auto.
        -- intros Hs. apply andb_true_iff. split.
           ++ destruct (isRubble t) eqn:Hr.
              ** apply Hrub; reflexivity.
              ** destruct (Hhead eq_refl) as (_ & Hiff & _). apply Hiff.
                 apply (Hs 0%nat v1 t); auto.
           ++ apply Hset. intros i v' t' Hv Ht Hr. apply (Hs (S i)); auto.
      * intros Hs. apply andb_true_iff. split; [|auto].
        destruct (isRubble t) eqn:Hr.
        -- apply Hrub; reflexivity.
        -- destruct (Hhead eq_refl) as (_ & _ & Hf). apply Hf. exact Hs.
Qed.

Lemma run_stable (e : VoxelEngine (num := R)) nows :
  state e = STABLE -> run K e nows = Some e.
Proof.
  intros Hs. induction nows as [|now rest IH]; simpl; auto.
  unfold updatePhysics. rewrite Hs. exact IH.
Qed.

(** One frame of the Rebuilding state, all targets released. *)
Lemma rebuilding_tick (e : VoxelEngine (num := R)) now B :
  state e = REBUILDING ->
  length (rebuildTargets e) = length (voxels e) ->
  released e now -> 0 <= B ->
  within B (voxels e) (rebuildTargets e) ->
  exists e',
    updatePhysics K e now = Some e' /\
    rebuildTargets e' = rebuildTargets e /\
    rebuildStartTime e' = rebuildStartTime e /\
    length (voxels e') = length (voxels e) /\
    (forall i v t, nth_error (voxels e) i = Some v ->
       nth_error (rebuildTargets e) i = Some t ->
       nth_error (voxels e') i =
         Some (fst (rebuildStep (now - rebuildStartTime e) t v))) /\
    within (7744 / 10000 * B) (voxels e') (rebuildTargets e) /\
    (state e' = STABLE <-> settled (voxels e') (rebuildTargets e)) /\
    (state e' = STABLE \/ state e' = REBUILDING) /\
    (7744 / 10000 * B <= 1 / 100 -> state e' = STABLE).
Proof.
  intros Hst Hl Hrel HB Hw.
  destruct (rebuildAll_real (now - rebuildStartTime e) B HB (voxels e)
              (rebuildTargets e) Hl Hrel Hw)
    as (vs' & allDone & Hrun & Hlen & Hnth & Hw' & Hset & Hfin).
  unfold updatePhysics. rewrite Hst.
  change (@nsub R Real now (rebuildStartTime e)) with (now - rebuildStartTime e).
  rewrite Hrun. eexists. split; [reflexivity|]. cbn [rebuildTargets rebuildStartTime voxels state].
  split; [reflexivity|]. split; [reflexivity|]. split; [exact Hlen|].
  split; [exact Hnth|]. split; [exact Hw'|]. split; [|split].
  - split.
    + intros Hs. apply Hset. destruct allDone; auto; discriminate.
    + intros Hs. apply Hset in Hs. rewrite Hs. reflexivity.
  - destruct allDone; auto.
  - intros Hs. rewrite (Hfin Hs). reflexivity.
Qed.

Lemma run_converges (n : nat) :
  forall (e : VoxelEngine (num := R)) B,
    state e = REBUILDING ->
    length (rebuildTargets e) = length (voxels e) ->
    0 <= B -> within B (voxels e) (rebuildTargets e) ->
    (7744 / 10000) ^ (S n) * B <= 1 / 100 ->
    forall nows, (S n <= length nows)%nat -> Forall (released e) nows ->
    exists e', run K e nows = Some e' /\ state e' = STABLE /\
               rebuildTargets e' = rebuildTargets e /\
               settled (voxels e') (rebuildTargets e).
Proof.
  induction n as [|n IH]; intros e B Hst Hl HB Hw Hpow nows Hn Hrel;
    (destruct nows as [|now rest]; [simpl in Hn; lia|]);
    inversion Hrel as [|? ? Hnow Hrest]; subst;
    destruct (rebuilding_tick e now B Hst Hl Hnow HB Hw)
      as (e1 & Hup & Ht1 & Hs1 & Hl1 & _ & Hw1 & Hset1 & Hcase & Hfin1);
    cbn [run]; rewrite Hup.
  - assert (Hstable : state e1 = STABLE) by (apply Hfin1; simpl in Hpow; lra).
    exists e1. split; [apply run_stable; exact Hstable|].
    split; [exact Hstable|]. split; [exact Ht1|]. apply Hset1; exact Hstable.
  - destruct Hcase as [Hstable | Hreb].
    + exists e1. split; [apply run_stable; exact Hstable|].
      split; [exact Hstable|]. split; [exact Ht1|]. apply Hset1; exact Hstable.
    + destruct (IH e1 (7744 / 10000 * B)) with (nows := rest)
        as (e' & Hrun & Hst' & Ht' & Hset').
      * exact Hreb.
      * rewrite Ht1, Hl1. exact Hl.
      * lra.
      * rewrite Ht1. exact Hw1.
      * simpl in Hpow |- *. lra.
      * simpl in Hn. lia.
      * eapply Forall_impl; [|exact Hrest].
        intros now' Hr'. unfold released in *. rewrite Ht1, Hs1. exact Hr'.
      * exists e'. split; [exact Hrun|]. split; [exact Hst'|].
        split; [congruence|]. rewrite <- Ht1. exact Hset'.
Qed.

(** A bound on all squared distances, and a number of frames that brings
    the bound under the threshold. *)
Lemma within_exists (vs : list (SimulationVoxel (num := R))) ts :
  exists B, 0 <= B /\ within B vs ts.
Proof.
  revert ts. induction vs as [|v vs IH]; intros ts.
  - exists 0. split; [lra|]. intros [|i] ? ? H; discriminate.
  - destruct ts as [|t ts].
    + exists 0. split; [lra|]. intros [|i] ? ? ? H; discriminate.
    + destruct (IH ts) as (B & HB & Hw).
      exists (B + distSq t v). pose proof (distSq_nonneg t v).
      split; [lra|]. intros [|i] v' t' Hv Ht Hr; cbn [nth_error] in Hv, Ht.
      * injection Hv as <-; injection Ht as <-. lra.
      * specialize (Hw i v' t' Hv Ht Hr). lra.
Qed.

Lemma decay_reaches (B : R) :
  0 <= B -> exists n, (7744 / 10000) ^ (S n) * B <= 1 / 100.
Proof.
  intros HB.
  assert (Hc : Rabs (7744 / 10000) < 1) by (rewrite Rabs_right; lra).
  assert (Hy : 0 < 1 / (100 * (B + 1))).
  { apply Rdiv_lt_0_compat; lra. }
  destruct (pow_lt_1_zero _ Hc _ Hy) as (n & Hn).
  exists n. specialize (Hn (S n) (Nat.le_succ_diag_r n)).
  assert (Hpos : 0 < (7744 / 10000) ^ S n) by (apply pow_lt; lra).
  rewrite Rabs_right in Hn by lra.
  assert (Hm : (7744 / 10000) ^ S n * (100 * (B + 1)) < 1).
  { apply (Rmult_lt_compat_r (100 * (B + 1))) in Hn; [|lra].
    unfold Rdiv in Hn. rewrite Rmult_1_l, Rinv_l in Hn by lra. exact Hn. }
  nra.
Qed.

(** *** Frames at any time: waiting, moving and arrived voxels together *)

Lemma rebuildStep_cases elapsed t (v : SimulationVoxel (num := R)) :
  isRubble t = false ->
  (elapsed < delay t /\ rebuildStep elapsed t v = (v, false)) \/
  (delay t <= elapsed /\ 1 / 100 < distSq t (lerp t v) /\
   rebuildStep elapsed t v = (lerp t v, false)) \/
  (delay t <= elapsed /\ distSq t (lerp t v) <= 1 / 100 /\
   rebuildStep elapsed t v = (snap t (lerp t v), true)).
Proof.
  intros Hr. unfold rebuildStep. rewrite Hr.
  change (@nltb R Real) with Rltb.
  destruct (Rltb elapsed (delay t)) eqn:E.
  - left. apply Rltb_true in E. auto.
  - apply Rltb_false in E. right. change (dec 1 100) with (1 / 100).
    destruct (Rltb (1 / 100) (distSq t (lerp t v))) eqn:H.
    + left. apply Rltb_true in H. auto.
    + right. apply Rltb_false in H. auto.
Qed.

(** No frame takes a voxel further from its target. *)
Lemma rebuildStep_closer elapsed t (v : SimulationVoxel (num := R)) :
  distSq t (fst (rebuildStep elapsed t v)) <= distSq t v.
Proof.
  pose proof (distSq_nonneg t v) as Hnn.
  destruct (isRubble t) eqn:Hr.
  - unfold rebuildStep. rewrite Hr. cbn [fst]. lra.
  - destruct (rebuildStep_cases elapsed t v Hr)
      as [(_ & E) | [(_ & _ & E) | (_ & _ & E)]]; rewrite E; cbn [fst].
    + lra.
    + rewrite distSq_lerp. lra.
    + rewrite distSq_snap. lra.
Qed.

(** The loop leaves [allDone] alone exactly for a voxel that is released
    and, after the step, on its target. *)
Lemma rebuildStep_done elapsed t (v : SimulationVoxel (num := R)) :
  isRubble t = false ->
  (snd (rebuildStep elapsed t v) = true <->
   delay t <= elapsed /\ atTarget t (fst (rebuildStep elapsed t v))).
Proof.
  intros Hr.
  destruct (rebuildStep_cases elapsed t v Hr)
    as [(Hw & E) | [(Hd & Hgt & E) | (Hd & Hle & E)]]; rewrite E; cbn [fst snd].
  - split; [discriminate|]. intros [H _]. lra.
  - split; [discriminate|]. intros [_ H]. apply atTarget_distSq in H. lra.
  - split; [|reflexivity]. intros _. split; [exact Hd|apply atTarget_snap].
Qed.

Lemma rebuildAll_frame elapsed B :
  forall (vs : list (SimulationVoxel (num := R))) ts,
    length ts = length vs ->
    within B vs ts ->
    exists vs' allDone,
      rebuildAll elapsed vs ts = Some (vs', allDone) /\
      length vs' = length vs /\
      (forall i v t, nth_error vs i = Some v -> nth_error ts i = Some t ->
         nth_error vs' i = Some (fst (rebuildStep elapsed t v))) /\
      within B vs' ts /\
      (allDone = true <->
       forall i v t, nth_error vs i = Some v -> nth_error ts i = Some t ->
                     snd (rebuildStep elapsed t v) = true).
Proof.
  induction vs as [|v vs IH]; intros ts Hl Hw.
  - destruct ts; [|discriminate]. exists [], true. simpl.
    split; [reflexivity|]. split; [reflexivity|].
    split; [intros [|i] ? ? H; discriminate|].
    split; [intros [|i] ? ? H; discriminate|].
    split; [intros _ [|i] ? ? H; discriminate|reflexivity].
  - destruct ts as [|t ts]; [discriminate|]. simpl in Hl.
    destruct (IH ts) as (vs' & allDone & Hrun & Hlen & Hnth & Hw' & Hdone).
    + lia.
    + intros i v' t' Hv Ht. apply (Hw (S i)); auto.
    + cbn [rebuildAll]. rewrite Hrun.
      destruct (rebuildStep elapsed t v) as [v1 done] eqn:Hstep.
      exists (v1 :: vs'), (done && allDone)%bool.
      split; [reflexivity|]. split; [simpl; lia|].
      split; [|split; [|split]].
      * intros [|i] v' t' Hv Ht; cbn [nth_error] in Hv, Ht |- *.
        -- injection Hv as <-; injection Ht as <-. rewrite Hstep. reflexivity.
        -- apply Hnth; auto.
      * intros [|i] v' t' Hv Ht Hr; cbn [nth_error] in Hv, Ht.
        -- injection Hv as <-; injection Ht as <-.
           pose proof (rebuildStep_closer elapsed t v) as Hc.
           rewrite Hstep in Hc. cbn [fst] in Hc.
           specialize (Hw 0%nat v t eq_refl eq_refl Hr). lra.
        -- apply (Hw' i); auto.
      * intros Hd. apply andb_true_iff in Hd. destruct Hd as [Hd1 Hd2].
        intros [|i] v' t' Hv Ht; cbn [nth_error] in Hv, Ht |- *.
        -- injection Hv as <-; injection Ht as <-. rewrite Hstep. exact Hd1.
        -- apply (proj1 Hdone Hd2 i); auto.
      * intros Hall. apply andb_true_iff. split.
        -- specialize (Hall 0%nat v t eq_refl eq_refl).
           rewrite Hstep in Hall. exact Hall.
        -- apply Hdone. intros i v' t' Hv Ht. apply (Hall (S i)); auto.
Qed.

(** One frame of the Rebuilding state, at any time. *)
Lemma rebuilding_frame (e : VoxelEngine (num := R)) now B :
  state e = REBUILDING ->
  length (rebuildTargets e) = length (voxels e) ->
  within B (voxels e) (rebuildTargets e) ->
  exists e',
    updatePhysics K e now = Some e' /\
    rebuildTargets e' = rebuildTargets e /\
    rebuildStartTime e' = rebuildStartTime e /\
    length (voxels e') = length (voxels e) /\
    (forall i v t, nth_error (voxels e) i = Some v ->
       nth_error (rebuildTargets e) i = Some t ->
       nth_error (voxels e') i =
         Some (fst (rebuildStep (now - rebuildStartTime e) t v))) /\
    within B (voxels e') (rebuildTargets e) /\
    (state e' = STABLE <->
     forall i v t, nth_error (voxels e) i = Some v ->
       nth_error (rebuildTargets e) i = Some t ->
       snd (rebuildStep (now - rebuildStartTime e) t v) = true) /\
    (state e' = STABLE \/ state e' = REBUILDING).
Proof.
  intros Hst Hl Hw.
  destruct (rebuildAll_frame (now - rebuildStartTime e) B (voxels e)
              (rebuildTargets e) Hl Hw)
    as (vs' & allDone & Hrun & Hlen & Hnth & Hw' & Hdone).
  unfold updatePhysics. rewrite Hst.
  change (@nsub R Real now (rebuildStartTime e)) with (now - rebuildStartTime e).
  rewrite Hrun. eexists. split; [reflexivity|].
  cbn [rebuildTargets rebuildStartTime voxels state].
  split; [reflexivity|]. split; [reflexivity|]. split; [exact Hlen|].
  split; [exact Hnth|]. split; [exact Hw'|]. split.
  - split.
    + intros Hs. apply Hdone. destruct allDone; auto; discriminate.
    + intros Hs. apply Hdone in Hs. rewrite Hs. reflexivity.
  - destruct allDone; auto.
Qed.

Lemma run_app (l1 : list R) :
  forall (e : VoxelEngine (num := R)) l2,
    run K e (l1 ++ l2)
    = match run K e l1 with
      | Some e1 => run K e1 l2
      | None => None
      end.
Proof.
  induction l1 as [|now l1 IH]; intros e l2; [reflexivity|].
  cbn [app run]. destruct (updatePhysics K e now); [apply IH|reflexivity].
Qed.

(** Any frames, released or not: the assignments stay, no voxel gets
    further away, and the state is Stable only with every assigned voxel
    on its target. *)
Lemma run_any (nows : list R) :
  forall (e : VoxelEngine (num := R)) B,
    length (rebuildTargets e) = length (voxels e) ->
    within B (voxels e) (rebuildTargets e) ->
    state e = REBUILDING \/
    (state e = STABLE /\ settled (voxels e) (rebuildTargets e)) ->
    exists e1,
      run K e nows = Some e1 /\
      rebuildTargets e1 = rebuildTargets e /\
      rebuildStartTime e1 = rebuildStartTime e /\
      length (voxels e1) = length (voxels e) /\
      within B (voxels e1) (rebuildTargets e) /\
      (state e1 = REBUILDING \/
       (state e1 = STABLE /\ settled (voxels e1) (rebuildTargets e))).
Proof.
  induction nows as [|now rest IH]; intros e B Hl Hw Hst.
  - exists e. simpl. repeat split; auto.
  - destruct Hst as [Hreb | (Hstab & Hset)].
    + destruct (rebuilding_frame e now B Hreb Hl Hw)
        as (e1 & Hup & Ht1 & Hs1 & Hl1 & Hnth & Hw1 & Hdone & Hcase).
      destruct (IH e1 B) as (e2 & Hrun & Ht2 & Hs2 & Hl2 & Hw2 & Hst2).
      * rewrite Ht1, Hl1. exact Hl.
      * rewrite Ht1. exact Hw1.
      * destruct Hcase as [Hs|Hr]; [right|left; exact Hr].
        split; [exact Hs|]. rewrite Ht1.
        intros i v1 t Hv1 Ht Hr.
        destruct (nth_error (voxels e) i) as [v|] eqn:Hv.
        -- rewrite (Hnth i v t Hv Ht) in Hv1. injection Hv1 as <-.
           apply (rebuildStep_done _ t v Hr).
           apply (proj1 Hdone Hs i v t Hv Ht).
        -- apply nth_error_None in Hv.
           assert (Hi : (i < length (voxels e1))%nat).
           { apply nth_error_Some. rewrite Hv1. discriminate. }
           lia.
      * exists e2. cbn [run]. rewrite Hup. split; [exact Hrun|].
        rewrite Ht2, Hs2, Hl2, Ht1, Hs1, Hl1. rewrite Ht1 in Hw2, Hst2.
        repeat split; auto.
    + exists e. cbn [run]. unfold updatePhysics. rewrite Hstab.
      fold (updatePhysics K e now).
      split; [apply run_stable; exact Hstab|]. repeat split; auto.
Qed.

Section OneVoxel.

Variable i : nat.
Variable t : RebuildTarget (num := R).
Hypothesis Ht_assigned : isRubble t = false.

(** A voxel on its target stays there while the frames go on. *)
Lemma arrived_stays (nows : list R) :
  forall (e : VoxelEngine (num := R)) v,
    length (rebuildTargets e) = length (voxels e) ->
    nth_error (rebuildTargets e) i = Some t ->
    nth_error (voxels e) i = Some v ->
    state e <> DISMANTLING -> atTarget t v ->
    Forall (fun now => delay t <= now - rebuildStartTime e) nows ->
    exists e' v', run K e nows = Some e' /\
                  nth_error (voxels e') i = Some v' /\ atTarget t v'.
Proof.
  induction nows as [|now rest IH]; intros e v Hl Ht Hv Hst Hat Hrel.
  - exists e, v. auto.
  - inversion Hrel as [|? ? Hnow Hrest]; subst.
    destruct (state e) eqn:Hs; [|congruence|].
    + destruct (IH e v Hl Ht Hv) as (e' & v' & Hrun & Hv' & Hat').
      * rewrite Hs. discriminate.
      * exact Hat.
      * exact Hrest.
      * exists e', v'. cbn [run]. unfold updatePhysics. rewrite Hs. auto.
    + destruct (within_exists (voxels e) (rebuildTargets e)) as (B & _ & Hw).
      destruct (rebuilding_frame e now B Hs Hl Hw)
        as (e1 & Hup & Ht1 & Hs1 & Hl1 & Hnth & _ & _ & Hcase).
      pose proof (Hnth i v t Hv Ht) as Hv1.
      assert (Hat1 : atTarget t (fst (rebuildStep (now - rebuildStartTime e) t v))).
      { pose proof (atTarget_distSq t v Hat) as Hd0.
        pose proof (distSq_lerp t v) as Hl0.
        destruct (rebuildStep_cases (now - rebuildStartTime e) t v Ht_assigned)
          as [(Hw0 & E) | [(_ & Hgt & E) | (_ & _ & E)]]; rewrite E; cbn [fst].
        - lra.
        - lra.
        - apply atTarget_snap. }
      destruct (IH e1 (fst (rebuildStep (now - rebuildStartTime e) t v)))
        as (e' & v' & Hrun & Hv' & Hat').
      * rewrite Ht1, Hl1. exact Hl.
      * rewrite Ht1. exact Ht.
      * exact Hv1.
      * destruct Hcase as [H|H]; rewrite H; discriminate.
      * exact Hat1.
      * rewrite Hs1. exact Hrest.
      * exists e', v'. cbn [run]. rewrite Hup. auto.
Qed.

(** A released voxel arrives, whatever the other voxels do. *)
Lemma voxel_arrives (n : nat) :
  forall (e : VoxelEngine (num := R)) v B,
    state e = REBUILDING ->
    length (rebuildTargets e) = length (voxels e) ->
    nth_error (rebuildTargets e) i = Some t ->
    nth_error (voxels e) i = Some v ->
    distSq t v <= B ->
    (7744 / 10000) ^ (S n) * B <= 1 / 100 ->
    forall nows, (S n <= length nows)%nat ->
      Forall (fun now => delay t <= now - rebuildStartTime e) nows ->
      exists e' v', run K e nows = Some e' /\
                    nth_error (voxels e') i = Some v' /\ atTarget t v'.
Proof.
  induction n as [|n IH]; intros e v B Hst Hl Ht Hv HB Hpow nows Hn Hrel;
    (destruct nows as [|now rest]; [simpl in Hn; lia|]);
    inversion Hrel as [|? ? Hnow Hrest]; subst;
    destruct (within_exists (voxels e) (rebuildTargets e)) as (B0 & _ & Hw);
    destruct (rebuilding_frame e now B0 Hst Hl Hw)
      as (e1 & Hup & Ht1 & Hs1 & Hl1 & Hnth & _ & Hdone & Hcase);
    pose proof (Hnth i v t Hv Ht) as Hv1;
    pose proof (distSq_lerp t v) as Hl0;
    pose proof (distSq_nonneg t v) as Hnn;
    assert (Hl1' : length (rebuildTargets e1) = length (voxels e1))
      by (rewrite Ht1, Hl1; exact Hl);
    assert (Ht1' : nth_error (rebuildTargets e1) i = Some t)
      by (rewrite Ht1; exact Ht);
    assert (Hns : state e1 <> DISMANTLING)
      by (destruct Hcase as [H|H]; rewrite H; discriminate);
    assert (Hrest1 : Forall (fun now0 => delay t <= now0 - rebuildStartTime e1) rest)
      by (rewrite Hs1; exact Hrest);
    cbn [run]; rewrite Hup;
    destruct (rebuildStep_cases (now - rebuildStartTime e) t v Ht_assigned)
      as [(Hw0 & E) | [(_ & Hgt & E) | (_ & _ & E)]];
    try lra.
  - rewrite E in Hv1. cbn [fst] in Hv1.
    apply (arrived_stays rest e1 _ Hl1' Ht1' Hv1 Hns (atTarget_snap t _) Hrest1).
  - rewrite E in Hv1. cbn [fst] in Hv1.
    assert (Hreb : state e1 = REBUILDING).
    { destruct Hcase as [Hs|Hr]; [|exact Hr].
      pose proof (proj1 Hdone Hs i v t Hv Ht) as Hd. rewrite E in Hd. discriminate. }
    apply (IH e1 (lerp t v) (7744 / 10000 * B) Hreb Hl1' Ht1' Hv1).
    + rewrite Hl0. lra.
    + simpl in Hpow |- *. lra.
    + simpl in Hn. lia.
    + exact Hrest1.
  - rewrite E in Hv1. cbn [fst] in Hv1.
    apply (arrived_stays rest e1 _ Hl1' Ht1' Hv1 Hns (atTarget_snap t _) Hrest1).
Qed.

End OneVoxel.

(** C7 (in exact arithmetic).  In the Rebuilding state a frame at any time
    succeeds.  A voxel that has a target and whose delay has not elapsed
    is left as it is.  A voxel whose delay has elapsed moves, whatever the
    other voxels do: the interpolation multiplies its squared distance by
    0.88 squared; while the interpolated position is still more than 0.1
    away (squared distance above 0.01) the voxel takes that position and is
    then strictly closer to its target; otherwise it is put exactly on the
    target with zero rotation.  The state becomes Stable exactly when every
    assigned voxel is released and on its target.  For each assigned voxel
    some number of frames after its release always suffices to put it on
    its target, where it stays; and some number of frames after the last
    release always suffices for the state to be Stable with every assigned
    voxel on its target.  Both hold whatever frames came before. *)
Theorem rebuilding_converges (e : VoxelEngine (num := R)) :
  state e = REBUILDING ->
  length (rebuildTargets e) = length (voxels e) ->
  (forall now, exists e',
      updatePhysics K e now = Some e' /\
      (forall i v t,
          nth_error (voxels e) i = Some v ->
          nth_error (rebuildTargets e) i = Some t -> isRubble t = false ->
          exists v', nth_error (voxels e') i = Some v' /\
            (now - rebuildStartTime e < delay t -> v' = v) /\
            (delay t <= now - rebuildStartTime e ->
               distSq t (lerp t v) = 7744 / 10000 * distSq t v /\
               (0 < distSq t v -> sqrt (distSq t v') < sqrt (distSq t v)) /\
               (1 / 100 < distSq t (lerp t v) -> v' = lerp t v) /\
               (distSq t (lerp t v) <= 1 / 100 -> atTarget t v'))) /\
      (state e' = STABLE <->
         forall i v' t, nth_error (voxels e') i = Some v' ->
           nth_error (rebuildTargets e) i = Some t -> isRubble t = false ->
           delay t <= now - rebuildStartTime e /\ atTarget t v') /\
      (state e' = STABLE \/ state e' = REBUILDING)) /\
  (forall i v t,
      nth_error (voxels e) i = Some v ->
      nth_error (rebuildTargets e) i = Some t -> isRubble t = false ->
      exists n, forall nows1 nows2,
        (n <= length nows2)%nat ->
        Forall (fun now => delay t <= now - rebuildStartTime e) nows2 ->
        exists e' v', run K e (nows1 ++ nows2) = Some e' /\
          nth_error (voxels e') i = Some v' /\ atTarget t v') /\
  (exists n, forall nows1 nows2,
      (n <= length nows2)%nat -> Forall (released e) nows2 ->
      exists e', run K e (nows1 ++ nows2) = Some e' /\ state e' = STABLE /\
                 settled (voxels e') (rebuildTargets e)).
Proof.
  intros Hst Hl.
  destruct (within_exists (voxels e) (rebuildTargets e)) as (B & HB & Hw).
  destruct (decay_reaches B HB) as (n & Hn).
  split; [|split].
  - intros now.
    destruct (rebuilding_frame e now B Hst Hl Hw)
      as (e1 & Hup & _ & _ & Hl1 & Hnth & _ & Hdone & Hcase).
    exists e1. split; [exact Hup|]. split; [|split; [|exact Hcase]].
    + intros i v t Hv Ht Hr. eexists. split; [apply (Hnth i v t Hv Ht)|].
      pose proof (distSq_lerp t v) as Hl0.
      pose proof (distSq_nonneg t v) as Hnn.
      destruct (rebuildStep_cases (now - rebuildStartTime e) t v Hr)
        as [(Hw0 & E) | [(Hd & Hgt & E) | (Hd & Hle & E)]]; rewrite E; cbn [fst].
      * split; [reflexivity|]. intros H. lra.
      * split; [intros H; lra|]. intros _. split; [exact Hl0|]. split; [|split].
        -- intros Hpos. apply sqrt_lt_1_alt. rewrite Hl0. lra.
        -- reflexivity.
        -- intros H. lra.
      * split; [intros H; lra|]. intros _. split; [exact Hl0|]. split; [|split].
        -- intros Hpos. rewrite distSq_snap, sqrt_0. apply sqrt_lt_R0. exact Hpos.
        -- intros H. lra.
        -- intros _. apply atTarget_snap.
    + split.
      * intros Hs i v1 t Hv1 Ht Hr.
        destruct (nth_error (voxels e) i) as [v|] eqn:Hv.
        -- rewrite (Hnth i v t Hv Ht) in Hv1. injection Hv1 as <-.
           apply (rebuildStep_done _ t v Hr).
           apply (proj1 Hdone Hs i v t Hv Ht).
        -- apply nth_error_None in Hv.
           assert (Hi : (i < length (voxels e1))%nat).
           { apply nth_error_Some. rewrite Hv1. discriminate. }
           lia.
      * intros Hall. apply Hdone. intros i v t Hv Ht.
        destruct (isRubble t) eqn:Hr.
        -- unfold rebuildStep. rewrite Hr. reflexivity.
        -- apply (rebuildStep_done _ t v Hr).
           apply (Hall i _ t (Hnth i v t Hv Ht) Ht Hr).
  - intros i v t Hv Ht Hr.
    exists (S n). intros nows1 nows2 Hlen Hrel.
    destruct (run_any nows1 e B Hl Hw (or_introl Hst))
      as (e1 & Hrun1 & Ht1 & Hs1 & Hl1 & Hw1 & Hst1).
    rewrite run_app, Hrun1.
    assert (Hl1' : length (rebuildTargets e1) = length (voxels e1))
      by (rewrite Ht1, Hl1; exact Hl).
    assert (Ht1' : nth_error (rebuildTargets e1) i = Some t)
      by (rewrite Ht1; exact Ht).
    assert (Hrel1 : Forall (fun now => delay t <= now - rebuildStartTime e1) nows2)
      by (rewrite Hs1; exact Hrel).
    destruct (nth_error (voxels e1) i) as [v1|] eqn:Hv1.
    + destruct Hst1 as [Hreb | (Hstab & Hset)].
      * apply (voxel_arrives i t Hr n e1 v1 B Hreb Hl1' Ht1' Hv1
                 (Hw1 i v1 t Hv1 Ht Hr) Hn nows2 Hlen Hrel1).
      * apply (arrived_stays i t Hr nows2 e1 v1 Hl1' Ht1' Hv1).
        -- rewrite Hstab. discriminate.
        -- apply (Hset i v1 t Hv1 Ht Hr).
        -- exact Hrel1.
    + apply nth_error_None in Hv1.
      assert (Hi : (i < length (voxels e))%nat).
      { apply nth_error_Some. rewrite Hv. discriminate. }
      lia.
  - exists (S n). intros nows1 nows2 Hlen Hrel.
    destruct (run_any nows1 e B Hl Hw (or_introl Hst))
      as (e1 & Hrun1 & Ht1 & Hs1 & Hl1 & Hw1 & Hst1).
    rewrite run_app, Hrun1.
    destruct Hst1 as [Hreb | (Hstab & Hset)].
    + destruct (run_converges n e1 B Hreb) with (nows := nows2)
        as (e' & Hrun & Hst' & _ & Hset').
      * rewrite Ht1, Hl1. exact Hl.
      * exact HB.
      * rewrite Ht1. exact Hw1.
      * exact Hn.
      * exact Hlen.
      * eapply Forall_impl; [|exact Hrel].
        intros now' Hr'. unfold released in *. rewrite Ht1, Hs1. exact Hr'.
      * exists e'. rewrite Ht1 in Hset'. auto.
    + exists e1. split; [apply run_stable; exact Hstab|]. auto.
Qed.

End RealRebuild.

Lemma rebuilding_converges_witness :
  state (staggeredScene (num := R)) = REBUILDING /\
  length (rebuildTargets (staggeredScene (num := R)))
    = length (voxels (staggeredScene (num := R))) /\
  (exists n, forall nows1 nows2,
     (n <= length nows2)%nat ->
     Forall (fun now => 0 <= now - 0)%R nows2 ->
     exists e' v',
       run samplePalette staggeredScene (nows1 ++ nows2) = Some e' /\
       nth_error (voxels e') 0 = Some v' /\
       (x v' = 10 /\ y v' = 0 /\ z v' = 0 /\ rx v' = 0 /\ ry v' = 0 /\ rz v' = 0)%R) /\
  (exists n, forall nows1 nows2,
     (n <= length nows2)%nat -> Forall (released staggeredScene) nows2 ->
     exists e', run samplePalette staggeredScene (nows1 ++ nows2) = Some e' /\
                state e' = STABLE /\
                settled (voxels e') (rebuildTargets staggeredScene)).
Proof.
  split; [reflexivity|]. split; [reflexivity|].
  destruct (rebuilding_converges samplePalette staggeredScene eq_refl eq_refl)
    as (_ & Hone & Hfin).
  split; [|exact Hfin].
  exact (Hone 0%nat _ _ eq_refl eq_refl eq_refl).
Defined.

(** The same scenario on binary64, sixteen milliseconds a frame: after 36
    frames the voxel is still on its way, the 37th puts it exactly on
    (10, 0, 0) with zero rotation and sets the state to Stable. *)
Lemma flyingScene_run_binary64 :
  option_map (fun e => (state e, map (fun v => (x v, y v, z v, rx v, ry v, rz v)) (voxels e)))
    (run palette flyingScene (map (fun k => nofZ (16 * Z.of_nat k)) (seq 1 37)))
  = Some (STABLE, [(nofZ 10, nofZ 0, nofZ 0, nofZ 0, nofZ 0, nofZ 0)]) /\
  option_map state
    (run palette flyingScene (map (fun k => nofZ (16 * Z.of_nat k)) (seq 1 36)))
  = Some REBUILDING.
Proof. vm_compute. split; reflexivity. Qed.

(** The staggered scene on binary64: after 50 frames the first voxel is on
    its target while the second still waits at its place, and the state is
    Rebuilding; after 100 frames both are on their targets, the rubble
    voxel has not moved, and the state is Stable. *)
Lemma staggeredScene_run_binary64 :
  option_map (fun e => (state e, map (fun v => (x v, y v, z v)) (voxels e)))
    (run palette staggeredScene (frameTimes 1 50))
  = Some (REBUILDING, [(nofZ 10, nofZ 0, nofZ 0); (nofZ 1, nofZ 0, nofZ 0);
                       (nofZ 2, nofZ 0, nofZ 0)]) /\
  option_map (fun e => (state e, map (fun v => (x v, y v, z v)) (voxels e)))
    (run palette staggeredScene (frameTimes 1 100))
  = Some (STABLE, [(nofZ 10, nofZ 0, nofZ 0); (nofZ 0, nofZ 5, nofZ 0);
                   (nofZ 2, nofZ 0, nofZ 0)]).
Proof. vm_compute. split; reflexivity. Qed.

(** C7, as the specification states it, on binary64.  With the target at
    x = 10^15 the voxel comes to 999999999999999.5 within 300 frames.
    There the step 0.5 * 0.12 is less than half the spacing of doubles
    (0.125), so the addition returns the old position: the squared
    distance stays 0.25, above 0.01, the voxel is never put on its target,
    and the state is Rebuilding after 300 frames, after 3300 frames, and
    after any further frame. *)
Lemma rebuilding_hangs_binary64 :
  state far_scene = REBUILDING /\
  run palette far_scene (frameTimes 1 300) = Some stuck_scene /\
  run palette far_scene (frameTimes 1 3300) = Some stuck_scene /\
  updatePhysics palette stuck_scene (nofZ (16 * 301)) = Some stuck_scene /\
  map (fun v => x v) (voxels stuck_scene) = [dec 1999999999999999 2] /\
  map (fun t => rt_x t) (rebuildTargets stuck_scene) = [nofZ (10 ^ 15)].
Proof. vm_compute. repeat split; reflexivity. Qed.

(** ** A frame that changes nothing changes nothing later either *)

Section FixedPoint.

Context {num : Type} {N : JSNumber num}.
Local Open Scope js_scope.
Variable K : Constants (num := num).

(** The loop reads the time only in the test [elapsed < t.delay]. *)
Lemma rebuildStep_time (elapsed elapsed' : num) t (v : SimulationVoxel) :
  (elapsed' <? delay t) = (elapsed <? delay t) ->
  rebuildStep elapsed' t v = rebuildStep elapsed t v.
Proof. intros H. unfold rebuildStep. rewrite H. reflexivity. Qed.

Lemma rebuildAll_time (elapsed elapsed' : num) :
  forall (vs : list SimulationVoxel) ts,
    (forall t, In t ts -> (elapsed' <? delay t) = (elapsed <? delay t)) ->
    rebuildAll elapsed' vs ts = rebuildAll elapsed vs ts.
Proof.
  induction vs as [|v vs IH]; intros ts H; [reflexivity|].
  destruct ts as [|t ts]; [reflexivity|].
  cbn [rebuildAll]. rewrite (IH ts) by (intros t' Ht'; apply H; right; exact Ht').
  rewrite (rebuildStep_time elapsed elapsed' t v) by (apply H; left; reflexivity).
  reflexivity.
Qed.

(** A Rebuilding engine that one frame leaves as it is stays as it is in
    every frame at which the same voxels are released. *)
Lemma run_fixed_point (e : VoxelEngine) (now : num) (nows : list num) :
  state e = REBUILDING ->
  updatePhysics K e now = Some e ->
  Forall (fun now' =>
            forall t, In t (rebuildTargets e) ->
              (now' - rebuildStartTime e <? delay t)
              = (now - rebuildStartTime e <? delay t)) nows ->
  run K e nows = Some e.
Proof.
  intros Hst Hfix Hall. induction Hall as [|now' rest Hnow' _ IH]; [reflexivity|].
  cbn [run].
  assert (E : updatePhysics K e now' = updatePhysics K e now).
  { unfold updatePhysics. rewrite Hst.
    rewrite (rebuildAll_time (now - rebuildStartTime e) (now' - rebuildStartTime e)
               (voxels e) (rebuildTargets e) Hnow').
    reflexivity. }
  rewrite E, Hfix. exact IH.
Qed.

End FixedPoint.

(** The voxel of [stuck_scene] never arrives: any frames at times that are
    not before the start of the rebuild leave the scene as it is. *)
Lemma stuck_scene_for_ever (nows : list float) :
  Forall (fun now => PrimFloat.ltb (PrimFloat.sub now (nofZ 0)) (nofZ 0) = false) nows ->
  run palette stuck_scene nows = Some stuck_scene.
Proof.
  intros H.
  apply (run_fixed_point palette stuck_scene (nofZ (16 * 301)) nows).
  - reflexivity.
  - vm_compute. reflexivity.
  - eapply Forall_impl; [|exact H].
    intros now Hnow t [<-|[]].
    change (PrimFloat.ltb (PrimFloat.sub now (nofZ 0)) (nofZ 0)
            = PrimFloat.ltb (PrimFloat.sub (nofZ (16 * 301)) (nofZ 0)) (nofZ 0)).
    rewrite Hnow. vm_compute. reflexivity.
Qed.

(** ** JSON import, in every number model *)

(** All characters are hexadecimal digits. *)
Fixpoint allHex (s : string) : bool :=
  match s with
  | EmptyString => true
  | String c rest =>
      match hexVal c with
      | Some _ => allHex rest
      | None => false
      end
  end.

Lemma hexVal_plain (c : ascii) (d : Z) :
  hexVal c = Some d ->
  isWhiteSpace c = false /\ Ascii.eqb c "-" = false /\ Ascii.eqb c "+" = false /\
  Ascii.eqb c "x" = false /\ Ascii.eqb c "X" = false /\ Ascii.eqb c "#" = false.
Proof.
  destruct c as [[] [] [] [] [] [] [] []]; vm_compute; intros H;
    try discriminate; repeat split; reflexivity.
Qed.

Lemma hexVal_range (c : ascii) (d : Z) : hexVal c = Some d -> (0 <= d < 16)%Z.
Proof.
  destruct c as [[] [] [] [] [] [] [] []]; intros H; vm_compute in H;
    try discriminate; injection H as <-; lia.
Qed.

Lemma hexVal_hexDigit (d : Z) : (0 <= d < 16)%Z -> hexVal (hexDigit d) = Some d.
Proof.
  intros H.
  assert (E : (d = 0 \/ d = 1 \/ d = 2 \/ d = 3 \/ d = 4 \/ d = 5 \/ d = 6 \/
               d = 7 \/ d = 8 \/ d = 9 \/ d = 10 \/ d = 11 \/ d = 12 \/ d = 13 \/
               d = 14 \/ d = 15)%Z) by lia.
  repeat (destruct E as [->|E]; [reflexivity|]). subst; reflexivity.
Qed.

Lemma parseDigits16_app (s1 s2 : string) :
  allHex s1 = true ->
  forall acc, parseDigits16 (s1 ++ s2) acc = parseDigits16 s2 (parseDigits16 s1 acc).
Proof.
  induction s1 as [|c s1 IH]; intros H acc; simpl in *; auto.
  destruct (hexVal c); [|discriminate]. apply IH; exact H.
Qed.

Lemma allHex_app (s1 s2 : string) :
  allHex (s1 ++ s2) = (allHex s1 && allHex s2)%bool.
Proof.
  induction s1 as [|c s1 IH]; simpl; auto.
  destruct (hexVal c); auto.
Qed.

Section JsonFacts.

Context {num : Type} {N : JSNumber num}.
Local Open Scope string_scope.
Variable StringToNumber : string -> jsnumber (num := num).
Variable NumberToString : num -> string.

(** [parseInt(s, 16)] of a non-empty string of hexadecimal digits is the
    number the digits spell. *)
Lemma parseInt16_allHex (s : string) :
  allHex s = true -> s <> "" ->
  parseInt16 s = Number (nofZ (parseDigits16 s 0)).
Proof.
  intros H Hne. destruct s as [|c rest]; [congruence|].
  simpl in H. destruct (hexVal c) as [d|] eqn:Hc; [|discriminate].
  destruct (hexVal_plain c d Hc) as (Hw & Hm & Hp & _).
  unfold parseInt16. cbn [trimStart]. rewrite Hw, Hm, Hp.
  assert (E : match String c rest with
              | String c0 (String c1 rest0) =>
                  if (Ascii.eqb c0 "0" && (Ascii.eqb c1 "x" || Ascii.eqb c1 "X"))%bool
                  then rest0 else String c rest
              | _ => String c rest
              end = String c rest).
  { destruct rest as [|c1 rest1]; auto. simpl in H.
    destruct (hexVal c1) as [d1|] eqn:Hc1; [|discriminate].
    destruct (hexVal_plain c1 d1 Hc1) as (_ & _ & _ & Hx & HX & _).
    rewrite Hx, HX, andb_false_r. reflexivity. }
  rewrite E, Hc. rewrite Z.mul_1_l. reflexivity.
Qed.

(** A colour string, with or without the leading [#]. *)
Lemma importColor_hex (c color : value) (s : string) :
  allHex s = true -> s <> "" ->
  (if truthy c then c else color) = Str s \/
  (if truthy c then c else color) = Str ("#" ++ s) ->
  importColor c color = nofZ (parseDigits16 s 0).
Proof.
  intros H Hne Hcv. unfold importColor.
  destruct Hcv as [-> | ->].
  - destruct s as [|ch rest]; [congruence|].
    assert (Hh : Ascii.eqb ch "#" = false).
    { simpl in H. destruct (hexVal ch) as [d|] eqn:Hc; [|discriminate].
      apply (hexVal_plain ch d Hc). }
    rewrite Hh. rewrite (parseInt16_allHex _ H Hne). reflexivity.
  - cbn [append]. change (Ascii.eqb "#" "#") with true. cbv iota.
    rewrite (parseInt16_allHex _ H Hne). reflexivity.
Qed.











End JsonFacts.


(** A no-break space before the digits is skipped like any white space. *)
Lemma parseInt16_no_break_space :
  parseInt16 (num := float) (String (ascii_of_nat 160) "ff") = Number (nofZ 255).
Proof. vm_compute. reflexivity. Qed.


(** ** Hexadecimal printing and reading are inverse *)

Lemma string_length_app (s1 s2 : string) :
  String.length (s1 ++ s2) = (String.length s1 + String.length s2)%nat.
Proof. induction s1 as [|c s1 IH]; simpl; auto. Qed.

Lemma toString16_fuel_spec (fuel : nat) :
  forall (k : nat) (n : Z),
    (1 <= fuel)%nat -> (1 <= k)%nat ->
    (0 <= n < 16 ^ Z.of_nat fuel)%Z -> (n < 16 ^ Z.of_nat k)%Z ->
    allHex (toString16_fuel fuel n) = true /\
    toString16_fuel fuel n <> EmptyString /\
    (String.length (toString16_fuel fuel n) <= k)%nat /\
    parseDigits16 (toString16_fuel fuel n) 0 = n.
Proof.
  induction fuel as [|f IH]; intros k n Hfuel Hk Hf Hn.
  - lia.
  - cbn [toString16_fuel]. destruct (n <? 16)%Z eqn:Hlt.
    + apply Z.ltb_lt in Hlt. simpl.
      rewrite (hexVal_hexDigit n) by lia. repeat split; auto; try lia.
      discriminate.
    + apply Z.ltb_ge in Hlt.
      assert (Hf1 : (1 <= f)%nat).
      { destruct f; try lia; simpl in Hf; lia. }
      assert (Hk2 : (2 <= k)%nat).
      { destruct k as [|[|k]]; try lia; simpl in Hn; lia. }
      rewrite Nat2Z.inj_succ, Z.pow_succ_r in Hf by lia.
      assert (Ek : Z.of_nat k = Z.succ (Z.of_nat (k - 1))) by lia.
      rewrite Ek, Z.pow_succ_r in Hn by lia.
      destruct (IH (k - 1)%nat (n / 16)%Z) as (Ha & Hne & Hl & Hp).
      * lia.
      * lia.
      * split; [apply Z.div_pos; lia|apply Z.div_lt_upper_bound; lia].
      * apply Z.div_lt_upper_bound; lia.
      * pose proof (Z.mod_pos_bound n 16 eq_refl) as Hm.
        rewrite allHex_app, Ha. simpl.
        rewrite (hexVal_hexDigit (n mod 16)) by lia.
        split; [reflexivity|]. split.
        { destruct (toString16_fuel f (n / 16)); [congruence|discriminate]. }
        split.
        { rewrite string_length_app. simpl. lia. }
        rewrite parseDigits16_app by exact Ha. rewrite Hp. simpl.
        rewrite (hexVal_hexDigit (n mod 16)) by lia.
        pose proof (Z.div_mod n 16). lia.
Qed.

Lemma toString16_spec (h : Z) :
  (0 <= h < 2 ^ 24)%Z ->
  allHex (toString16 h) = true /\ toString16 h <> EmptyString /\
  (String.length (toString16 h) <= 6)%nat /\
  parseDigits16 (toString16 h) 0 = h.
Proof.
  intros Hh. unfold toString16.
  destruct (h <? 0)%Z eqn:Hneg; [apply Z.ltb_lt in Hneg; lia|].
  apply toString16_fuel_spec; [lia|lia| |].
  - split; [lia|].
    destruct (Z.eq_dec h 0) as [->|Hnz]; [reflexivity|].
    assert (Hlog : (h < 2 ^ Z.succ (Z.log2 h))%Z) by (apply Z.log2_spec; lia).
    pose proof (Z.log2_nonneg h) as Hl0.
    rewrite Nat2Z.inj_succ, Z2Nat.id by lia.
    eapply Z.lt_le_trans; [exact Hlog|].
    apply Z.pow_le_mono_l. lia.
  - change (16 ^ Z.of_nat 6)%Z with (2 ^ 24)%Z. lia.
Qed.

(** [('000000' + s).slice(-6)] pads a short digit string with zeros. *)
Lemma slice_last6_pad (s : string) :
  s <> EmptyString -> (String.length s <= 6)%nat ->
  exists z, slice_last6 ("000000" ++ s) = (z ++ s)%string /\
            allHex z = true /\ parseDigits16 z 0 = 0%Z.
Proof.
  intros Hne Hl.
  destruct s as [|c1 [|c2 [|c3 [|c4 [|c5 [|c6 [|c7 s]]]]]]];
    simpl in Hl; try lia; try congruence.
  - exists "00000"%string. repeat split; reflexivity.
  - exists "0000"%string. repeat split; reflexivity.
  - exists "000"%string. repeat split; reflexivity.
  - exists "00"%string. repeat split; reflexivity.
  - exists "0"%string. repeat split; reflexivity.
  - exists ""%string. repeat split; reflexivity.
Qed.

Section HexRoundTrip.

Context {num : Type} {N : JSNumber num}.

(** The string [getHexString] prints reads back as the value of [getHex],
    whenever that value is a 24-bit colour. *)
Lemma getHexString_reads_back (c : Color) :
  (0 <= getHex c < 2 ^ 24)%Z ->
  exists s, getHexString c = s /\ allHex s = true /\ s <> EmptyString /\
            String.length s = 6%nat /\ parseDigits16 s 0 = getHex c.
Proof.
  intros Hh. destruct (toString16_spec (getHex c) Hh) as (Ha & Hne & Hl & Hp).
  destruct (slice_last6_pad (toString16 (getHex c)) Hne Hl) as (z & Hz & Hza & Hzp).
  unfold getHexString. rewrite Hz. eexists. split; [reflexivity|].
  split; [rewrite allHex_app, Hza, Ha; reflexivity|].
  split; [destruct z; simpl; [exact Hne|discriminate]|].
  split.
  - rewrite <- Hz. unfold slice_last6.
    clear - Hne Hl.
    destruct (toString16 (getHex c)) as [|c1 [|c2 [|c3 [|c4 [|c5 [|c6 [|c7 s]]]]]]];
      simpl in Hl; try lia; try congruence; reflexivity.
  - rewrite parseDigits16_app by exact Hza. rewrite Hzp. exact Hp.
Qed.

End HexRoundTrip.

(** ** Export followed by import (exact arithmetic) *)

Lemma exp_le_mono (u v : R) : (u <= v -> exp u <= exp v)%R.
Proof.
  intros [H| ->]; [left; apply exp_increasing; exact H|right; reflexivity].
Qed.

Lemma ln_le_mono (u v : R) : (0 < u -> u <= v -> ln u <= ln v)%R.
Proof.
  intros Hu [H| ->]; [left; apply ln_increasing; assumption|right; reflexivity].
Qed.

(** A lower bound on a power with exponent 2.4, by integer powers. *)
Lemma Rpower_24_lower (a u : R) :
  (0 < a -> 0 < u -> a ^ 5 <= u ^ 12 -> a <= Rpower u (24 / 10))%R.
Proof.
  intros Ha Hu H.
  assert (Hl : (ln (a ^ 5) <= ln (u ^ 12))%R).
  { apply ln_le_mono; [apply pow_lt; exact Ha|exact H]. }
  rewrite (ln_pow a Ha 5), (ln_pow u Hu 12) in Hl.
  assert (E5 : INR 5 = 5%R) by (simpl; lra).
  assert (E12 : INR 12 = 12%R) by (simpl; lra).
  rewrite ?E5, ?E12 in Hl.
  rewrite <- (exp_ln a Ha) at 1. unfold Rpower. apply exp_le_mono. lra.
Qed.

(** Raising to 2.4 and then to 0.41666 is the identity up to 0.02 percent. *)
Lemma Rpower_back (B : R) :
  (93 / 1000 <= B <= 1 ->
   B <= Rpower (Rpower B (24 / 10)) (41666 / 100000) <= B * (10002 / 10000))%R.
Proof.
  intros [HB0 HB1]. assert (HB : (0 < B)%R) by lra.
  rewrite Rpower_mult.
  replace (24 / 10 * (41666 / 100000))%R with (1 + - (16 / 1000000))%R by field.
  rewrite Rpower_plus, (Rpower_1 B HB). unfold Rpower.
  set (u := (- (16 / 1000000) * ln B)%R).
  assert (Hln0 : (ln B <= 0)%R).
  { rewrite <- ln_1. apply ln_le_mono; lra. }
  assert (Hln1 : (- ln B <= / B - 1)%R).
  { pose proof (exp_ineq1_le (- ln B)) as H.
    rewrite exp_Ropp, (exp_ln B HB) in H. lra. }
  assert (HiB : (/ B <= 1000 / 93)%R).
  { replace (1000 / 93)%R with (/ (93 / 1000))%R by field.
    apply Rinv_le_contravar; lra. }
  assert (Hu : (0 <= u <= 16 / 100000)%R).
  { unfold u. split; nra. }
  assert (He1 : (1 <= exp u)%R).
  { pose proof (exp_ineq1_le u). lra. }
  assert (He2 : (exp u <= 10002 / 10000)%R).
  { pose proof (exp_ineq1_le (- u)) as H. rewrite exp_Ropp in H.
    pose proof (exp_pos u) as Hp.
    assert (H1 : (1 <= / exp u * (10002 / 10000))%R) by nra.
    apply (Rmult_le_compat_l (exp u)) in H1; [|lra].
    rewrite <- Rmult_assoc, Rinv_r, Rmult_1_l, Rmult_1_r in H1 by lra.
    exact H1. }
  split.
  - replace B with (B * 1)%R at 1 by ring. apply Rmult_le_compat_l; lra.
  - apply Rmult_le_compat_l; lra.
Qed.

Section RealJson.

Local Open Scope R_scope.
Variable StringToNumber : string -> jsnumber (num := R).
Variable NumberToString : R -> string.
Variable offsetHSL : Color (num := R) -> R -> R -> R -> Color (num := R).
Variable random : nat -> R.

(** [Math.round] of a number within a half of an integer. *)
Lemma round_near (v : R) (n : Z) :
  IZR n - 1 / 2 <= v < IZR n + 1 / 2 -> round v = n.
Proof.
  intros H. unfold round. cbn [nroundScaled Real].
  symmetry. apply Int_part_spec. lra.
Qed.

Lemma clamp_real (v : R) :
  0 <= clamp v 0 255 <= 255 /\
  (0 <= v <= 255 -> clamp v 0 255 = v) /\
  (255 <= v -> clamp v 0 255 = 255).
Proof.
  unfold clamp. cbn [nmax nmin Real]. unfold Rmax, Rmin.
  destruct (Rle_dec 255 v); destruct (Rle_dec 0 255); destruct (Rle_dec 0 v);
    repeat split; intros; lra.
Qed.

Lemma channelByte_range (v : R) : (0 <= channelByte v <= 255)%Z.
Proof.
  unfold channelByte, round. cbn [nmul nofZ nroundScaled Real].
  set (cl := clamp (LinearToSRGB v * 255) 0 255).
  assert (Hc : 0 <= cl <= 255) by apply clamp_real.
  destruct (base_Int_part (1 * cl + 1 / 2)) as [H1 H2].
  split.
  - assert (H : (-1 < Int_part (1 * cl + 1 / 2))%Z) by (apply lt_IZR; lra). lia.
  - assert (H : (Int_part (1 * cl + 1 / 2) < 256)%Z) by (apply lt_IZR; lra). lia.
Qed.

Lemma getHex_range (c : Color (num := R)) : (0 <= getHex c < 2 ^ 24)%Z.
Proof.
  unfold getHex.
  pose proof (channelByte_range (r c)). pose proof (channelByte_range (g c)).
  pose proof (channelByte_range (b c)).
  change (2 ^ 24)%Z with 16777216%Z. lia.
Qed.

(** A byte survives the conversion to a linear channel and back: the two
    transfer functions are inverse to within a twentieth of a step. *)
Lemma sRGB_byte_round_trip (n : Z) :
  (0 <= n <= 255)%Z -> channelByte (SRGBToLinear (IZR n / 255)) = n.
Proof.
  intros [Hn0 Hn1]. unfold channelByte. cbn [nmul nofZ Real].
  apply round_near.
  pose proof (IZR_le _ _ Hn0) as R0. pose proof (IZR_le _ _ Hn1) as R1.
  unfold SRGBToLinear, dec. cbn [nadd nmul ndiv nofZ nltb npow Real].
  destruct (Rltb (IZR n / 255) (4045 / 100000)) eqn:E.
  - apply Rltb_true in E.
    assert (Hn : (n <= 10)%Z).
    { assert (H : (n < 11)%Z) by (apply lt_IZR; lra). lia. }
    apply IZR_le in Hn.
    unfold LinearToSRGB, dec. cbn [nadd nsub nmul ndiv nofZ nltb npow Real].
    assert (El : Rltb (IZR n / 255 * (773993808 / 10000000000))
                      (31308 / 10000000) = true) by (apply Rltb_true; lra).
    rewrite El.
    destruct (clamp_real (IZR n / 255 * (773993808 / 10000000000)
                          * (1292 / 100) * 255)) as (_ & Hid & _).
    rewrite Hid by lra. lra.
  - apply Rltb_false in E.
    assert (Hn : (11 <= n)%Z).
    { assert (H : (10 < n)%Z) by (apply lt_IZR; lra). lia. }
    apply IZR_le in Hn.
    set (B := IZR n / 255 * (9478672986 / 10000000000)
              + 521327014 / 10000000000).
    assert (HB : 93 / 1000 <= B <= 1) by (unfold B; lra).
    assert (Hlow : 31308 / 10000000 <= Rpower B (24 / 10)).
    { apply Rpower_24_lower; [lra|lra|].
      apply Rle_trans with ((93 / 1000) ^ 12); [simpl; lra|].
      apply pow_incr. lra. }
    unfold LinearToSRGB, dec. cbn [nadd nsub nmul ndiv nofZ nltb npow Real].
    assert (El : Rltb (Rpower B (24 / 10)) (31308 / 10000000) = false)
      by (apply Rltb_false; exact Hlow).
    rewrite El.
    destruct (Rpower_back B HB) as [P0 P1].
    set (P := Rpower (Rpower B (24 / 10)) (41666 / 100000)) in *.
    set (val := (1055 / 1000 * P - 55 / 1000) * 255).
    assert (Hval : IZR n - 1 / 100 <= val <= IZR n + 1 / 10).
    { unfold val, B in *. lra. }
    destruct (clamp_real val) as (Hr & Hid & Htop).
    destruct (Rle_dec val 255) as [Hle|Hgt].
    + rewrite Hid by lra. lra.
    + rewrite Htop by lra. lra.
Qed.

(** Rounding to two decimals moves a coordinate by at most 0.005. *)
Lemma toFixed2_close (v : R) : Rabs (toFixed2 v - v) <= 1 / 200.
Proof.
  assert (Hpos : forall a, 0 <= a ->
            Rabs ((if Rltb a (IZR (10 ^ 21))
                   then IZR (Int_part (100 * a + 1 / 2)) / 100 else a) - a)
            <= 1 / 200).
  { intros a Ha. destruct (Rltb a (IZR (10 ^ 21))).
    - destruct (base_Int_part (100 * a + 1 / 2)) as [H1 H2].
      apply Rabs_le. lra.
    - replace (a - a) with 0 by ring. rewrite Rabs_R0. lra. }
  unfold toFixed2. cbv zeta.
  cbn [nsub nmul nofZ nltb nroundScaled nquot Real].
  destruct (Rltb v 0) eqn:Hv.
  - apply Rltb_true in Hv. specialize (Hpos (0 - v)).
    assert (Ha : 0 <= 0 - v) by lra. specialize (Hpos Ha).
    set (m := if Rltb (0 - v) (IZR (10 ^ 21))
              then IZR (Int_part (100 * (0 - v) + 1 / 2)) / 100 else 0 - v) in *.
    replace (-1 * m - v) with (- (m - (0 - v))) by ring.
    rewrite Rabs_Ropp. exact Hpos.
  - apply Rltb_false in Hv. apply Hpos. exact Hv.
Qed.

(** Every real is finite: [JSON.stringify] and [JSON.parse] keep it. *)
Lemma jsonNumber_real (v : R) : jsonNumber v = Num v.
Proof.
  unfold jsonNumber. cbn [nsub nofZ neqb Real].
  assert (E : Reqb (v - v) 0 = true) by (apply Reqb_true; ring).
  rewrite E. destruct (Reqb v 0) eqn:E0; [|reflexivity].
  apply Reqb_true in E0. rewrite E0. reflexivity.
Qed.


(** A packed colour survives [new THREE.Color(hex).getHex()]. *)
Lemma getHex_THREE_Color (h : Z) :
  (0 <= h < 2 ^ 24)%Z -> getHex (THREE_Color (IZR h)) = h.
Proof.
  intros Hh.
  assert (Hland : forall n, (0 <= Z.land n 255 <= 255)%Z).
  { intros n. assert (E : Z.land n 255 = (n mod 256)%Z).
    { change 255%Z with (Z.ones 8). rewrite Z.land_ones by lia. reflexivity. }
    pose proof (Z.mod_pos_bound n 256 eq_refl). lia. }
  unfold getHex, THREE_Color. cbn [r g b nfloor nofZ ndiv Real].
  assert (Ei : Int_part (IZR h) = h).
  { symmetry. apply Int_part_spec. lra. }
  rewrite Ei. rewrite !sRGB_byte_round_trip by apply Hland.
  change 255%Z with (Z.ones 8). rewrite !Z.land_ones by lia.
  rewrite !Z.shiftr_div_pow2 by lia.
  change (2 ^ 8)%Z with 256%Z. change (2 ^ 16)%Z with 65536%Z.
  change (2 ^ 24)%Z with 16777216%Z in Hh.
  pose proof (Z.div_mod h 65536). pose proof (Z.mod_pos_bound h 65536 eq_refl).
  pose proof (Z.div_mod h 256). pose proof (Z.mod_pos_bound h 256 eq_refl).
  assert (E1 : (h / 65536 mod 256 = h / 65536)%Z).
  { apply Z.mod_small. split; [apply Z.div_pos; lia|].
    apply Z.div_lt_upper_bound; lia. }
  assert (E2 : (h / 256 mod 256 = (h mod 65536) / 256)%Z).
  { replace 65536%Z with (256 * 256)%Z by reflexivity.
    rewrite Z.rem_mul_r by lia.
    rewrite Z.mul_comm, Z.div_add by lia.
    rewrite (Z.div_small (h mod 256)) by (apply Z.mod_pos_bound; lia). lia. }
  assert (E3 : (h mod 256 = (h mod 65536) mod 256)%Z).
  { replace 65536%Z with (256 * 256)%Z by reflexivity.
    rewrite Z.rem_mul_r by lia.
    rewrite Z.mul_comm, Z.mod_add by lia. rewrite Z.mod_mod by lia. reflexivity. }
  rewrite E1, E2, E3.
  pose proof (Z.div_mod (h mod 65536) 256). lia.
Qed.




End RealJson.


(** * Further properties of the engine *)

(** ** Lifecycle, in every number model *)

Section LifecycleFacts.

Context {num : Type} {N : JSNumber num}.
Local Open Scope js_scope.
Variable K : Constants (num := num).

(** X1.  [dismantle] acts in the Stable state only; there it switches to
    Dismantling and replaces the velocities of every voxel by values drawn
    from six calls of [Math.random()] per voxel, in the order of the
    source: [(u - 0.5) * 0.8] for [vx] and [vz], [u * 0.5] for [vy] and
    [(u - 0.5) * 0.2] for the three rotation speeds; the number of voxels
    and each voxel's id, position, rotation and colour stay as they were.
    A second call in a row changes nothing. *)
Theorem dismantle_effect (e : VoxelEngine) (random random' : nat -> num) :
  (state e <> STABLE -> dismantle e random = e) /\
  (state e = STABLE ->
     state (dismantle e random) = DISMANTLING /\
     rebuildTargets (dismantle e random) = rebuildTargets e /\
     length (voxels (dismantle e random)) = length (voxels e) /\
     forall i v, nth_error (voxels e) i = Some v ->
       exists v', nth_error (voxels (dismantle e random)) i = Some v' /\
         id v' = id v /\ color v' = color v /\
         x v' = x v /\ y v' = y v /\ z v' = z v /\
         rx v' = rx v /\ ry v' = ry v /\ rz v' = rz v /\
         vx v' = (random (6 * i)%nat - dec 5 10) * dec 8 10 /\
         vy v' = random (6 * i + 1)%nat * dec 5 10 /\
         vz v' = (random (6 * i + 2)%nat - dec 5 10) * dec 8 10 /\
         rvx v' = (random (6 * i + 3)%nat - dec 5 10) * dec 2 10 /\
         rvy v' = (random (6 * i + 4)%nat - dec 5 10) * dec 2 10 /\
         rvz v' = (random (6 * i + 5)%nat - dec 5 10) * dec 2 10) /\
  dismantle (dismantle e random) random' = dismantle e random.
Proof.
  split; [|split].
  - intros H. unfold dismantle. destruct (state e); congruence.
  - intros H. unfold dismantle. rewrite H. cbn [state rebuildTargets voxels].
    split; [reflexivity|]. split; [reflexivity|].
    split; [apply mapi_length|].
    intros i v Hv. rewrite nth_error_mapi, Hv. eexists. split; [reflexivity|].
    cbn. repeat split; reflexivity.
  - unfold dismantle at 1. destruct (state e) eqn:Hs.
    + unfold dismantle. rewrite Hs. reflexivity.
    + unfold dismantle. rewrite Hs. rewrite Hs. reflexivity.
    + unfold dismantle. rewrite Hs. rewrite Hs. reflexivity.
Qed.

Lemma rebuildStep_identity elapsed t (v : SimulationVoxel) :
  id (fst (rebuildStep elapsed t v)) = id v /\
  color (fst (rebuildStep elapsed t v)) = color v /\
  vx (fst (rebuildStep elapsed t v)) = vx v /\
  vy (fst (rebuildStep elapsed t v)) = vy v /\
  vz (fst (rebuildStep elapsed t v)) = vz v.
Proof.
  unfold rebuildStep.
  destruct (isRubble t); [repeat split; reflexivity|].
  destruct (elapsed <? delay t); [repeat split; reflexivity|].
  destruct (distSq t (lerp t v) >? dec 1 100); repeat split; reflexivity.
Qed.

(** The loop of the Rebuilding state, index by index. *)
Lemma rebuildAll_nth elapsed :
  forall (vs : list SimulationVoxel) ts vs' allDone,
    rebuildAll elapsed vs ts = Some (vs', allDone) ->
    length vs' = length vs /\ (length vs <= length ts)%nat /\
    forall i v, nth_error vs i = Some v ->
      exists t, nth_error ts i = Some t /\
        nth_error vs' i = Some (fst (rebuildStep elapsed t v)) /\
        (snd (rebuildStep elapsed t v) = false -> allDone = false).
Proof.
  induction vs as [|v vs IH]; intros ts vs' allDone H.
  - simpl in H. injection H as <- <-. split; [reflexivity|].
    split; [simpl; lia|]. intros [|i] v Hv; discriminate.
  - destruct ts as [|t ts]; [discriminate|]. cbn [rebuildAll] in H.
    destruct (rebuildAll elapsed vs ts) as [[out d]|] eqn:Hrec; [|discriminate].
    destruct (rebuildStep elapsed t v) as [v1 d1] eqn:Hstep.
    injection H as <- <-.
    destruct (IH ts out d Hrec) as (Hl & Hlt & Hnth).
    split; [simpl; lia|]. split; [simpl; lia|].
    intros [|i] w Hw; cbn [nth_error] in *.
    + injection Hw as <-. exists t. rewrite Hstep. cbn [fst snd].
      split; [reflexivity|]. split; [reflexivity|].
      intros ->. reflexivity.
    + destruct (Hnth i w Hw) as (t' & Ht' & Hv' & Hd').
      exists t'. split; [exact Ht'|]. split; [exact Hv'|].
      intros Hf. rewrite (Hd' Hf). apply andb_false_r.
Qed.

Lemma rebuildAll_defined elapsed :
  forall (vs : list SimulationVoxel) ts,
    (length vs <= length ts)%nat ->
    exists vs' allDone, rebuildAll elapsed vs ts = Some (vs', allDone).
Proof.
  induction vs as [|v vs IH]; intros ts Hl.
  - exists [], true. reflexivity.
  - destruct ts as [|t ts]; [simpl in Hl; lia|].
    destruct (IH ts) as (out & d & Hrec); [simpl in Hl; lia|].
    cbn [rebuildAll]. rewrite Hrec.
    destruct (rebuildStep elapsed t v) as [v1 d1]. eauto.
Qed.

Lemma rebuildAll_undefined elapsed :
  forall (vs : list SimulationVoxel) ts,
    (length ts < length vs)%nat -> rebuildAll elapsed vs ts = None.
Proof.
  induction vs as [|v vs IH]; intros ts Hl; [simpl in Hl; lia|].
  destruct ts as [|t ts]; [reflexivity|].
  cbn [rebuildAll]. rewrite IH by (simpl in Hl; lia). reflexivity.
Qed.

Lemma map_nth_ext {A B} (f : A -> B) (l l' : list A) :
  length l' = length l ->
  (forall i a, nth_error l i = Some a ->
     exists a', nth_error l' i = Some a' /\ f a' = f a) ->
  map f l' = map f l.
Proof.
  revert l'. induction l as [|a l IH]; intros [|a' l'] Hl H;
    try discriminate; [reflexivity|].
  simpl. f_equal.
  - destruct (H 0%nat a eq_refl) as (a'' & E & Hf). injection E as <-. exact Hf.
  - apply IH; [simpl in Hl; lia|]. intros i b Hb. apply (H (S i) b Hb).
Qed.

(** X2.  No operation creates or destroys a voxel: [rebuild] leaves the array of
    voxels as it is, and a frame that completes keeps the ids and colours,
    in order, together with the installed targets and start time. *)
Theorem voxels_are_never_created_or_destroyed (e : VoxelEngine)
    (targetModel : list VoxelData) (now : num) :
  voxels (rebuild K e targetModel now) = voxels e /\
  forall e', updatePhysics K e now = Some e' ->
    map id (voxels e') = map id (voxels e) /\
    map color (voxels e') = map color (voxels e) /\
    rebuildTargets e' = rebuildTargets e /\
    rebuildStartTime e' = rebuildStartTime e.
Proof.
  split.
  - unfold rebuild. destruct (state e); reflexivity.
  - intros e' H. unfold updatePhysics in H. destruct (state e).
    + injection H as <-. auto.
    + injection H as <-. cbn [voxels rebuildTargets rebuildStartTime].
      rewrite !map_map. repeat split; apply map_ext; intros v;
        unfold physicsStep; cbv zeta;
        destruct (y v + (vy v - dec 25 1000) <? FLOOR_Y K + dec 5 10);
        reflexivity.
    + destruct (rebuildAll (now - rebuildStartTime e) (voxels e) (rebuildTargets e))
        as [[vs' d]|] eqn:Hrun; [|discriminate].
      injection H as <-. cbn [voxels rebuildTargets rebuildStartTime].
      destruct (rebuildAll_nth _ _ _ _ _ Hrun) as (Hl & _ & Hnth).
      repeat split; apply map_nth_ext; auto; intros i v Hv;
        destruct (Hnth i v Hv) as (t & _ & Hv' & _);
        eexists; (split; [exact Hv'|]); apply rebuildStep_identity.
Qed.

(** X3.  A frame of the Rebuilding state leaves a rubble voxel as it is, and
    also a voxel whose delay has not elapsed; as long as such a waiting
    voxel exists the state remains Rebuilding. *)
Theorem rebuilding_frame_rubble_and_waiting (e e' : VoxelEngine) (now : num) :
  state e = REBUILDING ->
  updatePhysics K e now = Some e' ->
  forall i v, nth_error (voxels e) i = Some v ->
    exists t, nth_error (rebuildTargets e) i = Some t /\
      (isRubble t = true -> nth_error (voxels e') i = Some v) /\
      (isRubble t = false -> (now - rebuildStartTime e <? delay t) = true ->
         nth_error (voxels e') i = Some v /\ state e' = REBUILDING).
Proof.
  intros Hst H i v Hv. unfold updatePhysics in H. rewrite Hst in H.
  destruct (rebuildAll (now - rebuildStartTime e) (voxels e) (rebuildTargets e))
    as [[vs' d]|] eqn:Hrun; [|discriminate].
  injection H as <-. cbn [voxels state].
  destruct (rebuildAll_nth _ _ _ _ _ Hrun) as (_ & _ & Hnth).
  destruct (Hnth i v Hv) as (t & Ht & Hv' & Hd).
  exists t. split; [exact Ht|]. unfold rebuildStep in Hv', Hd. split.
  - intros Hr. rewrite Hr in Hv'. exact Hv'.
  - intros Hr Hw. rewrite Hr, Hw in Hv', Hd. cbn [fst snd] in Hv', Hd.
    split; [exact Hv'|]. rewrite (Hd eq_refl). reflexivity.
Qed.

(** The engine is well formed when, in the Rebuilding state, every voxel
    has an assignment. *)
Definition wellFormed (e : VoxelEngine (num := num)) : Prop :=
  state e = REBUILDING -> length (rebuildTargets e) = length (voxels e).

(** X4.  Well-formedness is kept by every command and every frame, and a frame
    of a well-formed engine always completes; without an assignment for
    some voxel the frame of the Rebuilding state fails. *)
Theorem frames_never_fail (e : VoxelEngine) (now : num) :
  (forall offsetHSL random data,
      wellFormed (loadInitialModel offsetHSL random e data)) /\
  (forall targetModel, wellFormed (rebuild K e targetModel now)
                       \/ rebuild K e targetModel now = e) /\
  (forall random, wellFormed e -> wellFormed (dismantle e random)) /\
  (wellFormed e ->
     exists e', updatePhysics K e now = Some e' /\ wellFormed e') /\
  (state e = REBUILDING ->
     (length (rebuildTargets e) < length (voxels e))%nat ->
     updatePhysics K e now = None).
Proof.
  split; [|split; [|split; [|split]]].
  - intros offsetHSL random data Hs. discriminate.
  - intros targetModel. unfold rebuild. destruct (state e) eqn:Hs.
    + left. intros _. cbn [rebuildTargets voxels]. apply fillRubble_length.
    + left. intros _. cbn [rebuildTargets voxels]. apply fillRubble_length.
    + right. reflexivity.
  - intros random Hw. unfold dismantle. destruct (state e) eqn:Hs.
    + intros H. discriminate.
    + exact Hw.
    + exact Hw.
  - intros Hw. unfold updatePhysics. destruct (state e) eqn:Hs.
    + exists e. split; [reflexivity|exact Hw].
    + eexists. split; [reflexivity|]. intros H; discriminate.
    + destruct (rebuildAll_defined (now - rebuildStartTime e) (voxels e)
                  (rebuildTargets e)) as (vs' & d & Hrun).
      { rewrite (Hw Hs). lia. }
      rewrite Hrun. eexists. split; [reflexivity|].
      intros _. cbn [rebuildTargets voxels].
      destruct (rebuildAll_nth _ _ _ _ _ Hrun) as (Hl & _ & _).
      rewrite Hl. apply Hw. exact Hs.
  - intros Hs Hl. unfold updatePhysics. rewrite Hs.
    rewrite rebuildAll_undefined by exact Hl. reflexivity.
Qed.

(** X5.  When no untaken entry is within 0.01 of the target's colour the early
    exit never fires, and the loop is the full scan. *)
Theorem scan_is_full_scan_without_near_match (target : VoxelData) :
  forall avail i bestDist bestIdx,
    (forall a, In a avail -> taken a = false ->
       (getColorDist (a_color a) (vd_color target) <? dec 1 100) = false) ->
    scan K avail i target bestDist bestIdx
    = fullScan K avail i target bestDist bestIdx.
Proof.
  induction avail as [|a rest IH]; intros i bd bi H; [reflexivity|].
  cbn [scan fullScan]. unfold score.
  assert (Hrest : forall a', In a' rest -> taken a' = false ->
            (getColorDist (a_color a') (vd_color target) <? dec 1 100) = false).
  { intros a' Ha'. apply H. right; exact Ha'. }
  destruct (taken a) eqn:Ta; [apply IH; exact Hrest|].
  rewrite (H a (or_introl eq_refl) Ta).
  destruct (nltb _ bd); apply IH; exact Hrest.
Qed.

End LifecycleFacts.

Lemma rebuilding_frame_rubble_and_waiting_witness :
  state waiting_scene = REBUILDING /\
  updatePhysics palette waiting_scene (nofZ 16) = Some waiting_scene /\
  exists t, nth_error (rebuildTargets waiting_scene) 1 = Some t.
Proof.
  assert (Hs : state waiting_scene = REBUILDING) by reflexivity.
  assert (Hu : updatePhysics palette waiting_scene (nofZ 16) = Some waiting_scene)
    by (vm_compute; reflexivity).
  split; [exact Hs|]. split; [exact Hu|].
  destruct (rebuilding_frame_rubble_and_waiting palette waiting_scene
              waiting_scene (nofZ 16) Hs Hu 1%nat
              (voxelAt 1 (nofZ 1) (nofZ 0) (nofZ 0) (THREE_Color (nofZ 0x00FF00)))
              eq_refl) as (t & Ht & _).
  exists t. exact Ht.
Defined.

Lemma scan_is_full_scan_without_near_match_witness :
  scan palette (initialAvailable (voxels scene_red_green)) 0 target_blue
    (nofZ 9999) None
  = fullScan palette (initialAvailable (voxels scene_red_green)) 0 target_blue
    (nofZ 9999) None.
Proof.
  apply (scan_is_full_scan_without_near_match palette target_blue).
  intros a Hin _. vm_compute in Hin.
  destruct Hin as [<-|[<-|[]]]; vm_compute; reflexivity.
Defined.

(** ** Physics and colour distance in exact arithmetic *)

Section RealPhysics.

Local Open Scope R_scope.
Variable K : Constants (num := R).

Lemma run_dismantling (nows : list R) :
  forall e : VoxelEngine (num := R),
    state e = DISMANTLING ->
    exists e', run K e nows = Some e' /\ state e' = DISMANTLING /\
      length (voxels e') = length (voxels e) /\
      rebuildTargets e' = rebuildTargets e /\
      (nows <> [] -> forall v', In v' (voxels e') -> FLOOR_Y K + 1/2 <= y v').
Proof.
  induction nows as [|now rest IH]; intros e Hst.
  - exists e. simpl. repeat split; auto. congruence.
  - cbn [run]. rewrite (updatePhysics_dismantling K e now Hst).
    set (e1 := {| voxels := map (physicsStep K) (voxels e);
                  rebuildTargets := rebuildTargets e;
                  rebuildStartTime := rebuildStartTime e;
                  state := DISMANTLING |}).
    destruct (IH e1 eq_refl) as (e' & Hrun & Hst' & Hl & Ht & Hfl).
    exists e'. split; [exact Hrun|]. split; [exact Hst'|].
    split; [rewrite Hl; subst e1; cbn [voxels]; apply length_map|].
    split; [exact Ht|].
    intros _ v' Hv'. destruct rest as [|now2 rest2].
    + simpl in Hrun. injection Hrun as <-. subst e1. cbn [voxels] in Hv'.
      apply in_map_iff in Hv'. destruct Hv' as (v & <- & _).
      apply physicsStep_floor.
    + apply Hfl; [discriminate|exact Hv'].
Qed.

(** X6.  Dismantling has no exit of its own: however many frames run, the state
    is still Dismantling, the voxels are as many as before, and after at
    least one frame none is below [FLOOR_Y + 0.5]. *)
Theorem dismantling_never_ends (e : VoxelEngine (num := R)) (nows : list R) :
  state e = DISMANTLING ->
  exists e', run K e nows = Some e' /\ state e' = DISMANTLING /\
    length (voxels e') = length (voxels e) /\
    (nows <> [] -> forall v', In v' (voxels e') -> FLOOR_Y K + 1/2 <= y v').
Proof.
  intros Hst. destruct (run_dismantling nows e Hst) as (e' & H1 & H2 & H3 & _ & H5).
  exists e'. auto.
Qed.

(** X7.  A voxel that is on or above the floor top and crosses it in this frame
    is put on the floor top and leaves upwards, with half the speed of the
    impact; its horizontal and rotational speeds do not grow. *)
Theorem bounce_goes_up (v : SimulationVoxel (num := R)) :
  FLOOR_Y K + 1/2 <= y v ->
  y v + (vy v - 25/1000) < FLOOR_Y K + 1/2 ->
  y (physicsStep K v) = FLOOR_Y K + 1/2 /\
  0 < vy (physicsStep K v) /\
  vy (physicsStep K v) = - (vy v - 25/1000) / 2 /\
  Rabs (vx (physicsStep K v)) <= Rabs (vx v) /\
  Rabs (vz (physicsStep K v)) <= Rabs (vz v) /\
  Rabs (rvx (physicsStep K v)) <= Rabs (rvx v) /\
  Rabs (rvy (physicsStep K v)) <= Rabs (rvy v) /\
  Rabs (rvz (physicsStep K v)) <= Rabs (rvz v).
Proof.
  intros Habove Hcross.
  assert (Hdamp : forall a c, 0 <= c <= 1 -> Rabs (a * c) <= Rabs a).
  { intros a c Hc. rewrite Rabs_mult, (Rabs_right c) by lra.
    pose proof (Rabs_pos a).
    replace (Rabs a) with (Rabs a * 1) at 2 by ring.
    apply Rmult_le_compat_l; lra. }
  unfold physicsStep. cbv zeta. change (@nltb R Real) with Rltb.
  assert (E : Rltb (y v + (vy v - dec 25 1000)) (FLOOR_Y K + dec 5 10) = true).
  { apply Rltb_true. unfold dec; cbn [nadd nsub ndiv nofZ Real]. lra. }
  cbn [nadd nsub Real] in E |- *. rewrite E.
  cbn [y vy vx vz rvx rvy rvz]. unfold dec.
  cbn [nadd nsub nmul ndiv nofZ Real].
  split; [lra|]. split; [lra|]. split; [lra|].
  repeat split; apply Hdamp; lra.
Qed.

(** X8.  The colour distance is never negative, and it is zero exactly when the
    voxel's colour is the colour three.js builds from the target's value. *)
Theorem getColorDist_zero_iff (c : Color (num := R)) (hex : R) :
  0 <= getColorDist c hex /\
  (getColorDist c hex = 0 <-> c = THREE_Color hex).
Proof.
  unfold getColorDist. cbv zeta. change (@nsqrt R Real) with sqrt.
  generalize (THREE_Color hex). intros c2.
  unfold dec. cbn [nadd nsub nmul ndiv nofZ Real].
  set (dr := r c - r c2). set (dg := g c - g c2). set (db := b c - b c2).
  assert (Hr : 0 <= dr * (3 / 10) * (dr * (3 / 10))) by apply (Rle_0_sqr (dr * (3/10))).
  assert (Hg : 0 <= dg * (59 / 100) * (dg * (59 / 100))) by apply (Rle_0_sqr (dg * (59/100))).
  assert (Hb : 0 <= db * (11 / 100) * (db * (11 / 100))) by apply (Rle_0_sqr (db * (11/100))).
  split; [apply sqrt_pos|]. split.
  - intros H. apply sqrt_eq_0 in H; [|lra].
    assert (Er : Rsqr (dr * (3 / 10)) = 0) by (unfold Rsqr; lra).
    assert (Eg : Rsqr (dg * (59 / 100)) = 0) by (unfold Rsqr; lra).
    assert (Eb : Rsqr (db * (11 / 100)) = 0) by (unfold Rsqr; lra).
    apply Rsqr_0_uniq in Er, Eg, Eb.
    destruct c as [cr cg cb], c2 as [cr2 cg2 cb2]. cbn [r g b] in *.
    f_equal; subst dr dg db; lra.
  - intros ->. subst dr dg db.
    replace (r c2 - r c2) with 0 by ring. replace (g c2 - g c2) with 0 by ring.
    replace (b c2 - b c2) with 0 by ring.
    rewrite !Rmult_0_l, !Rplus_0_r. apply sqrt_0.
Qed.

End RealPhysics.

Lemma dismantling_never_ends_witness :
  state (fallingScene (num := R)) = DISMANTLING /\
  exists e', run samplePalette fallingScene [16%R; 32%R] = Some e' /\
    state e' = DISMANTLING /\
    length (voxels e') = length (voxels (fallingScene (num := R))).
Proof.
  split; [reflexivity|].
  destruct (dismantling_never_ends samplePalette fallingScene [16%R; 32%R] eq_refl)
    as (e' & H1 & H2 & H3 & _).
  exists e'. auto.
Defined.

Lemma bounce_goes_up_witness :
  (0 < vy (physicsStep samplePalette
             (mkVoxel 1%nat 1 (-114 / 10) 2 (THREE_Color 65280)
                (2 / 10) (-4 / 10) (1 / 10) 0 0 0 (1 / 10) (1 / 10) (1 / 10))))%R.
Proof.
  refine (proj1 (proj2 (bounce_goes_up samplePalette
            (mkVoxel 1%nat 1 (-114 / 10) 2 (THREE_Color 65280)
               (2 / 10) (-4 / 10) (1 / 10) 0 0 0 (1 / 10) (1 / 10) (1 / 10))
            _ _)))%R.
  - unfold samplePalette. cbn [FLOOR_Y y nofZ Real]. lra.
  - unfold samplePalette. cbn [FLOOR_Y y vy nofZ Real]. lra.
Defined.

(** ** How many voxels a rebuild assigns *)

Section MatchCountGeneric.

Context {num : Type} {N : JSNumber num}.
Variable K : Constants (num := num).

Lemma matchTrace_app l1 :
  forall st l2,
    matchTrace K st (l1 ++ l2)
    = matchTrace K st l1 ++ matchTrace K (fold_left (assignTarget K) l1 st) l2.
Proof.
  induction l1 as [|t l1 IH]; intros st l2; [reflexivity|].
  simpl. rewrite IH. reflexivity.
Qed.

Lemma matchTrace_length l :
  forall st, length (matchTrace K st l) = length l.
Proof. induction l as [|t l IH]; intros st; simpl; auto. Qed.

Lemma map_update_same {A B} (f : A -> B) (l : list A) i a a' :
  nth_error l i = Some a -> f a' = f a -> map f (update l i a') = map f l.
Proof.
  revert i. induction l as [|h t IH]; intros [|i] H E; simpl in *;
    try discriminate.
  - injection H as ->. rewrite E. reflexivity.
  - rewrite (IH i H E). reflexivity.
Qed.

(** The colours in the pool are those of the voxels, whatever is taken. *)
Lemma assignTarget_colours st target :
  map a_color (fst (assignTarget K st target)) = map a_color (fst st).
Proof.
  destruct st as [available mappings]. unfold assignTarget. cbn [fst].
  destruct (bestIdx_of K available target) as [j|]; [|reflexivity].
  destruct (nth_error available j) as [a|] eqn:Hj; [|reflexivity].
  cbn [fst]. apply (map_update_same a_color available j a (markTaken a) Hj).
  reflexivity.
Qed.

Lemma fold_assignTarget_colours l :
  forall st, map a_color (fst (fold_left (assignTarget K) l st))
             = map a_color (fst st).
Proof.
  induction l as [|t l IH]; intros st; [reflexivity|].
  simpl. rewrite IH. apply assignTarget_colours.
Qed.

Lemma unpicked_exists (n : nat) (P : list nat) :
  (length P < n)%nat -> exists j, (j < n)%nat /\ ~ In j P.
Proof.
  intros Hlen.
  assert (Hdec : forall m, (forall j, (j < m)%nat -> In j P) \/
                           (exists j, (j < m)%nat /\ ~ In j P)).
  { induction m as [|m IH].
    - left. intros j Hj. lia.
    - destruct IH as [Hall | (j & Hj & Hn)].
      + destruct (in_dec Nat.eq_dec m P) as [Hin | Hnin].
        * left. intros j Hj. destruct (Nat.eq_dec j m) as [->|Hne]; auto.
          apply Hall. lia.
        * right. exists m. split; [lia|exact Hnin].
      + right. exists j. split; [lia|exact Hn]. }
  destruct (Hdec n) as [Hall | Hex]; [|exact Hex].
  exfalso.
  assert (Hincl : incl (seq 0 n) P).
  { intros j Hj. apply in_seq in Hj. apply Hall. lia. }
  pose proof (NoDup_incl_length (seq_NoDup n 0) Hincl) as Hle.
  rewrite length_seq in Hle. lia.
Qed.

(** While fewer voxels are picked than there are, the pool holds an
    untaken entry. *)
Lemma untaken_entry_exists (vs : list SimulationVoxel) l :
  let init := (initialAvailable vs, repeat None (length vs)) in
  (length (picksOf (matchTrace K init l)) < length vs)%nat ->
  exists j a v, nth_error (fst (fold_left (assignTarget K) l init)) j = Some a /\
                taken a = false /\
                nth_error vs j = Some v /\ a_color a = color v.
Proof.
  intros init Hlen.
  pose proof (poolInv_initial vs) as Hinv. fold init in Hinv.
  pose proof (poolInv_fold K _ l _ Hinv) as Hinv'.
  destruct (matchTargets_trace K _ l _ Hinv) as (_ & _ & Hrest & _).
  destruct (unpicked_exists (length vs) _ Hlen) as (j & Hj & Hnin).
  specialize (Hrest j Hnin).
  destruct Hinv' as (La & Lm & Hi).
  destruct (nth_error (fst (fold_left (assignTarget K) l init)) j) as [a|] eqn:Ea.
  - destruct (nth_error vs j) as [v|] eqn:Ev; [|apply nth_error_None in Ev; lia].
    exists j, a, v. split; [exact Ea|]. split.
    + destruct (taken a) eqn:Ta; [|reflexivity]. exfalso.
      destruct (Hi j a Ea) as (_ & _ & Ht). destruct (Ht Ta) as (t & Et).
      rewrite Hrest in Et. subst init. cbn [snd] in Et.
      rewrite nth_error_repeat in Et by exact Hj. discriminate.
    + split; [exact Ev|].
      pose proof (fold_assignTarget_colours l init) as Hc.
      assert (Hc' : nth_error (map a_color (fst (fold_left (assignTarget K) l init))) j
                    = nth_error (map a_color (fst init)) j) by (rewrite Hc; reflexivity).
      rewrite !nth_error_map, Ea in Hc'. subst init. cbn [fst] in Hc'.
      unfold initialAvailable in Hc'. rewrite nth_error_mapi, Ev in Hc'.
      cbn in Hc'. injection Hc' as ->. reflexivity.
  - apply nth_error_None in Ea. lia.
Qed.

End MatchCountGeneric.

Section MatchCountReal.

Local Open Scope R_scope.
Variable K : Constants (num := R).

Lemma firstn_S_nth {A} (l : list A) k a :
  nth_error l k = Some a -> firstn (S k) l = firstn k l ++ [a].
Proof.
  revert k. induction l as [|h t IH]; intros [|k] H; simpl in *;
    try discriminate.
  - injection H as ->. reflexivity.
  - rewrite (IH k H). reflexivity.
Qed.

Lemma trace_step (vs : list SimulationVoxel) targetModel k target :
  let init := (initialAvailable vs, repeat None (length vs)) in
  nth_error targetModel k = Some target ->
  nth_error (matchTrace K init targetModel) k
  = Some (bestIdx_of K (fst (fold_left (assignTarget K) (firstn k targetModel) init))
            target) /\
  firstn k (matchTrace K init targetModel)
  = matchTrace K init (firstn k targetModel).
Proof.
  intros init Hk.
  assert (Hsplit : targetModel = firstn k targetModel ++ target :: skipn (S k) targetModel).
  { rewrite <- (firstn_skipn k targetModel) at 1. f_equal.
    clear - Hk. revert k Hk.
    induction targetModel as [|o l IH]; intros [|k] Hk; simpl in *;
      try discriminate.
    - injection Hk as ->. reflexivity.
    - apply IH. exact Hk. }
  assert (Hlen : length (firstn k targetModel) = k).
  { apply firstn_length_le. apply Nat.lt_le_incl. apply nth_error_Some. congruence. }
  set (pre := firstn k targetModel) in *.
  replace (matchTrace K init targetModel)
    with (matchTrace K init (pre ++ target :: skipn (S k) targetModel))
    by (rewrite <- Hsplit; reflexivity).
  rewrite matchTrace_app. split.
  - rewrite nth_error_app2 by (rewrite matchTrace_length; lia).
    rewrite matchTrace_length, Hlen, Nat.sub_diag. reflexivity.
  - rewrite firstn_app, matchTrace_length, Hlen, Nat.sub_diag.
    cbn [firstn]. rewrite app_nil_r.
    apply firstn_all2. rewrite matchTrace_length. lia.
Qed.

Lemma picks_so_far (vs : list SimulationVoxel) targetModel :
  (forall v, In v vs -> validColor (color v)) ->
  let init := (initialAvailable vs, repeat None (length vs)) in
  let tr := matchTrace K init targetModel in
  forall k, (k <= length targetModel)%nat ->
    length (picksOf (firstn k tr)) = Nat.min k (length vs) /\
    (forall j, (j < k)%nat ->
       ((j < length vs)%nat -> exists i, nth_error tr j = Some (Some i)) /\
       ((length vs <= j)%nat -> nth_error tr j = Some None)).
Proof.
  intros Hval init tr.
  pose proof (poolInv_initial vs) as Hinv. fold init in Hinv.
  induction k as [|k IH]; intros Hk.
  - split; [reflexivity|]. intros j Hj; lia.
  - destruct IH as (Hcount & Hprev); [lia|].
    destruct (nth_error targetModel k) as [target|] eqn:Et;
      [|apply nth_error_None in Et; lia].
    destruct (trace_step vs targetModel k target Et) as (Hnth & Hfirst).
    fold init in Hnth, Hfirst. fold tr in Hnth, Hfirst.
    assert (Hcase : ((k < length vs)%nat /\ exists i, nth_error tr k = Some (Some i))
                    \/ ((length vs <= k)%nat /\ nth_error tr k = Some None)).
    { destruct (Nat.lt_ge_cases k (length vs)) as [Hlt | Hge].
      - left. split; [exact Hlt|].
        assert (Hfew : (length (picksOf (matchTrace K init (firstn k targetModel)))
                        < length vs)%nat).
        { rewrite <- Hfirst, Hcount. lia. }
        destruct (untaken_entry_exists K vs (firstn k targetModel) Hfew)
          as (j & a & v & Ha & Hta & Hv & Hc).
        fold init in Ha.
        destruct (bestIdx_of K (fst (fold_left (assignTarget K) (firstn k targetModel) init))
                    target) as [i|] eqn:Hb.
        + exists i. exact Hnth.
        + exfalso.
          refine (bestIdx_of_finds K _ target j a Ha Hta _ Hb).
          rewrite Hc. apply Hval. apply nth_error_In with j. exact Hv.
      - right. split; [exact Hge|].
        destruct (nth_error tr k) as [[i|]|] eqn:Ek; [|reflexivity|].
        + exfalso.
          destruct (matchTargets_trace K _ targetModel _ Hinv) as (_ & _ & _ & Hnd).
          fold tr in Hnd.
          assert (Hincl : incl (picksOf tr) (seq 0 (length vs))).
          { intros q Hq. apply in_seq. split; [lia|]. simpl.
            apply (picksOf_bounded K _ targetModel _ _ Hinv Hq). }
          pose proof (NoDup_incl_length Hnd Hincl) as Hle.
          rewrite length_seq in Hle.
          rewrite <- (firstn_skipn (S k) tr), picksOf_app, length_app in Hle.
          rewrite (firstn_S_nth tr k _ Ek), picksOf_app, length_app, Hcount in Hle.
          change (length (picksOf [Some i])) with 1%nat in Hle. lia.
        + apply nth_error_None in Ek. unfold tr in Ek.
          rewrite matchTrace_length in Ek. lia. }
    split.
    + destruct Hcase as [(Hlt & i & Ei) | (Hge & En)].
      * rewrite (firstn_S_nth tr k _ Ei), picksOf_app, length_app, Hcount.
        change (length (picksOf [Some i])) with 1%nat. lia.
      * rewrite (firstn_S_nth tr k _ En), picksOf_app, length_app, Hcount.
        change (length (picksOf [@None nat])) with 0%nat. lia.
    + intros j Hj. destruct (Nat.eq_dec j k) as [->|Hne].
      * destruct Hcase as [(Hlt & Hex) | (Hge & En)]; split; intros; auto; lia.
      * apply Hprev. lia.
Qed.

(** X9.  With colours in range an accepted [rebuild] assigns exactly
    [min(N, M)] voxels: each of the first [N] targets selects a voxel, no
    voxel twice, and every later target selects none; the entries that are
    not rubble are exactly those of the selected voxels.  With two voxels
    and three targets the third target is dropped. *)
Theorem rebuild_assigns_min (e : VoxelEngine (num := R))
    (targetModel : list VoxelData) (now : R) :
  state e <> REBUILDING ->
  (forall v, In v (voxels e) -> validColor (color v)) ->
  let e' := rebuild K e targetModel now in
  let tr := matchTrace K (initialAvailable (voxels e),
                          repeat None (length (voxels e))) targetModel in
  NoDup (picksOf tr) /\
  length (picksOf tr) = Nat.min (length (voxels e)) (length targetModel) /\
  (forall k, (k < length targetModel)%nat ->
     ((k < length (voxels e))%nat -> exists i, nth_error tr k = Some (Some i)) /\
     ((length (voxels e) <= k)%nat -> nth_error tr k = Some None)) /\
  (forall i t, nth_error (rebuildTargets e') i = Some t ->
     (isRubble t = false <-> In i (picksOf tr))).
Proof.
  intros Hst Hval e' tr.
  destruct (rebuild_assignments K e targetModel now Hst)
    as (_ & _ & Hlen & Hpick & Hrub & Hnd & _).
  fold e' in Hlen, Hpick, Hrub. fold tr in Hpick, Hrub, Hnd.
  destruct (picks_so_far (voxels e) targetModel Hval (length targetModel)
              (Nat.le_refl _)) as (Hcount & Hk).
  fold tr in Hcount, Hk.
  split; [exact Hnd|]. split.
  - rewrite firstn_all2 in Hcount
      by (unfold tr; rewrite matchTrace_length; lia).
    rewrite Hcount. apply Nat.min_comm.
  - split; [exact Hk|].
    intros i t Ht. split.
    + intros Hr. destruct (in_dec Nat.eq_dec i (picksOf tr)) as [Hin|Hnin]; auto.
      exfalso.
      assert (Hi : (i < length (voxels e))%nat).
      { rewrite <- Hlen. apply nth_error_Some. congruence. }
      destruct (nth_error (voxels e) i) as [v|] eqn:Ev;
        [|apply nth_error_None in Ev; lia].
      rewrite (Hrub i v Ev Hnin) in Ht. injection Ht as <-. discriminate.
    + intros Hin. unfold picksOf in Hin. apply in_flat_map in Hin.
      destruct Hin as (o & Ho & Hio). destruct o as [i'|]; [|contradiction].
      destruct Hio as [->|[]]. apply In_nth_error in Ho. destruct Ho as (k & Hk').
      destruct (nth_error targetModel k) as [target|] eqn:Et.
      * rewrite (Hpick k target i Et Hk') in Ht. injection Ht as <-. reflexivity.
      * apply nth_error_None in Et.
        assert (nth_error tr k <> None) by congruence.
        apply nth_error_Some in H. unfold tr in H.
        rewrite matchTrace_length in H. lia.
Qed.

End MatchCountReal.

Lemma rebuild_assigns_min_witness :
  state (threeVoxels (num := R)) <> REBUILDING /\
  length (picksOf (matchTrace samplePalette
            (initialAvailable (voxels (threeVoxels (num := R))),
             repeat None (length (voxels (threeVoxels (num := R)))))
            [pointAt 0 0 0 0xFF0000; pointAt 0 1 0 0x00FF00;
             pointAt 0 2 0 0x0000FF; pointAt 0 3 0 0x123456]))
  = 3%nat.
Proof.
  assert (Hst : state (threeVoxels (num := R)) <> REBUILDING) by discriminate.
  assert (Hval : forall v, In v (voxels (threeVoxels (num := R))) ->
                           validColor (color v)).
  { intros v Hin. unfold threeVoxels in Hin. cbn [voxels In] in Hin.
    destruct Hin as [<-|[<-|[<-|[]]]]; apply THREE_Color_valid. }
  split; [exact Hst|].
  destruct (rebuild_assigns_min samplePalette threeVoxels
              [pointAt 0 0 0 0xFF0000; pointAt 0 1 0 0x00FF00;
               pointAt 0 2 0 0x0000FF; pointAt 0 3 0 0x123456] 0%R Hst Hval)
    as (_ & Hcount & _).
  exact Hcount.
Defined.

(** ** Colours of the scene, export format, refused imports *)

Section ExportFacts.

Context {num : Type} {N : JSNumber num}.
Local Open Scope string_scope.

Lemma existsb_eqb_In (s : string) (l : list string) :
  existsb (String.eqb s) l = true <-> In s l.
Proof.
  rewrite existsb_exists. split.
  - intros (x & Hx & E). apply String.eqb_eq in E. subst. exact Hx.
  - intros H. exists s. split; [exact H|apply String.eqb_refl].
Qed.

Lemma set_add_spec (s : string) (l : list string) :
  NoDup l ->
  NoDup (set_add s l) /\ (forall q, In q (set_add s l) <-> q = s \/ In q l) /\
  exists suffix, set_add s l = (l ++ suffix)%list.
Proof.
  intros Hnd. unfold set_add. destruct (existsb (String.eqb s) l) eqn:E.
  - apply existsb_eqb_In in E. split; [exact Hnd|]. split.
    + intros q. split; [auto|]. intros [->|H]; auto.
    + exists []. rewrite app_nil_r. reflexivity.
  - assert (Hn : ~ In s l).
    { intros H. apply existsb_eqb_In in H. congruence. }
    split; [|split].
    + apply NoDup_app; [exact Hnd|repeat constructor; intros []|].
      intros q Hq [<-|[]]. exact (Hn Hq).
    + intros q. rewrite in_app_iff. simpl. split.
      * intros [H|[<-|[]]]; auto.
      * intros [->|H]; auto.
    + exists [s]. reflexivity.
Qed.

Lemma fold_set_add_spec (f : SimulationVoxel (num := num) -> string) vs :
  forall acc, NoDup acc ->
    NoDup (fold_left (fun colors v => set_add (f v) colors) vs acc) /\
    (forall q, In q (fold_left (fun colors v => set_add (f v) colors) vs acc)
               <-> In q acc \/ exists v, In v vs /\ q = f v).
Proof.
  induction vs as [|v vs IH]; intros acc Hnd; simpl.
  - split; [exact Hnd|]. intros q. split; [auto|].
    intros [H|(v & [] & _)]. exact H.
  - destruct (set_add_spec (f v) acc Hnd) as (Hnd' & Hin' & _).
    destruct (IH _ Hnd') as (Hnd'' & Hin'').
    split; [exact Hnd''|]. intros q. rewrite Hin'', Hin'. split.
    + intros [[->|H]|(w & Hw & E)]; eauto.
    + intros [H|(w & [<-|Hw] & E)]; eauto.
Qed.

(** X10.  [getUniqueColors] lists every colour string of the scene exactly once,
    and nothing else. *)
Theorem getUniqueColors_spec (e : VoxelEngine (num := num)) :
  NoDup (getUniqueColors e) /\
  (forall s, In s (getUniqueColors e) <->
             exists v, In v (voxels e) /\ s = "#" ++ getHexString (color v)) /\
  (length (getUniqueColors e) <= length (voxels e))%nat.
Proof.
  unfold getUniqueColors.
  destruct (fold_set_add_spec (fun v => "#" ++ getHexString (color v))
              (voxels e) [] (NoDup_nil _)) as (Hnd & Hin).
  split; [exact Hnd|]. split.
  - intros s. rewrite Hin. split; [intros [[]|H]; exact H|auto].
  - assert (Hincl : incl (fold_left (fun colors v =>
                       set_add ("#" ++ getHexString (color v)) colors) (voxels e) [])
                      (map (fun v => "#" ++ getHexString (color v)) (voxels e))).
    { intros s Hs. apply Hin in Hs. destruct Hs as [[]|(v & Hv & ->)].
      apply in_map_iff. exists v. split; [reflexivity|exact Hv]. }
    pose proof (NoDup_incl_length Hnd Hincl) as Hle.
    rewrite length_map in Hle. exact Hle.
Qed.

Variable StringToNumber : string -> jsnumber (num := num).
Variable NumberToString : num -> string.

Lemma importPoints_Null (l : list value) :
  In Null l -> importPoints StringToNumber NumberToString l = None.
Proof.
  induction l as [|v l IH]; intros H; [contradiction|].
  destruct H as [->|H]; [reflexivity|].
  cbn [importPoints]. rewrite (IH H).
  destruct (importPoint StringToNumber NumberToString v); reflexivity.
Qed.

(** X11.  The import refuses a value that is not an array, and an array with a
    [null] element, however well formed the other elements are; a refused
    import leaves the engine as it was. *)
Theorem import_refusals (e : VoxelEngine (num := num))
    (offsetHSL : Color -> num -> num -> num -> Color) (random : nat -> num) :
  (forall rawData, (forall l, rawData <> Arr l) ->
     importVoxelData StringToNumber NumberToString rawData = None) /\
  (forall l, In Null l ->
     importVoxelData StringToNumber NumberToString (Arr l) = None) /\
  (forall rawData,
     importVoxelData StringToNumber NumberToString rawData = None ->
     handleJsonImport StringToNumber NumberToString offsetHSL random e rawData = e).
Proof.
  split; [|split].
  - intros rawData H. destruct rawData; try reflexivity.
    exfalso. apply (H l). reflexivity.
  - intros l H. apply importPoints_Null. exact H.
  - intros rawData H. unfold handleJsonImport. rewrite H. reflexivity.
Qed.

(** X12.  [parseInt(s, 16)] reads the leading hexadecimal digits and ignores
    whatever follows the first character that is not one, also after a
    [0x] prefix; the one exception is a lone [0] followed by [x], which is
    that prefix. *)
Theorem parseInt16_reads_prefix (s rest : string) (c : ascii) :
  allHex s = true -> s <> "" -> hexVal c = None ->
  (s = "0" -> c <> "x"%char /\ c <> "X"%char) ->
  parseInt16 (s ++ String c rest) = Number (nofZ (parseDigits16 s 0)) /\
  parseInt16 ("0x" ++ s ++ String c rest) = Number (nofZ (parseDigits16 s 0)).
Proof.
  intros Ha Hne Hc Hzero.
  assert (Hp : parseDigits16 (s ++ String c rest) 0 = parseDigits16 s 0).
  { rewrite parseDigits16_app by exact Ha. simpl. rewrite Hc. reflexivity. }
  destruct s as [|c0 s0]; [congruence|].
  simpl in Ha. destruct (hexVal c0) as [d0|] eqn:Hc0; [|discriminate].
  destruct (hexVal_plain c0 d0 Hc0) as (Hw & Hm & Hpl & Hx & HX & _).
  assert (Hsecond : forall tail,
            match String c0 tail with
            | String a (String b0 r0) =>
                if (Ascii.eqb a "0" && (Ascii.eqb b0 "x" || Ascii.eqb b0 "X"))%bool
                then r0 else String c0 tail
            | _ => String c0 tail
            end = String c0 tail \/
            (Ascii.eqb c0 "0" = true /\
             exists r0, tail = String "x" r0 \/ tail = String "X" r0)).
  { intros tail. destruct tail as [|b0 r0]; [left; reflexivity|].
    destruct (Ascii.eqb c0 "0" && (Ascii.eqb b0 "x" || Ascii.eqb b0 "X"))%bool eqn:E;
      [|left; reflexivity].
    right. apply andb_true_iff in E. destruct E as [E0 E]. split; [exact E0|].
    exists r0.
    apply orb_true_iff in E. destruct E as [E|E]; apply Ascii.eqb_eq in E; subst; auto. }
  assert (Htail : Ascii.eqb c0 "0" = true ->
            forall r0, s0 ++ String c rest <> String "x" r0 /\
                       s0 ++ String c rest <> String "X" r0).
  { intros Hc00 r0. apply Ascii.eqb_eq in Hc00. subst c0.
    destruct s0 as [|c1 s1]; simpl.
    - destruct (Hzero eq_refl) as [N1 N2].
      split; intros E; injection E as E1 _; congruence.
    - simpl in Ha. destruct (hexVal c1) as [d1|] eqn:Hc1; [|discriminate].
      destruct (hexVal_plain c1 d1 Hc1) as (_ & _ & _ & Hx1 & HX1 & _).
      split; intros E; injection E as E1 _; subst c1;
        vm_compute in Hx1, HX1; discriminate. }
  split.
  - unfold parseInt16. cbn [append trimStart]. rewrite Hw, Hm, Hpl.
    destruct (Hsecond (s0 ++ String c rest)) as [E | (E0 & r0 & [E|E])].
    + cbn [append] in E |- *. rewrite E, Hc0.
      cbn [append] in Hp. rewrite Hp, Z.mul_1_l. reflexivity.
    + exfalso. apply (proj1 (Htail E0 r0)). exact E.
    + exfalso. apply (proj2 (Htail E0 r0)). exact E.
  - unfold parseInt16. cbn [append trimStart].
    change (isWhiteSpace "0") with false. cbv iota.
    change (Ascii.eqb "0" "-") with false. change (Ascii.eqb "0" "+") with false.
    cbv iota. change (Ascii.eqb "0" "0") with true.
    change (Ascii.eqb "x" "x") with true. cbn [andb orb]. rewrite Hc0.
    cbn [append] in Hp. rewrite Hp, Z.mul_1_l. reflexivity.
Qed.

End ExportFacts.

Lemma parseInt16_reads_prefix_witness :
  parseInt16 (num := float) ("ff0000" ++ String "z" "q")
  = Number (nofZ (parseDigits16 "ff0000" 0)).
Proof.
  refine (proj1 (parseInt16_reads_prefix (num := float) "ff0000" "q" "z"
                    eq_refl _ eq_refl _)).
  - discriminate.
  - intros E. discriminate E.
Defined.

Section RealExport.

Local Open Scope R_scope.

(** X13.  What [getJsonData] writes: one object per voxel, in order, whose [id]
    is the index, whose coordinates are rounded to two decimals, and whose
    [c] is a [#] followed by exactly six hexadecimal digits spelling the
    colour rounded to eight bits a channel. *)
Theorem export_format (e : VoxelEngine (num := R)) :
  exists l, getJsonData e = Arr l /\ length l = length (voxels e) /\
    forall i v, nth_error (voxels e) i = Some v ->
      exists s,
        nth_error l i =
          Some (Obj [("id"%string, Num (IZR (Z.of_nat i)));
                     ("x"%string, Num (toFixed2 (x v)));
                     ("y"%string, Num (toFixed2 (y v)));
                     ("z"%string, Num (toFixed2 (z v)));
                     ("c"%string, Str (String "#" s))]) /\
        String.length s = 6%nat /\ allHex s = true /\
        parseDigits16 s 0 = getHex (color v) /\
        (0 <= getHex (color v) < 2 ^ 24)%Z.
Proof.
  unfold getJsonData. eexists. split; [reflexivity|].
  split; [apply mapi_length|].
  intros i v Hv. rewrite nth_error_mapi, Hv.
  destruct (getHexString_reads_back (color v) (getHex_range (color v)))
    as (s & Hs & Ha & _ & Hl & Hp).
  exists s. rewrite Hs, !jsonNumber_real. split; [reflexivity|].
  split; [exact Hl|]. split; [exact Ha|]. split; [exact Hp|].
  apply getHex_range.
Qed.

(** X14.  Rounding to two decimals is idempotent: a coordinate that was exported
    once is exported unchanged from then on. *)
Theorem toFixed2_idempotent (v : R) :
  toFixed2 (toFixed2 v) = toFixed2 v /\ Rabs (toFixed2 v - v) <= 1 / 200.
Proof.
  split; [|apply toFixed2_close].
  assert (Hpos : forall a, 0 <= a ->
            let m := if Rltb a (IZR (10 ^ 21))
                     then IZR (Int_part (100 * a + 1 / 2)) / 100 else a in
            0 <= m /\
            (if Rltb m (IZR (10 ^ 21))
             then IZR (Int_part (100 * m + 1 / 2)) / 100 else m) = m).
  { intros a Ha m. subst m. destruct (Rltb a (IZR (10 ^ 21))) eqn:Ea.
    - destruct (base_Int_part (100 * a + 1 / 2)) as [H1 H2].
      set (k := Int_part (100 * a + 1 / 2)) in *.
      assert (Hk : (0 <= k)%Z).
      { assert (H : (-1 < k)%Z) by (apply lt_IZR; lra). lia. }
      apply IZR_le in Hk. split; [lra|].
      destruct (Rltb (IZR k / 100) (IZR (10 ^ 21))); [|reflexivity].
      replace (100 * (IZR k / 100)) with (IZR k) by field.
      rewrite <- (Int_part_spec (IZR k + 1 / 2) k) by lra. reflexivity.
    - split; [exact Ha|]. rewrite Ea. reflexivity. }
  unfold toFixed2. cbv zeta.
  cbn [nsub nmul nofZ nltb nroundScaled nquot Real].
  destruct (Rltb v 0) eqn:Hv.
  - apply Rltb_true in Hv.
    destruct (Hpos (0 - v)) as (Hm0 & Hfix); [lra|].
    set (m := if Rltb (0 - v) (IZR (10 ^ 21))
              then IZR (Int_part (100 * (0 - v) + 1 / 2)) / 100 else 0 - v) in *.
    destruct (Rltb (-1 * m) 0) eqn:Hneg.
    + replace (0 - -1 * m) with m by ring. rewrite Hfix. reflexivity.
    + apply Rltb_false in Hneg. assert (Em : m = 0) by lra.
      rewrite Em in *. replace (-1 * 0) with 0 by ring.
      rewrite Hfix. reflexivity.
  - apply Rltb_false in Hv.
    destruct (Hpos v Hv) as (Hm0 & Hfix).
    set (m := if Rltb v (IZR (10 ^ 21))
              then IZR (Int_part (100 * v + 1 / 2)) / 100 else v) in *.
    assert (E : Rltb m 0 = false) by (apply Rltb_false; exact Hm0).
    rewrite E. exact Hfix.
Qed.

(** X15.  A packed 24-bit colour survives the whole way round, through the
    conversion to linear channels and back to sRGB: the colour three.js
    builds from it has channels in range, exports as that value, and the
    exported string imports as that value. *)
Theorem packed_colour_survives (h : Z) :
  (0 <= h < 2 ^ 24)%Z ->
  validColor (THREE_Color (IZR h)) /\
  getHex (THREE_Color (IZR h)) = h /\
  importColor (Str (String "#" (getHexString (THREE_Color (IZR h))))) Undefined
  = IZR h.
Proof.
  intros Hh. split; [apply THREE_Color_valid|].
  pose proof (getHex_THREE_Color h Hh) as Hg. split; [exact Hg|].
  destruct (getHexString_reads_back (THREE_Color (IZR h))
              (getHex_range (THREE_Color (IZR h)))) as (s & Hs & Ha & Hne & _ & Hp).
  rewrite Hs.
  rewrite (importColor_hex (@Str R (String "#" s)) Undefined s Ha Hne).
  - rewrite Hp, Hg. reflexivity.
  - right. reflexivity.
Qed.

End RealExport.

(** On binary64 as well every byte survives the two conversions, so every
    packed colour does, channel by channel. *)
Lemma sRGB_bytes_round_trip_binary64 :
  forallb (fun n => Z.eqb (channelByte (num := float)
                             (SRGBToLinear (nofZ n / nofZ 255)%js)) n)
    (zrange 0 255) = true.
Proof. vm_compute. reflexivity. Qed.

Lemma packed_colour_survives_witness :
  getHex (THREE_Color (IZR 0x123456)) = 0x123456%Z.
Proof.
  refine (proj1 (proj2 (packed_colour_survives 0x123456 _))).
  split; [discriminate|reflexivity].
Defined.

(** ** The block map of the generators *)

Section BlockMapFacts.

Context {num : Type} {N : JSNumber num}.

Lemma key_eqb_eq (k k' : BlockKey) : key_eqb k k' = true <-> k = k'.
Proof.
  destruct k as [[a b0] c], k' as [[a' b'] c']. unfold key_eqb.
  rewrite !andb_true_iff, !Z.eqb_eq. split.
  - intros [[-> ->] ->]. reflexivity.
  - intros E. injection E as -> -> ->. auto.
Qed.

Lemma key_eqb_refl (k : BlockKey) : key_eqb k k = true.
Proof. apply key_eqb_eq. reflexivity. Qed.

Lemma key_eqb_neq (k k' : BlockKey) : k <> k' -> key_eqb k k' = false.
Proof.
  intros H. destruct (key_eqb k k') eqn:E; [|reflexivity].
  apply key_eqb_eq in E. contradiction.
Qed.

Lemma key_dec (k k' : BlockKey) : {k = k'} + {k <> k'}.
Proof. repeat decide equality. Qed.

Lemma map_get_set_same (k : BlockKey) (v : VoxelData (num := num)) (m : BlockMap) :
  map_get k (map_set k v m) = Some v.
Proof.
  induction m as [|[k' v'] m IH]; simpl.
  - rewrite key_eqb_refl. reflexivity.
  - destruct (key_eqb k k') eqn:E; simpl.
    + rewrite key_eqb_refl. reflexivity.
    + rewrite E. exact IH.
Qed.

Lemma map_get_set_other (k q : BlockKey) (v : VoxelData (num := num)) (m : BlockMap) :
  q <> k -> map_get q (map_set k v m) = map_get q m.
Proof.
  intros Hne. induction m as [|[k' v'] m IH]; simpl.
  - rewrite key_eqb_neq by exact Hne. reflexivity.
  - destruct (key_eqb k k') eqn:E; simpl.
    + apply key_eqb_eq in E. subst k'.
      rewrite key_eqb_neq by exact Hne. reflexivity.
    + destruct (key_eqb q k'); [reflexivity|exact IH].
Qed.

Lemma map_set_keys (k : BlockKey) (v : VoxelData (num := num)) (m : BlockMap) :
  (In k (map fst m) /\ map fst (map_set k v m) = map fst m) \/
  (~ In k (map fst m) /\ map fst (map_set k v m) = map fst m ++ [k]).
Proof.
  induction m as [|[k' v'] m IH]; simpl.
  - right. split; [intros []|reflexivity].
  - destruct (key_eqb k k') eqn:E; simpl.
    + apply key_eqb_eq in E. subst k'. left. auto.
    + assert (Hne : k' <> k).
      { intros ->. rewrite key_eqb_refl in E. discriminate. }
      destruct IH as [(Hin & Hk) | (Hnin & Hk)].
      * left. split; [right; exact Hin|]. rewrite Hk. reflexivity.
      * right. split; [intros [H|H]; [exact (Hne H)|exact (Hnin H)]|].
        rewrite Hk. reflexivity.
Qed.

Lemma map_set_NoDup (k : BlockKey) (v : VoxelData (num := num)) (m : BlockMap) :
  NoDup (map fst m) -> NoDup (map fst (map_set k v m)).
Proof.
  intros Hnd. destruct (map_set_keys k v m) as [(_ & ->) | (Hnin & ->)].
  - exact Hnd.
  - apply NoDup_app; [exact Hnd|repeat constructor; intros []|].
    intros q Hq [<-|[]]. exact (Hnin Hq).
Qed.

(** X17.  [setBlock] keeps one block per integer cell: the cell of the rounded
    coordinates now holds the rounded position and the given colour, every
    other cell is as before, keys stay distinct, and a cell that was
    already present keeps its place in the order of insertion. *)
Theorem setBlock_spec (m : BlockMap) (x y z color : num) :
  NoDup (map fst m) ->
  let k := (round x, round y, round z) in
  map_get k (setBlock m x y z color)
    = Some {| vd_x := nofZ (round x); vd_y := nofZ (round y);
              vd_z := nofZ (round z); vd_color := color |} /\
  (forall q, q <> k -> map_get q (setBlock m x y z color) = map_get q m) /\
  NoDup (map fst (setBlock m x y z color)) /\
  ((In k (map fst m) /\ map fst (setBlock m x y z color) = map fst m) \/
   (~ In k (map fst m) /\ map fst (setBlock m x y z color) = map fst m ++ [k])).
Proof.
  intros Hnd k. unfold setBlock. cbv zeta. fold k.
  split; [apply map_get_set_same|].
  split; [intros q Hq; apply map_get_set_other; exact Hq|].
  split; [apply map_set_NoDup; exact Hnd|apply map_set_keys].
Qed.

(** A loop that sets blocks under a condition, read at one cell. *)
Lemma fold_set_get {P : Type} (c : P -> bool) (key : P -> BlockKey)
    (val : P -> VoxelData (num := num)) (q : BlockKey) (L : list P) :
  forall m : BlockMap,
    let m' := fold_left (fun m p => if c p then map_set (key p) (val p) m else m) L m in
    ((forall p, In p L -> c p = true -> key p <> q) -> map_get q m' = map_get q m) /\
    (forall w, (forall p, In p L -> c p = true -> key p = q -> val p = w) ->
       map_get q m = Some w \/ (exists p, In p L /\ c p = true /\ key p = q) ->
       map_get q m' = Some w) /\
    (NoDup (map fst m) -> NoDup (map fst m')).
Proof.
  induction L as [|p L IH]; intros m m'; subst m'.
  - simpl. split; [auto|]. split; [|auto].
    intros w _ [H|(p & [] & _)]. exact H.
  - cbn [fold_left].
    destruct (IH (if c p then map_set (key p) (val p) m else m)) as (IH1 & IH2 & IH3).
    split; [|split].
    + intros H. rewrite IH1 by (intros p' Hp'; apply H; right; exact Hp').
      destruct (c p) eqn:Ec; [|reflexivity].
      apply map_get_set_other. intros E. apply (H p (or_introl eq_refl) Ec).
      symmetry. exact E.
    + intros w Hw Hsrc. apply IH2.
      * intros p' Hp'. apply Hw. right; exact Hp'.
      * destruct (c p) eqn:Ec.
        -- destruct (key_dec (key p) q) as [Ek|Ek].
           ++ left. rewrite <- Ek, map_get_set_same. f_equal.
              apply Hw; auto. left; reflexivity.
           ++ destruct Hsrc as [H|(p' & [<-|Hp'] & Hc' & Hk')].
              ** left. rewrite map_get_set_other by (intros E; apply Ek; symmetry; exact E).
                 exact H.
              ** contradiction.
              ** right. exists p'. auto.
        -- destruct Hsrc as [H|(p' & [<-|Hp'] & Hc' & Hk')].
           ++ left. exact H.
           ++ congruence.
           ++ right. exists p'. auto.
    + intros Hnd. apply IH3. destruct (c p); [apply map_set_NoDup|]; exact Hnd.
Qed.

(** Two nested loops are one loop over the pairs. *)
Lemma fold_left_nested {A X Y : Type} (F : A -> X -> Y -> A)
    (xs : list X) (ys : list Y) :
  forall a,
    fold_left (fun a x => fold_left (fun a y => F a x y) ys a) xs a
    = fold_left (fun a p => F a (fst p) (snd p)) (list_prod xs ys) a.
Proof.
  induction xs as [|x xs IH]; intros a; [reflexivity|].
  cbn [fold_left list_prod]. rewrite fold_left_app, <- IH. f_equal.
  clear. revert a. induction ys as [|y ys IHy]; intros a; [reflexivity|].
  cbn [fold_left map]. apply IHy.
Qed.

Lemma in_zrange (lo hi a : Z) : In a (zrange lo hi) <-> (lo <= a <= hi)%Z.
Proof.
  unfold zrange. rewrite in_map_iff. split.
  - intros (i & <- & Hi). apply in_seq in Hi. lia.
  - intros H. exists (Z.to_nat (a - lo)). split; [lia|]. apply in_seq. lia.
Qed.

End BlockMapFacts.

Lemma setBlock_spec_witness :
  NoDup (map fst two_blocks) /\
  map_get (2, -1, 2)%Z
    (setBlock two_blocks (dec 16 10) (dec (-14) 10) (dec 24 10) (nofZ 0xFFFFFF))
  = Some {| vd_x := nofZ 2; vd_y := nofZ (-1); vd_z := nofZ 2;
            vd_color := nofZ 0xFFFFFF |} /\
  map_get (0, 0, 0)%Z
    (setBlock two_blocks (dec 16 10) (dec (-14) 10) (dec 24 10) (nofZ 0xFFFFFF))
  = map_get (0, 0, 0)%Z two_blocks /\
  map fst
    (setBlock two_blocks (dec 16 10) (dec (-14) 10) (dec 24 10) (nofZ 0xFFFFFF))
  = map fst two_blocks.
Proof.
  assert (Hnd : NoDup (map fst two_blocks)).
  { vm_compute. repeat constructor.
    - intros [H|[]]. discriminate H.
    - intros []. }
  destruct (setBlock_spec two_blocks (dec 16 10) (dec (-14) 10) (dec 24 10)
              (nofZ 0xFFFFFF) Hnd) as (Hnew & Hother & _ & Hkeys).
  split; [exact Hnd|]. split; [|split].
  - vm_compute in Hnew |- *. exact Hnew.
  - apply Hother. vm_compute. discriminate.
  - destruct Hkeys as [(_ & Hk) | (Hnin & _)]; [exact Hk|].
    exfalso. apply Hnin. vm_compute. right. left. reflexivity.
Defined.

(** ** The sphere generator, on exact numbers *)

Section RealSphere.

Local Open Scope R_scope.

Lemma nleb_real (a b : R) : nleb (num := R) a b = true <-> a <= b.
Proof.
  unfold nleb. change (@nltb R Real) with Rltb. change (@neqb R Real) with Reqb.
  rewrite orb_true_iff, Rltb_true, Reqb_true. lra.
Qed.

Lemma round_IZR (x : Z) : round (num := R) (IZR x) = x.
Proof.
  unfold round, dec. cbn [nadd ndiv nofZ nfloor Real].
  symmetry. apply Int_part_spec. lra.
Qed.

Lemma floor_below (v : R) (a : Z) : v <= IZR a -> (Int_part v <= a)%Z.
Proof.
  intros H. destruct (base_Int_part v) as [H1 _]. apply le_IZR. lra.
Qed.

Lemma ceil_above (v : R) (a : Z) : IZR a <= v -> (a <= ceil (num := R) v)%Z.
Proof.
  intros H. unfold ceil. cbn [nsub nofZ nfloor Real].
  destruct (base_Int_part (0 - v)) as [H1 _].
  assert (H2 : (Int_part (0 - v) <= - a)%Z).
  { apply le_IZR. rewrite opp_IZR. lra. }
  lia.
Qed.

Lemma sq_le_bounds (d r : R) : 0 <= r -> d * d <= r * r -> - r <= d <= r.
Proof.
  intros Hr H.
  assert (Ha : Rabs d <= Rabs r) by (apply Rsqr_le_abs_0; exact H).
  rewrite (Rabs_right r) in Ha by lra.
  pose proof (Rle_abs d) as H1. pose proof (Rle_abs (- d)) as H2.
  rewrite Rabs_Ropp in H2. lra.
Qed.

Lemma generateSphere_flat (m : BlockMap) (cx cy cz r col sy : R) :
  generateSphere m cx cy cz r col sy
  = fold_left
      (fun (m : BlockMap) (q : Z * Z * Z) =>
         if nleb (num := R)
              ((IZR (fst (fst q)) - cx) * (IZR (fst (fst q)) - cx)
               + (IZR (snd (fst q)) - cy) / sy * ((IZR (snd (fst q)) - cy) / sy)
               + (IZR (snd q) - cz) * (IZR (snd q) - cz)) (r * r)
         then map_set
                (round (num := R) (IZR (fst (fst q))),
                 round (num := R) (IZR (snd (fst q))),
                 round (num := R) (IZR (snd q)))
                {| vd_x := IZR (round (num := R) (IZR (fst (fst q))));
                   vd_y := IZR (round (num := R) (IZR (snd (fst q))));
                   vd_z := IZR (round (num := R) (IZR (snd q)));
                   vd_color := col |} m
         else m)
      (list_prod
         (list_prod (zrange (Int_part (cx - r)) (ceil (num := R) (cx + r)))
                    (zrange (Int_part (cy - r * sy)) (ceil (num := R) (cy + r * sy))))
         (zrange (Int_part (cz - r)) (ceil (num := R) (cz + r))))
      m.
Proof.
  unfold generateSphere, setBlock. cbv zeta.
  cbn [nadd nsub nmul ndiv nofZ nfloor Real].
  rewrite (fold_left_nested
    (fun (m : BlockMap) (x y : Z) =>
       fold_left (fun (m : BlockMap) (z : Z) =>
         if nleb (num := R)
              ((IZR x - cx) * (IZR x - cx)
               + (IZR y - cy) / sy * ((IZR y - cy) / sy)
               + (IZR z - cz) * (IZR z - cz)) (r * r)
         then map_set
                (round (num := R) (IZR x), round (num := R) (IZR y),
                 round (num := R) (IZR z))
                {| vd_x := IZR (round (num := R) (IZR x));
                   vd_y := IZR (round (num := R) (IZR y));
                   vd_z := IZR (round (num := R) (IZR z));
                   vd_color := col |} m
         else m)
         (zrange (Int_part (cz - r)) (ceil (num := R) (cz + r))) m)).
  rewrite (fold_left_nested
    (fun (m : BlockMap) (p : Z * Z) (z : Z) =>
         if nleb (num := R)
              ((IZR (fst p) - cx) * (IZR (fst p) - cx)
               + (IZR (snd p) - cy) / sy * ((IZR (snd p) - cy) / sy)
               + (IZR z - cz) * (IZR z - cz)) (r * r)
         then map_set
                (round (num := R) (IZR (fst p)), round (num := R) (IZR (snd p)),
                 round (num := R) (IZR z))
                {| vd_x := IZR (round (num := R) (IZR (fst p)));
                   vd_y := IZR (round (num := R) (IZR (snd p)));
                   vd_z := IZR (round (num := R) (IZR z));
                   vd_color := col |} m
         else m)).
  reflexivity.
Qed.

(** X18.  [generateSphere] fills exactly the integer cells of the ellipsoid: for
    a radius that is not negative and a positive vertical scale, a cell
    whose centre satisfies [dx^2 + (dy/sy)^2 + dz^2 <= r^2] holds the
    sphere's colour afterwards, whatever it held before, and every other
    cell is untouched.  So the bounding box of the loops cuts off no cell
    of the ellipsoid.  Keys stay distinct. *)
Theorem generateSphere_fills_ellipsoid
    (m : BlockMap) (cx cy cz r col sy : R) (a b c : Z) :
  0 <= r -> 0 < sy ->
  let inside :=
    (IZR a - cx) * (IZR a - cx)
    + (IZR b - cy) / sy * ((IZR b - cy) / sy)
    + (IZR c - cz) * (IZR c - cz) <= r * r in
  (inside ->
   map_get (a, b, c) (generateSphere m cx cy cz r col sy)
   = Some {| vd_x := IZR a; vd_y := IZR b; vd_z := IZR c; vd_color := col |}) /\
  (~ inside ->
   map_get (a, b, c) (generateSphere m cx cy cz r col sy) = map_get (a, b, c) m) /\
  (NoDup (map fst m) -> NoDup (map fst (generateSphere m cx cy cz r col sy))).
Proof.
  intros Hr Hsy inside. rewrite generateSphere_flat.
  match goal with
  | |- context [fold_left (fun m0 q => if @?cnd q then map_set (@?ky q) (@?vl q) m0 else m0) ?L m] =>
      destruct (fold_set_get cnd ky vl (a, b, c) L m) as (Hout & Hin & Hnd)
  end.
  cbv beta in Hout, Hin, Hnd.
  assert (Hkey : forall q : Z * Z * Z,
            (round (num := R) (IZR (fst (fst q))), round (num := R) (IZR (snd (fst q))),
             round (num := R) (IZR (snd q))) = (a, b, c) -> q = (a, b, c)).
  { intros [[x y] z]. cbn [fst snd]. rewrite !round_IZR. auto. }
  split; [|split].
  - intros Hi. apply Hin.
    + intros q _ _ Hk. apply Hkey in Hk. subst q. cbn [fst snd].
      rewrite !round_IZR. reflexivity.
    + right. exists (a, b, c). cbn [fst snd]. rewrite !round_IZR.
      split; [|split; [apply nleb_real; exact Hi|reflexivity]].
      unfold inside in Hi.
      pose proof (Rle_0_sqr (IZR a - cx)) as Sa.
      pose proof (Rle_0_sqr ((IZR b - cy) / sy)) as Sb.
      pose proof (Rle_0_sqr (IZR c - cz)) as Sc.
      unfold Rsqr in Sa, Sb, Sc.
      destruct (sq_le_bounds (IZR a - cx) r Hr) as [A1 A2]; [lra|].
      destruct (sq_le_bounds ((IZR b - cy) / sy) r Hr) as [B1 B2]; [lra|].
      destruct (sq_le_bounds (IZR c - cz) r Hr) as [C1 C2]; [lra|].
      assert (B3 : - (r * sy) <= IZR b - cy <= r * sy).
      { replace (IZR b - cy) with ((IZR b - cy) / sy * sy) by (field; lra).
        split.
        - replace (- (r * sy)) with (- r * sy) by ring.
          apply Rmult_le_compat_r; lra.
        - apply Rmult_le_compat_r; lra. }
      apply in_prod; [apply in_prod|]; apply in_zrange;
        (split; [apply floor_below|apply ceil_above]); lra.
  - intros Ho. apply Hout. intros q _ Hc Hk. apply Hkey in Hk. subst q.
    cbn [fst snd] in Hc. apply nleb_real in Hc. exact (Ho Hc).
  - exact Hnd.
Qed.

Lemma generateSphere_fills_ellipsoid_witness :
  map_get (1, 0, -1)%Z (generateSphere (num := R) [] 0 0 0 (15 / 10) 7 1)
  = Some {| vd_x := 1; vd_y := 0; vd_z := -1; vd_color := 7 |}.
Proof.
  refine (proj1 (generateSphere_fills_ellipsoid [] 0 0 0 (15 / 10) 7 1 1 0 (-1) _ _) _);
    lra.
Defined.

End RealSphere.

(** ** One block per cell *)

Section OneBlockPerCell.

Context {num : Type} {N : JSNumber num}.

(** The position a block records. *)
Definition position (v : VoxelData (num := num)) : num * num * num :=
  (vd_x v, vd_y v, vd_z v).

(** The number triple of an integer cell. *)
Definition cellPosition (k : BlockKey) : num * num * num :=
  let '(a, b0, c) := k in (nofZ a, nofZ b0, nofZ c).

(** Keys are pairwise distinct, and every block sits in the cell of its
    key. *)
Definition oneBlockPerCell (m : BlockMap (num := num)) : Prop :=
  NoDup (map fst m) /\
  forall k v, In (k, v) m -> position v = cellPosition k.

Lemma In_map_set (k q : BlockKey) (v w : VoxelData (num := num)) (m : BlockMap) :
  In (q, w) (map_set k v m) -> (q, w) = (k, v) \/ In (q, w) m.
Proof.
  induction m as [|[k' v'] m IH]; simpl.
  - intros [H|[]]. left. symmetry. exact H.
  - destruct (key_eqb k k'); simpl.
    + intros [H|H]; [left; symmetry; exact H|right; right; exact H].
    + intros [H|H]; [right; left; exact H|].
      destruct (IH H) as [E|E]; [left; exact E|right; right; exact E].
Qed.

Lemma setBlock_oneBlockPerCell (m : BlockMap) (x y z color : num) :
  oneBlockPerCell m -> oneBlockPerCell (setBlock m x y z color).
Proof.
  intros [Hnd Hpos]. unfold setBlock. cbv zeta. split.
  - apply map_set_NoDup. exact Hnd.
  - intros k v Hin. apply In_map_set in Hin. destruct Hin as [E|Hin].
    + injection E as -> ->. reflexivity.
    + apply Hpos. exact Hin.
Qed.

Lemma fold_left_inv {A X : Type} (P : A -> Prop) (f : A -> X -> A) (l : list X) :
  (forall a x, P a -> P (f a x)) -> forall a, P a -> P (fold_left f l a).
Proof.
  intros Hf. induction l as [|x l IH]; intros a Ha; [exact Ha|].
  cbn [fold_left]. apply IH, Hf, Ha.
Qed.

(** X19.  The guarantee the header of [setBlock] states, for the generators that
    go through it: starting from an empty map, and after any [setBlock] or
    [generateSphere], the map holds at most one block per integer cell and
    each block records the coordinates of its own cell.  This holds for
    every argument, also a negative radius or a zero scale. *)
Theorem generators_keep_one_block_per_cell (m : BlockMap) :
  oneBlockPerCell [] /\
  (oneBlockPerCell m ->
   (forall x y z color, oneBlockPerCell (setBlock m x y z color)) /\
   (forall cx cy cz r col sy,
      oneBlockPerCell (generateSphere m cx cy cz r col sy))).
Proof.
  split.
  - split; [constructor|intros k v []].
  - intros Hm. split.
    + intros x y z color. apply setBlock_oneBlockPerCell. exact Hm.
    + intros cx cy cz r col sy. unfold generateSphere. cbv zeta.
      apply (fold_left_inv oneBlockPerCell); [|exact Hm].
      intros m1 x0 H1. apply (fold_left_inv oneBlockPerCell); [|exact H1].
      intros m2 y0 H2. apply (fold_left_inv oneBlockPerCell); [|exact H2].
      intros m3 z0 H3.
      match goal with |- context [if ?c then _ else _] => destruct c end;
        [apply setBlock_oneBlockPerCell|]; exact H3.
Qed.

End OneBlockPerCell.

Lemma generators_keep_one_block_per_cell_witness :
  oneBlockPerCell
    (generateSphere (num := float) [] (nofZ 0) (nofZ 0) (nofZ 0) (dec 12 10)
       (nofZ 0x228B22) (nofZ 1)).
Proof.
  refine (proj2 (proj2 (generators_keep_one_block_per_cell (num := float) []) _)
            (nofZ 0) (nofZ 0) (nofZ 0) (dec 12 10) (nofZ 0x228B22) (nofZ 1)).
  split; [constructor|intros k v []].
Defined.

Section RealCells.

Local Open Scope R_scope.

Lemma cellPosition_inj (k k' : BlockKey) :
  cellPosition (num := R) k = cellPosition (num := R) k' -> k = k'.
Proof.
  destruct k as [[a b0] c], k' as [[a' b'] c']. unfold cellPosition.
  cbn [nofZ Real]. intros E. injection E as Ea Eb Ec.
  apply eq_IZR in Ea, Eb, Ec. subst. reflexivity.
Qed.

(** X20.  With exact numbers, one block per cell means that no two blocks the
    generators hand over ([map.values()]) share a position. *)
Theorem blocks_have_distinct_positions (m : BlockMap (num := R)) :
  oneBlockPerCell m -> NoDup (map position (map_values m)).
Proof.
  intros [Hnd Hpos]. unfold map_values.
  induction m as [|[k v] m IH]; [constructor|].
  cbn [map fst snd] in *. inversion Hnd as [|? ? Hk Hnd']. subst.
  constructor.
  - intros Hin. apply in_map_iff in Hin. destruct Hin as (w & Ew & Hw).
    apply in_map_iff in Hw. destruct Hw as ([k' w'] & E' & Hin').
    cbn [snd] in E'. subst w'.
    apply Hk. apply in_map_iff. exists (k', w). split; [|exact Hin'].
    cbn [fst]. apply cellPosition_inj.
    rewrite <- (Hpos k' w (or_intror Hin')), <- (Hpos k v (or_introl eq_refl)).
    exact Ew.
  - apply IH; [exact Hnd'|].
    intros k' w Hin. apply Hpos. right. exact Hin.
Qed.

Lemma blocks_have_distinct_positions_witness :
  map position (map_values neighbours)
    = [(0, 0, 0); (1, 0, 0)] /\
  NoDup (map position (map_values neighbours)).
Proof.
  split.
  - unfold neighbours, setBlock. cbv zeta.
    rewrite (round_IZR 0), (round_IZR 1). reflexivity.
  - apply (blocks_have_distinct_positions neighbours).
    unfold neighbours.
    apply (setBlock_oneBlockPerCell (num := R)).
    apply (setBlock_oneBlockPerCell (num := R)).
    split; [constructor|intros k v []].
Defined.

End RealCells.

(** ** A freshly loaded model *)

Section LoadFacts.

Context {num : Type} {N : JSNumber num}.
Variable K : Constants (num := num).



End LoadFacts.
